(** * bob.learn.libsvm: the sparse record file and the prediction engine

    A shallow embedding of [kernel_machine_cxx.cpp]: [SVMFile], the reader
    of the LIBSVM sparse text format, and [SupportVector], the machine
    wrapping a libsvm model.  C++ streams are modelled at the level of
    characters, [double] as IEEE binary64 ([SpecFloat], 53 bits of
    precision), [int] and [size_t] as [Z] with explicit conversions. *)

From Stdlib Require Import ZArith Ascii String List Bool Lia.
From Stdlib Require Import Floats.SpecFloat.
From stdpp Require Import base list strings gmap.

Local Open Scope Z_scope.

(** ** Machine integers *)

Definition INT_MIN : Z := - 2 ^ 31.
Definition INT_MAX : Z := 2 ^ 31 - 1.
Definition SIZE_MAX : Z := 2 ^ 64 - 1.

(** Conversion to [int] (two's complement, 32 bits). *)
Definition to_int (z : Z) : Z := (z + 2 ^ 31) mod 2 ^ 32 - 2 ^ 31.

(** Conversion to [size_t] (64 bits, modular). *)
Definition to_size_t (z : Z) : Z := z mod 2 ^ 64.

Definition is_int (z : Z) : Prop := INT_MIN <= z <= INT_MAX.
Definition is_size_t (z : Z) : Prop := 0 <= z <= SIZE_MAX.

(** ** Doubles *)

Definition double : Type := spec_float.

Definition dsub : double -> double -> double := SFsub 53 1024.
Definition ddiv : double -> double -> double := SFdiv 53 1024.
Definition double_of_Z (z : Z) : double := binary_normalize 53 1024 z 0 false.

Definition d0 : double := S754_zero false.
Definition d1 : double := double_of_Z 1.
Definition DBL_MAX (s : bool) : double :=
  S754_finite s (2 ^ 53 - 1)%positive (1024 - 53).

(** [!tmp] on a double: true for +0 and -0, false for everything else,
    NaN included. *)
Definition is_zero (x : double) : bool :=
  match x with S754_zero _ => true | _ => false end.

Definition is_finite (x : double) : bool :=
  match x with S754_zero _ | S754_finite _ _ _ => true | _ => false end.

(** The double nearest to [(-1)^neg * m * 10^e10] (round to nearest, ties to
    even), which is what [strtod] returns for a decimal literal. *)
Definition double_of_decimal (neg : bool) (m e10 : Z) : double :=
  match m with
  | Zpos p =>
      if 0 <=? e10 then binary_round 53 1024 neg (p * Z.to_pos (10 ^ e10)) 0
      else
        let '(q, e, l) := SFdiv_core_binary 53 1024 (Zpos p) 0 (10 ^ (- e10)) 0 in
        binary_round_aux 53 1024 neg q e l
  | _ => S754_zero neg
  end.

(** ** Characters *)

Definition code (c : ascii) : Z := Z.of_N (N_of_ascii c).

Definition isspace (c : ascii) : bool :=
  (code c =? 32) || ((9 <=? code c) && (code c <=? 13)).
Definition isdigit (c : ascii) : bool := (48 <=? code c) && (code c <=? 57).
Definition digit (c : ascii) : Z := code c - 48.
Definition is_char (a c : ascii) : bool := code c =? code a.

(** [static bool is_colon(char i)] *)
Definition is_colon (i : ascii) : bool := is_char ":" i.

Fixpoint skip_while (p : ascii -> bool) (s : list ascii) : list ascii :=
  match s with
  | c :: r => if p c then skip_while p r else s
  | [] => []
  end.

(** The longest prefix of [s] whose characters satisfy [p], and the rest. *)
Fixpoint span (p : ascii -> bool) (s : list ascii) : list ascii * list ascii :=
  match s with
  | c :: r => if p c then let '(a, b) := span p r in (c :: a, b) else ([], s)
  | [] => ([], [])
  end.

Definition digits_value (ds : list ascii) : Z :=
  fold_left (fun acc c => 10 * acc + digit c) ds 0.

(** [boost::trim] *)
Definition trim (s : list ascii) : list ascii :=
  rev (skip_while isspace (rev (skip_while isspace s))).

(** [std::count_if(line.begin(), line.end(), is_colon)] *)
Fixpoint count_if (p : ascii -> bool) (s : list ascii) : nat :=
  match s with
  | c :: r => if p c then S (count_if p r) else count_if p r
  | [] => O
  end.

(** ** Input streams

    [std::istream] over a character buffer: what is left to read, and the
    state bits ([badbit] is never set by the operations used here). *)

Record istream := mk_istream {
  rdbuf : list ascii;
  eofbit : bool;
  failbit : bool
}.

Definition good (s : istream) : bool := negb (eofbit s) && negb (failbit s).
Definition fail (s : istream) : bool := failbit s.

Definition set_failbit (s : istream) : istream :=
  mk_istream (rdbuf s) (eofbit s) true.

Definition at_end (s : list ascii) : bool :=
  match s with [] => true | _ => false end.

(** [std::istringstream iss(line)] *)
Definition istringstream (str : list ascii) : istream := mk_istream str false false.

(** The sentry of a formatted input function: it refuses a stream that is
    not good, otherwise skips white space, and refuses when that reaches
    the end of the buffer. *)
Definition sentry (s : istream) : bool * istream :=
  if good s then
    match skip_while isspace (rdbuf s) with
    | [] => (false, mk_istream [] true true)
    | rest => (true, mk_istream rest false false)
    end
  else (false, set_failbit s).

(** [num_get] for an integer in base ten: an optional sign, then the longest
    run of digits.  It yields the value, whether the conversion failed, and
    what is left.  No digit: value 0 and failure.  Out of range: the nearest
    bound and failure.  A minus sign before an unsigned wraps around. *)
Definition num_get_integer (signed : bool) (lo hi : Z) (s : list ascii)
  : Z * bool * list ascii :=
  let '(neg, s1) :=
    match s with
    | c :: r => if is_char "-" c then (true, r)
                else if is_char "+" c then (false, r) else (false, s)
    | [] => (false, [])
    end in
  let '(ds, rest) := span isdigit s1 in
  match ds with
  | [] => (0, true, rest)
  | _ =>
      let r := digits_value ds in
      if signed then
        if neg then (if r <=? - lo then (- r, false, rest) else (lo, true, rest))
        else (if r <=? hi then (r, false, rest) else (hi, true, rest))
      else
        if r <=? hi then ((if neg then (- r) mod (hi + 1) else r), false, rest)
        else (hi, true, rest)
  end.

Definition num_get_int : list ascii -> Z * bool * list ascii :=
  num_get_integer true INT_MIN INT_MAX.
Definition num_get_size_t : list ascii -> Z * bool * list ascii :=
  num_get_integer false 0 SIZE_MAX.

(** [num_get] for a double in the classic locale: sign, digits, an optional
    point and digits, an optional exponent; the characters collected must
    form a complete literal for [strtod], else value 0 and failure.  A
    literal beyond the range of double gives the largest double and failure. *)
Definition num_get_double (s : list ascii) : double * bool * list ascii :=
  let '(neg, s1) :=
    match s with
    | c :: r => if is_char "-" c then (true, r)
                else if is_char "+" c then (false, r) else (false, s)
    | [] => (false, [])
    end in
  let '(ip, s2) := span isdigit s1 in
  let '(fp, s3) :=
    match s2 with
    | c :: r => if is_char "." c then span isdigit r else ([], s2)
    | [] => ([], [])
    end in
  let no_digit := at_end (ip ++ fp) in
  let '(sci, eneg, ep, s4) :=
    match s3 with
    | c :: r =>
        if negb no_digit && (is_char "e" c || is_char "E" c) then
          let '(en, r1) :=
            match r with
            | c1 :: r' => if is_char "-" c1 then (true, r')
                          else if is_char "+" c1 then (false, r') else (false, r)
            | [] => (false, [])
            end in
          let '(ds, r2) := span isdigit r1 in (true, en, ds, r2)
        else (false, false, [], s3)
    | [] => (false, false, [], [])
    end in
  if no_digit || (sci && at_end ep) then (d0, true, s4)
  else
    let e := if eneg then - digits_value ep else digits_value ep in
    match double_of_decimal neg (digits_value (ip ++ fp)) (e - Z.of_nat (length fp)) with
    | S754_infinity sg => (DBL_MAX sg, true, s4)
    | v => (v, false, s4)
    end.

(** [is >> v] for an arithmetic [v]: when the sentry refuses, [v] is left
    as it was; otherwise [num_get] stores its result, [eofbit] is set when
    the buffer was read to its end and [failbit] when the conversion failed. *)
Definition extract {A : Type} (get : list ascii -> A * bool * list ascii)
  (s : istream) (v : A) : istream * A :=
  let '(ok, s1) := sentry s in
  if ok then
    let '(v', failed, rest) := get (rdbuf s1) in
    (mk_istream rest (at_end rest) failed, v')
  else (s1, v).

(** [is >> c] for a [char]. *)
Definition extract_char (s : istream) (c : ascii) : istream * ascii :=
  let '(ok, s1) := sentry s in
  if ok then
    match rdbuf s1 with
    | c' :: rest => (mk_istream rest false false, c')
    | [] => (mk_istream [] true true, c)
    end
  else (s1, c).

(** [std::getline(is, str)]: characters up to the next newline, which is
    consumed and not stored.  Running into the end of the buffer sets
    [eofbit]; extracting nothing at all sets [failbit]. *)
Fixpoint getline_scan (buf : list ascii) : list ascii * option (list ascii) :=
  match buf with
  | [] => ([], None)
  | c :: rest =>
      if is_char "010" c then ([], Some rest)
      else let '(l, r) := getline_scan rest in (c :: l, r)
  end.

Definition getline (s : istream) (str : list ascii) : istream * list ascii :=
  if good s then
    match getline_scan (rdbuf s) with
    | (line, Some rest) => (mk_istream rest false false, line)
    | (line, None) => (mk_istream [] true (at_end line), line)
    end
  else (set_failbit s, str).

(** ** Exceptions

    Every [throw] of the source is a [std::runtime_error]; the constructors
    tell the messages apart: [IOError] "cannot open file", [ShapeError]
    "file contains %d entries per sample, but you gave me an array with only
    %d positions", [FormatError] "cannot open model file" when unpickling,
    [InvalidModelError] for an unreadable model file or a null model,
    [DimensionError] the mismatches on input, subtraction, division, scores
    and probabilities, [ContiguityError] "should be C-style contiguous",
    [UnsupportedError] "this SVM does not support probabilities",
    [IndexError] "request for label of class %d". *)

Inductive exception :=
  | IOError | FormatError | DimensionError | ShapeError
  | ContiguityError | IndexError | UnsupportedError | InvalidModelError.

(** The result of a call: a value, an exception, or undefined behaviour
    (a read outside an array, a write outside the cache). *)
Inductive Result (A : Type) :=
  | Ok (a : A)
  | Throw (e : exception)
  | Undefined.
Arguments Ok {A} a.
Arguments Throw {A} e.
Arguments Undefined {A}.

#[global] Instance Result_ret : MRet Result := fun A a => Ok a.
#[global] Instance Result_bind : MBind Result := fun A B k r =>
  match r with
  | Ok a => k a
  | Throw e => Throw e
  | Undefined => Undefined
  end.

(** ** Arrays

    A [blitz::Array<double,1>] is the list of its elements; its extent is
    the length of the list.  Element access makes no range check: a write
    outside [0, extent) leaves the array as it is and is recorded as a stray
    write (what it does to foreign memory is outside the model).  A call
    whose log of stray writes is not empty has undefined behaviour in the
    source: what the model returns for it is meaningful together with the
    log only. *)

Definition extent (a : list double) : Z := Z.of_nat (length a).

Definition in_range (a : list double) (i : Z) : bool :=
  (0 <=? i) && (i <? extent a).

Definition blitz_write (a : list double) (i : Z) (v : double)
  (stray : list (Z * double)) : list double * list (Z * double) :=
  if in_range a i then (<[Z.to_nat i := v]> a, stray)
  else (a, stray ++ [(i, v)]).

(** [a = v]: every element is set to [v]. *)
Definition blitz_fill (a : list double) (v : double) : list double :=
  repeat v (length a).

(** The files on disk, by name. *)
Abbreviation filesystem := (gmap string (list ascii)).

(** The indeterminate initial contents of the locals [pos] and [value],
    which the source declares without an initialiser. *)
Record indeterminate := mk_indeterminate {
  u_pos : Z;
  u_value : double
}.

(** ** SVMFile *)

Module SVMFile.

Record t := mk {
  m_filename : string;
  m_file : istream;
  m_shape : Z;
  m_n_samples : Z
}.

(** [std::ifstream m_file(name)], also [m_file.open(name)], which clears
    the state bits when it succeeds and sets [failbit] when it does not. *)
Definition open (fs : filesystem) (name : string) : istream :=
  match fs !! name with
  | Some content => mk_istream content false false
  | None => mk_istream [] false true
  end.

(** The loop that gets the next non-empty line:
    [while (!line.size()) { if (!m_file.good()) break; getline; trim }].
    It is left with an empty [line] only when the stream is not good. *)
Fixpoint next_line (fuel : nat) (f : istream) (line : list ascii)
  : istream * list ascii :=
  match line with
  | _ :: _ => (f, line)
  | [] =>
      if good f then
        match fuel with
        | O => (f, line)
        | S fuel' =>
            let '(f', l) := getline f line in next_line fuel' f' (trim l)
        end
      else (f, line)
  end.

Definition get_line (f : istream) : istream * list ascii :=
  next_line (S (length (rdbuf f))) f [].

(** [for (k < n_values) { iss >> pos >> separator >> value;
                          if (m_shape < pos) m_shape = pos; }] *)
Fixpoint scan_pairs (n_values : nat) (iss : istream) (pos : Z) (value : double)
  (shape : Z) : Z :=
  match n_values with
  | O => shape
  | S k =>
      let '(iss1, pos1) := extract num_get_size_t iss pos in
      let '(iss2, _) := extract_char iss1 " "%char in
      let '(iss3, value1) := extract num_get_double iss2 value in
      scan_pairs k iss3 pos1 value1 (if shape <? pos1 then pos1 else shape)
  end.

(** The scan of the whole file in the constructor. *)
Fixpoint scan (fuel : nat) (u : indeterminate) (f : istream) (shape n : Z)
  : istream * Z * Z :=
  match fuel with
  | O => (f, shape, n)
  | S fuel' =>
      if good f then
        let '(f1, line) := get_line f in
        if good f1 then
          let n_values := count_if is_colon line in
          let '(iss, _) := extract num_get_int (istringstream line) 0 in
          let shape' :=
            scan_pairs n_values iss (to_size_t (u_pos u)) (u_value u) shape in
          scan fuel' u f1 shape' (to_size_t (n + 1))
        else (f1, shape, n)
      else (f, shape, n)
  end.

(** [SVMFile::SVMFile(filename)] *)
Definition SVMFile (fs : filesystem) (u : indeterminate) (filename : string)
  : Result t :=
  let f := open fs filename in
  if fail f then Throw IOError
  else
    let '(_, shape, n) := scan (S (length (rdbuf f))) u f 0 0 in
    (* m_file.clear(); m_file.seekg(0, std::ios_base::beg); *)
    Ok (mk filename (mk_istream (rdbuf f) false false) shape n).

(** [SVMFile::reset()]: [m_file.close(); m_file.open(m_filename)]. *)
Definition reset (fs : filesystem) (self : t) : t :=
  mk (m_filename self) (open fs (m_filename self)) (m_shape self)
     (m_n_samples self).

(** What a call of [read_] leaves behind: the value returned, the caller's
    [label] and [values], and the writes that fell outside [values]. *)
Record outcome := mk_outcome {
  ret : bool;
  label : Z;
  values : list double;
  stray : list (Z * double)
}.

(** [for (k < m_shape) { iss >> pos >> separator >> value;
                         values(pos-1) = value; }] *)
Fixpoint read_pairs (k : nat) (iss : istream) (pos : Z) (value : double)
  (vals : list double) (log : list (Z * double))
  : list double * list (Z * double) :=
  match k with
  | O => (vals, log)
  | S k' =>
      let '(iss1, pos1) := extract num_get_int iss pos in
      let '(iss2, _) := extract_char iss1 " "%char in
      let '(iss3, value1) := extract num_get_double iss2 value in
      let '(vals1, log1) := blitz_write vals (pos1 - 1) value1 log in
      read_pairs k' iss3 pos1 value1 vals1 log1
  end.

(** [SVMFile::read_(label, values)] *)
Definition read_ (u : indeterminate) (self : t) (lbl : Z) (vals : list double)
  : outcome * t :=
  if negb (good (m_file self)) then (mk_outcome false lbl vals [], self)
  else
    let '(f1, line) := get_line (m_file self) in
    let self1 := mk (m_filename self) f1 (m_shape self) (m_n_samples self) in
    match line with
    | [] => (mk_outcome false lbl vals [], self1)
    | _ =>
        let '(iss, lbl1) := extract num_get_int (istringstream line) lbl in
        let '(vals1, log) :=
          read_pairs (Z.to_nat (m_shape self)) iss (to_int (u_pos u))
            (u_value u) (blitz_fill vals d0) [] in
        (mk_outcome true lbl1 vals1 log, self1)
    end.

(** [SVMFile::read(label, values)] *)
Definition read (u : indeterminate) (self : t) (lbl : Z) (vals : list double)
  : Result (outcome * t) :=
  if negb (to_size_t (extent vals) =? m_shape self) then Throw ShapeError
  else Ok (read_ u self lbl vals).

End SVMFile.


(** ** The solver

    libsvm's model and the functions of libsvm the machine calls.  The
    model is data; the functions are taken as an interface. *)

Record svm_node := mk_node {
  index : Z;
  value : double
}.

Record svm_parameter := mk_parameter {
  svm_type : Z;
  kernel_type : Z;
  degree : Z;
  gamma : double;
  coef0 : double
}.

(** [SV] holds, for each support vector, the nodes found at its address:
    libsvm ends every vector with a node of index -1. *)
Record svm_model := mk_model {
  param : svm_parameter;
  nr_class : Z;
  l : Z;
  SV : list (list svm_node);
  label : list Z
}.

Record libsvm := mk_libsvm {
  LIBSVM_VERSION : Z;
  (** the model read from the text of a model file, if it is one *)
  svm_load_model : list ascii -> option svm_model;
  (** the text [svm_save_model] writes, if it succeeds *)
  svm_save_model : svm_model -> option (list ascii);
  svm_check_probability_model : svm_model -> bool;
  svm_predict : svm_model -> list svm_node -> double;
  (** the value returned (since libsvm 2.91) and the decision values stored *)
  svm_predict_values :
    svm_model -> list svm_node -> list double -> double * list double;
  svm_predict_probability :
    svm_model -> list svm_node -> list double -> double * list double
}.

Definition svm_get_nr_class (m : svm_model) : Z := nr_class m.
Definition svm_get_svm_type (m : svm_model) : Z := svm_type (param m).

(** [round] followed by the conversion to [int]: the nearest integer,
    halves away from zero.  The source defines the conversion for the
    doubles that are [representable] (see below) only: for a NaN, an
    infinity or a value beyond the range of [int] the result here (0, or
    an integer that is no [int]) stands for one the source leaves
    undefined. *)
Definition round (x : double) : Z :=
  match x with
  | S754_finite s m e =>
      let a := if 0 <=? e then Zpos m * 2 ^ e
               else (Zpos m + 2 ^ (- e - 1)) / 2 ^ (- e) in
      if s then - a else a
  | _ => 0
  end.

(** The doubles whose rounded value the conversion to [int] is defined
    for: finite, and within the range of [int] once rounded. *)
Definition representable (x : double) : Prop :=
  is_finite x = true /\ INT_MIN <= round x <= INT_MAX.

(** An output array handed over by the caller: its elements and whether
    [bob::core::array::isCContiguous] holds of it. *)
Record Array := mk_Array {
  elems : list double;
  isCContiguous : bool
}.

(** ** The container

    What the machine uses of [bob::io::HDF5File]: named attributes and named
    arrays.  Reading into an array asks for a stored array of that type and
    of the shape the destination already has. *)

Inductive dataset :=
  | Bytes (b : list ascii)
  | Doubles (d : list double).

Record HDF5File := mk_HDF5File {
  attributes : gmap string Z;
  datasets : gmap string dataset
}.

Definition getAttribute (config : HDF5File) (name : string) : Result Z :=
  match attributes config !! name with
  | Some v => Ok v
  | None => Throw IOError
  end.

Definition setAttribute (config : HDF5File) (name : string) (v : Z) : HDF5File :=
  mk_HDF5File (<[name := v]> (attributes config)) (datasets config).

(** [config.readArray<uint8_t,1>(name)] *)
Definition readArray_uint8 (config : HDF5File) (name : string)
  : Result (list ascii) :=
  match datasets config !! name with
  | Some (Bytes b) => Ok b
  | _ => Throw IOError
  end.

(** [config.readArray(name, dest)] *)
Definition readArray (config : HDF5File) (name : string) (dest : list double)
  : Result (list double) :=
  match datasets config !! name with
  | Some (Doubles d) => if extent d =? extent dest then Ok d else Throw IOError
  | _ => Throw IOError
  end.

Definition setArray (config : HDF5File) (name : string) (d : dataset) : HDF5File :=
  mk_HDF5File (attributes config) (<[name := d]> (datasets config)).

(** ** SupportVector *)

Module SupportVector.
Section Machine.

Variable L : libsvm.

Record t := mk {
  m_model : svm_model;
  m_input_size : Z;
  m_input_cache : list svm_node;
  m_input_sub : list double;
  m_input_div : list double
}.

(** [svm_pickle(model)] *)
Definition svm_pickle (model : svm_model) : Result (list ascii) :=
  match svm_save_model L model with
  | Some text => Ok text
  | None => Throw IOError
  end.

(** [make_model(filename)], on the text of the file *)
Definition make_model (text : option (list ascii)) : option svm_model :=
  match text with
  | Some c => svm_load_model L c
  | None => None
  end.

(** [svm_unpickle(buffer)]: the buffer goes through a temporary file. *)
Definition svm_unpickle (buffer : list ascii) : Result svm_model :=
  match make_model (Some buffer) with
  | Some m => Ok m
  | None => Throw FormatError
  end.

(** [while (end->index != -1) { if (end->index > (int)m_input_size)
     m_input_size = end->index; ++end; }] *)
Fixpoint scan_nodes (nodes : list svm_node) (input_size : Z) : Result Z :=
  match nodes with
  | [] => Undefined
  | n :: rest =>
      if index n =? -1 then Ok input_size
      else scan_nodes rest
             (if index n >? to_int input_size then to_size_t (index n)
              else input_size)
  end.

(** [for (int k=0; k<m_model->l; ++k)] over the support vectors *)
Fixpoint scan_SV (todo : nat) (k : nat) (sv : list (list svm_node))
  (input_size : Z) : Result Z :=
  match todo with
  | O => Ok input_size
  | S todo' =>
      match sv !! k with
      | Some nodes =>
          s ← scan_nodes nodes input_size; scan_SV todo' (S k) sv s
      | None => Undefined
      end
  end.

(** The node a freshly allocated cache holds; no value is ever read from a
    slot before it is written. *)
Definition fresh_node : svm_node := mk_node 0 d0.

(** [SupportVector::reset()], given the model and the arrays so far *)
Definition reset (self : t) : Result t :=
  n ← scan_SV (Z.to_nat (l (m_model self))) 0 (SV (m_model self)) 0;
  Ok (mk (m_model self) n
         (repeat fresh_node (Z.to_nat (1 + n)))
         (repeat d0 (Z.to_nat n))
         (repeat d1 (Z.to_nat n))).

Definition blank (m : svm_model) : t := mk m 0 [] [] [].

(** [SupportVector::SupportVector(const std::string& model_file)] *)
Definition SupportVector_file (fs : filesystem) (model_file : string) : Result t :=
  match make_model (fs !! model_file) with
  | Some m => reset (blank m)
  | None => Throw InvalidModelError
  end.

(** [SupportVector::SupportVector(boost::shared_ptr<svm_model> model)] *)
Definition SupportVector_model (model : option svm_model) : Result t :=
  match model with
  | Some m => reset (blank m)
  | None => Throw InvalidModelError
  end.

(** [SupportVector::SupportVector(bob::io::HDF5File& config)]; the boolean
    tells whether the warning about the version was issued. *)
Definition SupportVector_hdf5 (config : HDF5File) : Result (t * bool) :=
  version ← getAttribute config "version";
  let warned := LIBSVM_VERSION L / 100 >? version / 100 in
  buffer ← readArray_uint8 config "svm_model";
  m ← svm_unpickle buffer;
  self ← reset (blank m);
  sub ← readArray config "input_subtract" (m_input_sub self);
  div ← readArray config "input_divide" (m_input_div self);
  Ok (mk (m_model self) (m_input_size self) (m_input_cache self) sub div, warned).


Definition inputSize (self : t) : Z := m_input_size self.

Definition outputSize (self : t) : Z :=
  let retval := to_size_t (svm_get_nr_class (m_model self)) in
  if retval =? 2 then 1 else retval.

Definition numberOfClasses (self : t) : Z :=
  to_size_t (svm_get_nr_class (m_model self)).

Definition classLabel (self : t) (i : Z) : Result Z :=
  if i >=? to_size_t (svm_get_nr_class (m_model self)) then Throw IndexError
  else match label (m_model self) !! Z.to_nat i with
       | Some c => Ok c
       | None => Undefined
       end.

Definition setInputSubtraction (self : t) (v : list double) : Result t :=
  if inputSize self >? to_size_t (extent v) then Throw DimensionError
  else Ok (mk (m_model self) (m_input_size self) (m_input_cache self) v
              (m_input_div self)).

Definition setInputDivision (self : t) (v : list double) : Result t :=
  if inputSize self >? to_size_t (extent v) then Throw DimensionError
  else Ok (mk (m_model self) (m_input_size self) (m_input_cache self)
              (m_input_sub self) v).

(** The loop of [copy]: [todo] positions are left, [k] is the next one. *)
Fixpoint copy_loop (todo : nat) (k : nat) (input sub div : list double)
  (cache : list svm_node) (cur : nat) : Result (list svm_node * nat) :=
  match todo with
  | O => Ok (cache, cur)
  | S todo' =>
      match input !! k, sub !! k, div !! k with
      | Some x, Some s, Some d =>
          let tmp := ddiv (dsub x s) d in
          if is_zero tmp then copy_loop todo' (S k) input sub div cache cur
          else
            match cache !! cur with
            | Some _ =>
                copy_loop todo' (S k) input sub div
                  (<[cur := mk_node (to_int (Z.of_nat k + 1)) tmp]> cache)
                  (S cur)
            | None => Undefined
            end
      | _, _, _ => Undefined
      end
  end.

(** [copy(input, cache_size, cache, sub, div)] *)
Definition copy (input : list double) (cache_size : Z) (cache : list svm_node)
  (sub div : list double) : Result (list svm_node) :=
  '(cache1, cur) ← copy_loop (Z.to_nat cache_size) 0 input sub div cache 0;
  match cache1 !! cur with
  | Some n => Ok (<[cur := mk_node (-1) (value n)]> cache1)
  | None => Undefined
  end.

Definition with_cache (self : t) (cache : list svm_node) : t :=
  mk (m_model self) (m_input_size self) cache (m_input_sub self)
     (m_input_div self).

Definition encode (self : t) (input : list double) : Result (list svm_node) :=
  copy input (m_input_size self) (m_input_cache self) (m_input_sub self)
       (m_input_div self).

Definition predictClass_ (self : t) (input : list double) : Result (Z * t) :=
  cache ← encode self input;
  Ok (round (svm_predict L (m_model self) cache), with_cache self cache).

Definition predictClass (self : t) (input : list double) : Result (Z * t) :=
  if to_size_t (extent input) <? inputSize self then Throw DimensionError
  else predictClass_ self input.

Definition predictClassAndScores_ (self : t) (input : list double)
  (scores : Array) : Result (Z * Array * t) :=
  cache ← encode self input;
  let '(r, out) := svm_predict_values L (m_model self) cache (elems scores) in
  let retval :=
    if LIBSVM_VERSION L >? 290 then round r
    else round (svm_predict L (m_model self) cache) in
  Ok (retval, mk_Array out (isCContiguous scores), with_cache self cache).

(** [size_t size = N < 2 ? 1 : (N*(N-1))/2] *)
Definition scores_size (N : Z) : Z :=
  if N <? 2 then 1 else to_size_t (N * (N - 1)) / 2.

Definition predictClassAndScores (self : t) (input : list double)
  (scores : Array) : Result (Z * Array * t) :=
  if to_size_t (extent input) <? inputSize self then Throw DimensionError
  else if negb (isCContiguous scores) then Throw ContiguityError
  else
    let N := outputSize self in
    let size := scores_size N in
    if negb (to_size_t (extent (elems scores)) =? size) then Throw DimensionError
    else predictClassAndScores_ self input scores.

Definition predictClassAndProbabilities_ (self : t) (input : list double)
  (probabilities : Array) : Result (Z * Array * t) :=
  cache ← encode self input;
  let '(r, out) :=
    svm_predict_probability L (m_model self) cache (elems probabilities) in
  Ok (round r, mk_Array out (isCContiguous probabilities), with_cache self cache).


(** [SupportVector::save(const std::string& filename)]: the disk after the
    call. *)
Definition save_file (self : t) (fs : filesystem) (filename : string)
  : Result filesystem :=
  match svm_save_model L (m_model self) with
  | Some text => Ok (<[filename := text]> fs)
  | None => Throw IOError
  end.

(** [SupportVector::save(bob::io::HDF5File& config)] *)
Definition save (self : t) (config : HDF5File) : Result HDF5File :=
  text ← svm_pickle (m_model self);
  let c1 := setArray config "svm_model" (Bytes text) in
  let c2 := setArray c1 "input_subtract" (Doubles (m_input_sub self)) in
  let c3 := setArray c2 "input_divide" (Doubles (m_input_div self)) in
  Ok (setAttribute c3 "version" (LIBSVM_VERSION L)).

End Machine.
End SupportVector.

(** * What the claims speak of *)

(** ** The machine *)

(** The nodes of a support vector, up to its end marker. *)
Fixpoint features (nodes : list svm_node) : list svm_node :=
  match nodes with
  | [] => []
  | n :: rest => if index n =? -1 then [] else n :: features rest
  end.

Definition terminated (nodes : list svm_node) : Prop :=
  exists n, n ∈ nodes /\ index n = -1.

(** The largest feature index over all the support vectors (0 if none). *)
Definition max_feature_index (m : svm_model) : Z :=
  foldr Z.max 0 (index <$> concat (features <$> SV m)).

(** A model as libsvm builds it: [l] support vectors, each with its end
    marker, every index an [int]. *)
Definition well_formed (m : svm_model) : Prop :=
  l m = Z.of_nat (length (SV m)) /\
  Forall terminated (SV m) /\
  Forall (Forall (fun n => is_int (index n))) (SV m).

(** An array as blitz has them: its extent is an [int]. *)
Definition is_array (a : list double) : Prop := extent a <= INT_MAX.

(** The state of a machine between calls: the cache has one slot more than
    the input size, the normalization vectors have at least that size. *)
Definition consistent (self : SupportVector.t) : Prop :=
  0 <= SupportVector.m_input_size self <= INT_MAX /\
  length (SupportVector.m_input_cache self)
    = Z.to_nat (1 + SupportVector.m_input_size self) /\
  SupportVector.m_input_size self <= extent (SupportVector.m_input_sub self) /\
  SupportVector.m_input_size self <= extent (SupportVector.m_input_div self).

(** The normalized value of feature [k]. *)
Definition normalized (input sub div : list double) (k : nat) : option double :=
  x ← input !! k; s ← sub !! k; d ← div !! k; Some (ddiv (dsub x s) d).

(** The pair of position [k]: none when the normalized value is zero,
    else the pair of index [k+1]. *)
Definition emit (input sub div : list double) (k : nat) : list svm_node :=
  match normalized input sub div k with
  | Some v => if is_zero v then [] else [mk_node (Z.of_nat k + 1) v]
  | None => []
  end.

(** The sparse encoding of the first [n] features, in the words of the
    specification: the pairs of the positions 0, 1, ..., n-1 in turn. *)
Definition sparse_encoding (n : nat) (input sub div : list double)
  : list svm_node :=
  flat_map (emit input sub div) (seq 0 n).

(** The length the scores must have, in the words of the specification. *)
Definition required_scores (C : Z) : Z := if C <? 2 then 1 else C * (C - 1) / 2.

(** ** The record file *)

(** Nothing but white space is left to read, or the stream is not good. *)
Definition end_of_stream (f : istream) : bool :=
  negb (good f) || forallb isspace (rdbuf f).

(** The records a pass over the file returns: [read] is called, with the
    indeterminate locals [u i] at the call number [i], until it returns
    false. *)
Fixpoint read_all (fuel : nat) (u : nat -> indeterminate) (i : nat)
  (self : SVMFile.t) (lbl : Z) (vals : list double) : list (Z * list double) :=
  match fuel with
  | O => []
  | S fuel' =>
      match SVMFile.read (u i) self lbl vals with
      | Ok (o, self') =>
          if SVMFile.ret o then
            (SVMFile.label o, SVMFile.values o)
              :: read_all fuel' u (S i) self' (SVMFile.label o) (SVMFile.values o)
          else []
      | _ => []
      end
  end.

(** The state after [k] calls of [read]. *)
Fixpoint after_reads (k : nat) (u : nat -> indeterminate) (self : SVMFile.t)
  (lbl : Z) (vals : list double) : SVMFile.t :=
  match k with
  | O => self
  | S k' =>
      match SVMFile.read (u O) self lbl vals with
      | Ok (o, self') =>
          after_reads k' (fun i => u (S i)) self' (SVMFile.label o)
            (SVMFile.values o)
      | _ => self
      end
  end.

(** The pairs on a line, as the constructor counts them. *)
Definition pairs_on (line : list ascii) : nat := count_if is_colon line.

(** The writes of [k] rounds over the pairs [ps]: the first [k] pairs, and
    once they have run out the last of them again and again; when there
    is no pair at all, what the locals held. *)
Definition written (k : nat) (ps : list (Z * double)) (u : Z * double)
  : list (Z * double) :=
  take k ps ++ repeat (List.last ps u) (k - length ps).

(** [values(pos-1) = value] for each of the writes in turn. *)
Definition apply_writes (ws : list (Z * double)) (vals : list double)
  (log : list (Z * double)) : list double * list (Z * double) :=
  foldl (fun acc w => blitz_write acc.1 (w.1 - 1) w.2 acc.2) (vals, log) ws.

(** ** Well-formed text

    The text of a record: a label, then pairs [index:value], each after one
    space.  Labels and indices are decimal integers, values are decimal
    numbers with an optional fraction. *)

Definition digits (ds : list ascii) : bool :=
  negb (at_end ds) && forallb isdigit ds.

Definition sign_text (neg : bool) : list ascii :=
  if neg then ["-"%char] else [].

Record numeral := mk_numeral {
  minus : bool;
  int_part : list ascii;
  frac_part : list ascii
}.

Definition frac_text (fp : list ascii) : list ascii :=
  match fp with
  | [] => []
  | _ => "."%char :: fp
  end.

Definition numeral_text (x : numeral) : list ascii :=
  sign_text (minus x) ++ int_part x ++ frac_text (frac_part x).

Definition numeral_value (x : numeral) : double :=
  double_of_decimal (minus x) (digits_value (int_part x ++ frac_part x))
    (0 - Z.of_nat (length (frac_part x))).

(** Digits before the point, digits or nothing after it, and a value
    within the range of double. *)
Definition numeral_ok (x : numeral) : bool :=
  digits (int_part x) && forallb isdigit (frac_part x)
  && is_finite (numeral_value x).

Record sample := mk_sample {
  s_minus : bool;
  s_label : list ascii;
  s_pairs : list (list ascii * numeral)
}.

Definition pair_text (p : list ascii * numeral) : list ascii :=
  " "%char :: p.1 ++ ":"%char :: numeral_text p.2.

Definition pairs_text (ps : list (list ascii * numeral)) : list ascii :=
  flat_map pair_text ps.

Definition sample_text (s : sample) : list ascii :=
  sign_text (s_minus s) ++ s_label s ++ pairs_text (s_pairs s).

Definition label_value (s : sample) : Z :=
  if s_minus s then - digits_value (s_label s) else digits_value (s_label s).

Definition pair_ok (p : list ascii * numeral) : bool :=
  digits p.1 && (digits_value p.1 <=? INT_MAX) && numeral_ok p.2.

Definition sample_ok (s : sample) : bool :=
  digits (s_label s) && (INT_MIN <=? label_value s) && (label_value s <=? INT_MAX)
  && forallb pair_ok (s_pairs s).

(** The index and the value a pair stands for. *)
Definition pair_value (p : list ascii * numeral) : Z * double :=
  (digits_value p.1, numeral_value p.2).

(** The indices of a record. *)
Definition indices (s : sample) : list Z :=
  (fun p => digits_value p.1) <$> s_pairs s.

(** The vector of a record with at least one pair, for a shape [k]: zeros,
    then the writes of [written] (the locals are of no account). *)
Definition dense (k : nat) (s : sample) : list double :=
  (apply_writes (written k (pair_value <$> s_pairs s) (0, d0))
     (repeat d0 k) []).1.

(** A line of a file: white space only, or a record. *)
Inductive line :=
  | Blank (ws : list ascii)
  | Sample (s : sample).

Definition blank (c : ascii) : bool := isspace c && negb (is_char "010" c).

Definition line_ok (ln : line) : bool :=
  match ln with
  | Blank ws => forallb blank ws
  | Sample s => sample_ok s
  end.

Definition line_text (ln : line) : list ascii :=
  match ln with
  | Blank ws => ws
  | Sample s => sample_text s
  end.

(** A file in which every line ends with a newline. *)
Definition file_text (lines : list line) : list ascii :=
  flat_map (fun ln => line_text ln ++ ["010"%char]) lines.

Definition samples (lines : list line) : list sample :=
  flat_map (fun ln => match ln with Sample s => [s] | Blank _ => [] end) lines.

(** The first record among the lines, and the lines after it. *)
Fixpoint first_sample (lines : list line) : option (sample * list line) :=
  match lines with
  | [] => None
  | Blank _ :: rest => first_sample rest
  | Sample s :: rest => Some (s, rest)
  end.

(** The largest index in the file (0 if there is no pair). *)
Definition max_index (lines : list line) : Z :=
  foldr Z.max 0 (flat_map indices (samples lines)).

(** The stream of a record line once the pairs before [ps] are read. *)
Definition iss_at (ps : list (list ascii * numeral)) : istream :=
  mk_istream (pairs_text ps) (at_end (pairs_text ps)) false.

(** [s] does not go on with a character of the class [p]. *)
Definition stops (p : ascii -> bool) (s : list ascii) : Prop :=
  match s with
  | c :: _ => p c = false
  | [] => True
  end.

(** What may follow a number in a record: the end of the line or a space. *)
Definition delimited (rest : list ascii) : Prop :=
  match rest with
  | c :: _ => c = " "%char
  | [] => True
  end.

(** What may follow a record in a text: the end of the text, or a newline
    and anything after it. *)
Definition line_end (tail : list ascii) : Prop :=
  match tail with
  | c :: _ => c = "010"%char
  | [] => True
  end.

(** The stream once the line before [tail] has been taken by [getline]. *)
Definition after_line (tail : list ascii) : istream :=
  match tail with
  | _ :: rest => mk_istream rest false false
  | [] => mk_istream [] true false
  end.

Definition no_newline (s : list ascii) : bool :=
  forallb (fun c => negb (is_char "010" c)) s.

(** A text ends with a character that is not white space. *)
Definition ends_nonspace (s : list ascii) : Prop :=
  exists s' c, s = s' ++ [c] /\ isspace c = false.

(** ** Data of the examples *)

Definition chars (s : string) : list ascii := list_ascii_of_string s.
Definition newline : string := String "010" EmptyString.

Definition d2 : double := double_of_Z 2.
Definition d5 : double := double_of_Z 5.
Definition half : double := ddiv d1 d2.

(** A model of three classes with two support vectors, [1:0.5 3:2] and
    [2:1]. *)
Definition model_a : svm_model :=
  mk_model (mk_parameter 0 2 3 half d0) 3 2
    [ [mk_node 1 half; mk_node 3 d2; mk_node (-1) d0];
      [mk_node 2 d1; mk_node (-1) d0] ]
    [1; 2; 3].

(** A solver that reads every text as [model_a] and predicts 1. *)
Definition solver_a : libsvm :=
  mk_libsvm 317 (fun _ => Some model_a) (fun _ => Some (chars "svm"))
    (fun _ => false) (fun _ _ => d1) (fun _ _ out => (d1, out))
    (fun _ _ out => (d1, out)).

(** [model_a] once adopted. *)
Definition machine_a : SupportVector.t :=
  SupportVector.mk model_a 3 (repeat SupportVector.fresh_node 4)
    [d0; d0; d0] [d1; d1; d1].

Definition container_a : HDF5File :=
  mk_HDF5File {[ "version"%string := 317 ]}
    (<[ "svm_model"%string := Bytes (chars "svm") ]>
     (<[ "input_subtract"%string := Doubles [d1; d0; d2] ]>
      {[ "input_divide"%string := Doubles [d2; d2; half] ]})).

(** The file of the two lines [1 1:0.5 3:2.0] and [-1 2:1.0]. *)
Definition two_lines : list ascii :=
  chars ("1 1:0.5 3:2.0" ++ newline ++ "-1 2:1.0" ++ newline)%string.

(** The two lines of [two_lines], the last one without its newline. *)
Definition two_lines_open : list ascii :=
  chars ("1 1:0.5 3:2.0" ++ newline ++ "-1 2:1.0")%string.

(** Two records, the last line without its newline. *)
Definition unterminated : list ascii :=
  chars ("1 1:0.5" ++ newline ++ "-1 2:1.0")%string.

(** A record with a label and no pair, then a record with one pair. *)
Definition label_only : list ascii :=
  chars ("1" ++ newline ++ "2 1:5" ++ newline)%string.

(** A disk with one file, ["data.svm"]. *)
Definition disk (content : list ascii) : filesystem :=
  {[ "data.svm"%string := content ]}.

(** Some contents for the locals, and the same contents at every call. *)
Definition u_a : indeterminate := mk_indeterminate 77 S754_nan.
Definition garbage (u : indeterminate) : nat -> indeterminate := fun _ => u.

(** The reader right after opening the file of [two_lines]. *)
Definition file_a : SVMFile.t :=
  SVMFile.mk "data.svm" (istringstream two_lines) 3 2.

(** The record [1 1:0.5 3:2.0], and a record with the label 1 and no pair. *)
Definition sample_a : sample :=
  mk_sample false (chars "1")
    [ (chars "1", mk_numeral false (chars "0") (chars "5"));
      (chars "3", mk_numeral false (chars "2") (chars "0")) ].
Definition sample_b : sample := mk_sample false (chars "1") [].

(** A reader that stands before the given lines. *)
Definition before (lines : list line) (shape n : Z) : SVMFile.t :=
  SVMFile.mk "data.svm" (istringstream (file_text lines)) shape n.

(** ** Further notions *)

(** A double by which one can divide zero and get zero: neither a zero nor
    a NaN. *)
Definition divides (d : double) : bool :=
  match d with
  | S754_zero _ | S754_nan => false
  | _ => true
  end.

(** The machine [self] with other normalization vectors. *)
Definition with_vectors (self : SupportVector.t) (sub div : list double)
  : SupportVector.t :=
  SupportVector.mk (SupportVector.m_model self) (SupportVector.m_input_size self)
    (SupportVector.m_input_cache self) sub div.

(** The machine right after the recompute step on the model [m]. *)
Definition recomputed (m : svm_model) : SupportVector.t :=
  SupportVector.mk m (max_feature_index m)
    (repeat SupportVector.fresh_node (Z.to_nat (1 + max_feature_index m)))
    (repeat d0 (Z.to_nat (max_feature_index m)))
    (repeat d1 (Z.to_nat (max_feature_index m))).

(** A solver whose [svm_load_model] reads back what [svm_save_model]
    wrote for the model [m]. *)
Definition reloads (L : libsvm) (m : svm_model) : Prop :=
  exists text, svm_save_model L m = Some text /\ svm_load_model L text = Some m.

(** A solver that writes every model as the text ["svm"] and reads every
    text as [model_a]. *)
Definition text_a : list ascii := chars "svm".

(** The lines of a text: those that end with a newline, without it, and
    what follows the last newline. *)
Fixpoint split_lines (buf : list ascii) : list (list ascii) * list ascii :=
  match buf with
  | [] => ([], [])
  | c :: r =>
      let '(ls, tail) := split_lines r in
      if is_char "010" c then ([] :: ls, tail)
      else match ls with
           | [] => ([], c :: tail)
           | l :: ls' => ((c :: l) :: ls', tail)
           end
  end.

(** A line with a character that is not white space. *)
Definition nonblank (l : list ascii) : bool := negb (forallb isspace l).

(** The lines that end with a newline and are not blank. *)
Definition closed_records (buf : list ascii) : list (list ascii) :=
  List.filter nonblank (split_lines buf).1.

(** The last line, when it has no newline and is not blank. *)
Definition open_record (buf : list ascii) : list (list ascii) :=
  List.filter nonblank [(split_lines buf).2].


(** The writes outside the vector that a pass makes, call after call
    (the pass of [read_all]). *)
Fixpoint pass_stray (fuel : nat) (u : nat -> indeterminate) (i : nat)
  (self : SVMFile.t) (lbl : Z) (vals : list double) : list (Z * double) :=
  match fuel with
  | O => []
  | S fuel' =>
      match SVMFile.read (u i) self lbl vals with
      | Ok (o, self') =>
          if SVMFile.ret o then
            SVMFile.stray o
              ++ pass_stray fuel' u (S i) self' (SVMFile.label o)
                   (SVMFile.values o)
          else []
      | _ => []
      end
  end.

(** The lines [1 1:0.5] and [-1 1:1.0], the last one without its newline. *)
Definition open_pair : list ascii :=
  chars ("1 1:0.5" ++ newline ++ "-1 1:1.0")%string.

(** The lines [blank, 1 1:0.5 3:2.0, blank]. *)
Definition lines_a : list line :=
  [Blank (chars "  "); Sample sample_a; Blank []].

(** * Machine integers *)

Lemma to_int_id z : is_int z -> to_int z = z.
Proof.
  unfold is_int, to_int, INT_MIN, INT_MAX. intros H.
  rewrite Z.mod_small; lia.
Qed.

Lemma to_size_t_id z : is_size_t z -> to_size_t z = z.
Proof.
  unfold is_size_t, to_size_t, SIZE_MAX. intros H.
  apply Z.mod_small. lia.
Qed.

Lemma to_size_t_int z : 0 <= z <= INT_MAX -> to_size_t z = z.
Proof.
  intros H. apply to_size_t_id. unfold is_size_t, SIZE_MAX, INT_MAX in *. lia.
Qed.

Lemma extent_nonneg a : 0 <= extent a.
Proof. unfold extent. lia. Qed.

Lemma to_size_t_extent a : is_array a -> to_size_t (extent a) = extent a.
Proof.
  intros H. apply to_size_t_int. split; [apply extent_nonneg | exact H].
Qed.

(** * The recompute step *)

Section Recompute.

Import SupportVector.

Lemma foldr_max_base (s a : Z) (xs : list Z) :
  foldr Z.max (Z.max s a) xs = Z.max a (foldr Z.max s xs).
Proof. induction xs as [|x xs IH]; simpl; [lia | rewrite IH; lia]. Qed.

Lemma foldr_max_app (s : Z) (xs ys : list Z) :
  foldr Z.max s (xs ++ ys) = foldr Z.max (foldr Z.max s ys) xs.
Proof. apply foldr_app. Qed.

Lemma foldr_max_swap (s : Z) (xs ys : list Z) :
  foldr Z.max (foldr Z.max s xs) ys = foldr Z.max (foldr Z.max s ys) xs.
Proof.
  induction xs as [|x xs IH]; simpl; [done|].
  rewrite <- IH. rewrite (Z.max_comm x). apply foldr_max_base.
Qed.

Lemma foldr_max_ge (s : Z) (xs : list Z) : s <= foldr Z.max s xs.
Proof. induction xs; simpl; lia. Qed.

Lemma foldr_max_le (s b : Z) (xs : list Z) :
  s <= b -> Forall (fun x => x <= b) xs -> foldr Z.max s xs <= b.
Proof. intros Hs H. induction H; simpl; lia. Qed.

Lemma features_int nodes :
  Forall (fun n => is_int (index n)) nodes ->
  Forall (fun x => x <= INT_MAX) (index <$> features nodes).
Proof.
  induction 1 as [|n nodes Hn _ IH]; simpl; [constructor|].
  destruct (index n =? -1); simpl; [constructor|].
  constructor; [apply Hn | exact IH].
Qed.

(** The walk over one support vector ends at its marker with the running
    maximum. *)
Lemma scan_nodes_spec nodes s :
  terminated nodes ->
  Forall (fun n => is_int (index n)) nodes ->
  0 <= s <= INT_MAX ->
  scan_nodes nodes s = Ok (foldr Z.max s (index <$> features nodes)).
Proof.
  intros [e [He Hm]] Hint. revert s.
  induction Hint as [|n nodes Hn Hint IH]; intros s Hs.
  - inversion He.
  - simpl. destruct (index n =? -1) eqn:E; [reflexivity|].
    apply Z.eqb_neq in E.
    assert (He' : e ∈ nodes).
    { apply elem_of_cons in He as [-> | He]; [contradiction | exact He]. }
    rewrite to_int_id by (unfold is_int, INT_MIN, INT_MAX in *; lia).
    simpl. rewrite <- foldr_max_base.
    destruct (index n >? s) eqn:G.
    + apply Z.gtb_lt in G.
      rewrite to_size_t_int by (unfold is_int in Hn; lia).
      rewrite IH by (try assumption; unfold is_int in Hn; lia).
      f_equal. f_equal. lia.
    + assert (index n <= s) by (rewrite Z.gtb_ltb in G; apply Z.ltb_ge in G; lia).
      rewrite IH by assumption. f_equal. f_equal. lia.
Qed.

Lemma scan_SV_spec todo k sv s :
  (k + todo = length sv)%nat ->
  Forall terminated sv ->
  Forall (Forall (fun n => is_int (index n))) sv ->
  0 <= s <= INT_MAX ->
  scan_SV todo k sv s
  = Ok (foldr Z.max s (index <$> concat (features <$> drop k sv))).
Proof.
  intros Hlen Ht Hi. revert k s Hlen.
  induction todo as [|todo IH]; intros k s Hlen Hs.
  - simpl. rewrite drop_ge by lia. reflexivity.
  - simpl. destruct (sv !! k) as [nodes|] eqn:E.
    2:{ apply lookup_ge_None in E. lia. }
    assert (Hn : terminated nodes).
    { eapply Forall_lookup_1 in Ht; eauto. }
    assert (Hn' : Forall (fun n => is_int (index n)) nodes).
    { eapply Forall_lookup_1 in Hi; eauto. }
    rewrite (scan_nodes_spec _ _ Hn Hn' Hs). simpl.
    unfold mbind, Result_bind.
    rewrite IH.
    + f_equal. rewrite (drop_S _ _ _ E). simpl.
      rewrite fmap_app, foldr_max_app. apply foldr_max_swap.
    + lia.
    + split; [pose proof (foldr_max_ge s (index <$> features nodes)); lia|].
      apply foldr_max_le; [lia | apply features_int, Hn'].
Qed.

Lemma max_feature_index_range m :
  well_formed m -> 0 <= max_feature_index m <= INT_MAX.
Proof.
  intros (_ & _ & Hi). unfold max_feature_index. split.
  - apply foldr_max_ge.
  - apply foldr_max_le; [unfold INT_MAX; lia|].
    induction Hi as [|nodes sv Hn _ IH]; simpl; [constructor|].
    rewrite fmap_app. apply Forall_app. split; [apply features_int, Hn | exact IH].
Qed.

Lemma reset_spec (self : t) :
  well_formed (m_model self) ->
  reset self =
    Ok (mk (m_model self) (max_feature_index (m_model self))
           (repeat fresh_node (Z.to_nat (1 + max_feature_index (m_model self))))
           (repeat d0 (Z.to_nat (max_feature_index (m_model self))))
           (repeat d1 (Z.to_nat (max_feature_index (m_model self))))).
Proof.
  intros (Hl & Ht & Hi). unfold reset.
  rewrite (scan_SV_spec _ 0 (SV (m_model self)) 0); try assumption.
  - reflexivity.
  - rewrite Hl. lia.
  - unfold INT_MAX. lia.
Qed.

End Recompute.

(** * The sparse encoding *)

Section Encoding.

Import SupportVector.

Lemma sparse_encoding_emit n input sub div :
  sparse_encoding n input sub div = flat_map (emit input sub div) (seq 0 n).
Proof. reflexivity. Qed.

Lemma emit_length input sub div k : (length (emit input sub div k) <= 1)%nat.
Proof.
  unfold emit. destruct (normalized input sub div k) as [v|]; simpl; [|lia].
  destruct (is_zero v); simpl; lia.
Qed.

Lemma flat_map_emit_length input sub div k n :
  (length (flat_map (emit input sub div) (seq k n)) <= n)%nat.
Proof.
  revert k. induction n as [|n IH]; intros k; simpl; [lia|].
  rewrite length_app. pose proof (emit_length input sub div k).
  specialize (IH (S k)). lia.
Qed.

(** The loop writes the pairs of the positions [k .. k+todo) into the slots
    from [cur] on, and touches nothing else. *)
Lemma copy_loop_spec todo : forall k input sub div cache cur,
  (k + todo <= length input)%nat ->
  (k + todo <= length sub)%nat ->
  (k + todo <= length div)%nat ->
  (cur + todo <= length cache)%nat ->
  Z.of_nat (k + todo) <= INT_MAX ->
  let enc := flat_map (emit input sub div) (seq k todo) in
  copy_loop todo k input sub div cache cur
  = Ok (take cur cache ++ enc ++ drop (cur + length enc) cache,
        (cur + length enc)%nat).
Proof.
  induction todo as [|todo IH]; intros k input sub div cache cur Hi Hs Hd Hc Hk enc;
    subst enc.
  - simpl. rewrite !Nat.add_0_r, take_drop. reflexivity.
  - cbn [copy_loop seq flat_map].
    destruct (lookup_lt_is_Some_2 input k ltac:(lia)) as [x Ex].
    destruct (lookup_lt_is_Some_2 sub k ltac:(lia)) as [s Es].
    destruct (lookup_lt_is_Some_2 div k ltac:(lia)) as [d Ed].
    rewrite Ex, Es, Ed.
    assert (Hemit : emit input sub div k
      = if is_zero (ddiv (dsub x s) d) then []
        else [mk_node (Z.of_nat k + 1) (ddiv (dsub x s) d)]).
    { unfold emit, normalized. rewrite Ex, Es, Ed. reflexivity. }
    rewrite Hemit.
    destruct (is_zero (ddiv (dsub x s) d)) eqn:Ez.
    + rewrite IH by lia. reflexivity.
    + destruct (lookup_lt_is_Some_2 cache cur ltac:(lia)) as [c Ec].
      rewrite Ec. rewrite IH by (rewrite ?length_insert; lia).
      rewrite to_int_id by (unfold is_int, INT_MIN, INT_MAX in *; lia).
      assert (Hcur : (cur < length cache)%nat) by (eapply lookup_lt_Some; eauto).
      rewrite drop_insert_lt by lia.
      rewrite (take_S_r (<[cur:=_]> cache) cur
                 (mk_node (Z.of_nat k + 1) (ddiv (dsub x s) d)))
        by (apply list_lookup_insert_eq; lia).
      rewrite take_insert_ge by lia.
      cbn [length app]. rewrite <- app_assoc. cbn [app].
      rewrite !Nat.add_succ_r. reflexivity.
Qed.

Lemma copy_spec input n cache sub div :
  0 <= n <= INT_MAX ->
  n <= extent input -> n <= extent sub -> n <= extent div ->
  (Z.to_nat n < length cache)%nat ->
  let enc := sparse_encoding (Z.to_nat n) input sub div in
  exists stale,
    cache !! length enc = Some stale /\
    copy input n cache sub div
    = Ok (enc ++ mk_node (-1) (value stale) :: drop (S (length enc)) cache).
Proof.
  intros Hn Hi Hs Hd Hc enc. unfold extent in *.
  pose proof (flat_map_emit_length input sub div 0 (Z.to_nat n)) as Hle.
  rewrite <- sparse_encoding_emit in Hle. fold enc in Hle.
  destruct (lookup_lt_is_Some_2 cache (length enc) ltac:(lia)) as [stale Est].
  exists stale. split; [exact Est|].
  unfold copy. rewrite copy_loop_spec by lia.
  rewrite <- sparse_encoding_emit. fold enc. simpl.
  unfold mbind, Result_bind. simpl.
  replace ((enc ++ drop (length enc) cache) !! length enc) with (Some stale).
  2:{ rewrite lookup_app_r by lia. rewrite Nat.sub_diag, lookup_drop, Nat.add_0_r.
      symmetry; exact Est. }
  f_equal.
  rewrite insert_app_r_alt by lia. rewrite Nat.sub_diag.
  f_equal. rewrite (drop_S _ _ _ Est). reflexivity.
Qed.

Lemma elem_of_sparse_encoding n input sub div node :
  node ∈ sparse_encoding n input sub div <->
  exists k v, (k < n)%nat /\ normalized input sub div k = Some v /\
              is_zero v = false /\ node = mk_node (Z.of_nat k + 1) v.
Proof.
  unfold sparse_encoding. rewrite list_elem_of_In, in_flat_map. unfold emit.
  split.
  - intros (k & Hk & Hin). apply in_seq in Hk.
    destruct (normalized input sub div k) as [v|] eqn:E; [|inversion Hin].
    destruct (is_zero v) eqn:Ez; [inversion Hin|].
    destruct Hin as [<- | []]. exists k, v. split; [lia | auto].
  - intros (k & v & Hk & E & Ez & ->). exists k.
    split; [apply in_seq; lia|]. rewrite E, Ez. left. reflexivity.
Qed.

Lemma encode_spec (self : t) (input : list double) :
  consistent self ->
  inputSize self <= extent input ->
  let enc := sparse_encoding (Z.to_nat (inputSize self)) input
               (m_input_sub self) (m_input_div self) in
  exists stale,
    m_input_cache self !! length enc = Some stale /\
    encode self input
    = Ok (enc ++ mk_node (-1) (value stale)
              :: drop (S (length enc)) (m_input_cache self)).
Proof.
  intros (Hn & Hc & Hs & Hd) Hi. unfold encode, inputSize in *.
  apply copy_spec; try assumption. rewrite Hc. lia.
Qed.

End Encoding.

(** After a case analysis on a step of a sequence of calls: go on with
    the value, drop the cases in which the sequence has ended. *)
Ltac next_bind := cbn [mbind Result_bind]; try discriminate.

(** * The engine: claims *)

Section Engine.

Import SupportVector.

Lemma scores_size_required N :
  0 <= N <= INT_MAX -> scores_size N = required_scores N.
Proof.
  intros H. unfold scores_size, required_scores.
  destruct (N <? 2) eqn:E; [reflexivity|].
  apply Z.ltb_ge in E. rewrite to_size_t_id; [reflexivity|].
  unfold is_size_t, SIZE_MAX, INT_MAX in *. nia.
Qed.

Lemma outputSize_range (self : t) :
  0 <= nr_class (m_model self) <= INT_MAX -> 0 <= outputSize self <= INT_MAX.
Proof.
  intros H. unfold outputSize, svm_get_nr_class.
  rewrite to_size_t_int by exact H.
  destruct (nr_class (m_model self) =? 2); [unfold INT_MAX|]; lia.
Qed.

Lemma well_formed_model_a : well_formed model_a.
Proof.
  split; [reflexivity|]. split.
  - repeat constructor;
      (eexists; split; [apply list_elem_of_In; simpl; eauto 6 | reflexivity]).
  - repeat constructor; vm_compute; intros ?; discriminate.
Qed.

Lemma consistent_machine_a : consistent machine_a.
Proof.
  unfold consistent, extent, INT_MAX. simpl. repeat split; lia.
Qed.

(** C5. After adoption of a model or a load from a model file, and
    whenever [reset] runs, the machine has an input size equal to the
    largest feature index over the support vectors, a cache of that size
    plus one, a subtraction vector of zeros and a division vector of ones,
    both of the input size. *)
Theorem C5_recompute (L : libsvm) (m : svm_model) :
  well_formed m ->
  let n := max_feature_index m in
  exists fresh : t,
    (forall self, m_model self = m -> reset self = Ok fresh) /\
    SupportVector_model (Some m) = Ok fresh /\
    (forall (fs : filesystem) file text,
        fs !! file = Some text -> svm_load_model L text = Some m ->
        SupportVector_file L fs file = Ok fresh) /\
    (forall config loaded warned,
        SupportVector_hdf5 L config = Ok (loaded, warned) ->
        m_model loaded = m ->
        inputSize loaded = n /\ m_input_cache loaded = m_input_cache fresh) /\
    m_model fresh = m /\
    inputSize fresh = n /\
    Z.of_nat (length (m_input_cache fresh)) = n + 1 /\
    extent (m_input_sub fresh) = n /\
    m_input_sub fresh = repeat d0 (Z.to_nat n) /\
    extent (m_input_div fresh) = n /\
    m_input_div fresh = repeat d1 (Z.to_nat n).
Proof.
  intros Hwf n. pose proof (max_feature_index_range m Hwf) as Hn. fold n in Hn.
  exists (mk m n (repeat fresh_node (Z.to_nat (1 + n)))
             (repeat d0 (Z.to_nat n)) (repeat d1 (Z.to_nat n))).
  split.
  { intros self <-. apply reset_spec. exact Hwf. }
  split. { simpl. apply (reset_spec (blank m)). exact Hwf. }
  split.
  { intros fs file text Hfs Hload. unfold SupportVector_file, make_model.
    rewrite Hfs, Hload. apply (reset_spec (blank m)). exact Hwf. }
  split.
  { intros config loaded warned. unfold SupportVector_hdf5.
    destruct (getAttribute config "version") as [version| |]; next_bind.
    destruct (readArray_uint8 config "svm_model") as [buffer| |]; next_bind.
    destruct (svm_unpickle L buffer) as [m'| |]; next_bind.
    destruct (reset (blank m')) as [self| |] eqn:Er; next_bind.
    destruct (readArray config "input_subtract" (m_input_sub self)) as [sub| |]; next_bind.
    destruct (readArray config "input_divide" (m_input_div self)) as [div| |]; next_bind.
    intros [= <- _]. cbn [m_model inputSize m_input_size m_input_cache].
    intros Hm.
    assert (Hm' : m' = m).
    { unfold reset in Er. cbn [blank m_model] in Er.
      destruct (scan_SV _ _ _ _); cbn [mbind Result_bind] in Er;
        try discriminate.
      injection Er as <-. exact Hm. }
    subst m'. rewrite (reset_spec (blank m) Hwf) in Er. injection Er as <-.
    split; reflexivity. }
  unfold extent. simpl. rewrite !repeat_length. fold n.
  repeat split; lia.
Qed.

Lemma C5_recompute_witness :
  well_formed model_a /\
  exists fresh : t,
    SupportVector_model (Some model_a) = Ok fresh /\
    inputSize fresh = 3 /\
    Z.of_nat (length (m_input_cache fresh)) = 3 + 1 /\
    m_input_sub fresh = repeat d0 3 /\
    m_input_div fresh = repeat d1 3.
Proof.
  split; [exact well_formed_model_a|].
  destruct (C5_recompute solver_a model_a well_formed_model_a)
    as (fresh & _ & Hm & _ & _ & _ & Hn & Hc & _ & Hs & _ & Hd).
  exists fresh. repeat split; assumption.
Defined.

(** ** The machine stays consistent *)

Lemma reset_consistent (self self' : t) :
  well_formed (m_model self) -> reset self = Ok self' -> consistent self'.
Proof.
  intros Hwf. rewrite (reset_spec self Hwf). intros [= <-].
  pose proof (max_feature_index_range _ Hwf) as Hn.
  unfold consistent, extent. cbn [m_input_size m_input_cache m_input_sub m_input_div].
  rewrite !repeat_length. repeat split; lia.
Qed.

Lemma setInputSubtraction_consistent (self self' : t) (v : list double) :
  consistent self -> is_array v ->
  setInputSubtraction self v = Ok self' -> consistent self'.
Proof.
  intros (Hn & Hc & Hs & Hd) Ha. unfold setInputSubtraction, inputSize.
  rewrite to_size_t_extent by exact Ha.
  destruct (m_input_size self >? extent v) eqn:E; [discriminate|].
  intros [= <-]. rewrite Z.gtb_ltb in E. apply Z.ltb_ge in E.
  repeat split; cbn [m_input_size m_input_cache m_input_sub m_input_div];
    assumption || lia.
Qed.

Lemma setInputDivision_consistent (self self' : t) (v : list double) :
  consistent self -> is_array v ->
  setInputDivision self v = Ok self' -> consistent self'.
Proof.
  intros (Hn & Hc & Hs & Hd) Ha. unfold setInputDivision, inputSize.
  rewrite to_size_t_extent by exact Ha.
  destruct (m_input_size self >? extent v) eqn:E; [discriminate|].
  intros [= <-]. rewrite Z.gtb_ltb in E. apply Z.ltb_ge in E.
  repeat split; cbn [m_input_size m_input_cache m_input_sub m_input_div];
    assumption || lia.
Qed.

Lemma encode_consistent (self : t) (input : list double)
  (nodes : list svm_node) :
  consistent self -> inputSize self <= extent input ->
  encode self input = Ok nodes -> consistent (with_cache self nodes).
Proof.
  intros Hc Hi. destruct (encode_spec self input Hc Hi) as (stale & Hst & ->).
  intros [= <-]. destruct Hc as (Hn & Hc & Hs & Hd).
  repeat split; cbn [with_cache m_input_size m_input_cache m_input_sub m_input_div];
    try assumption || lia.
  apply lookup_lt_Some in Hst. rewrite length_app. cbn [length].
  rewrite length_drop. lia.
Qed.

(** C6. The encoding every prediction goes through: for each position [k]
    below the input size, in order, the value
    [(input[k] - subtract[k]) / divide[k]] is left out when it is zero and
    is otherwise stored with index [k+1] in the next slot of the cache; the
    slot after the last pair gets index -1. *)
Theorem C6_sparse_encoding (L : libsvm) (self : t) (input : list double) :
  consistent self ->
  inputSize self <= extent input ->
  let n := Z.to_nat (inputSize self) in
  let enc := sparse_encoding n input (m_input_sub self) (m_input_div self) in
  exists stale tail cache,
    cache = enc ++ mk_node (-1) stale :: tail /\
    length cache = length (m_input_cache self) /\
    (forall node, node ∈ enc <->
       exists k x s d, (k < n)%nat /\ input !! k = Some x /\
         m_input_sub self !! k = Some s /\ m_input_div self !! k = Some d /\
         is_zero (ddiv (dsub x s) d) = false /\
         node = mk_node (Z.of_nat k + 1) (ddiv (dsub x s) d)) /\
    encode self input = Ok cache /\
    predictClass_ L self input
      = Ok (round (svm_predict L (m_model self) cache), with_cache self cache) /\
    (forall scores,
       predictClassAndScores_ L self input scores
       = let '(r, out) := svm_predict_values L (m_model self) cache (elems scores) in
         Ok (if LIBSVM_VERSION L >? 290 then round r
             else round (svm_predict L (m_model self) cache),
             mk_Array out (isCContiguous scores), with_cache self cache)) /\
    (forall probabilities,
       predictClassAndProbabilities_ L self input probabilities
       = let '(r, out) :=
           svm_predict_probability L (m_model self) cache (elems probabilities) in
         Ok (round r, mk_Array out (isCContiguous probabilities),
             with_cache self cache)).
Proof.
  intros Hc Hi n enc.
  destruct (encode_spec self input Hc Hi) as (stale & Hst & Henc).
  fold n in Hst, Henc. fold enc in Hst, Henc.
  exists (value stale), (drop (S (length enc)) (m_input_cache self)).
  eexists. split; [reflexivity|]. split.
  { apply lookup_lt_Some in Hst. rewrite length_app. simpl.
    rewrite length_drop. lia. }
  split.
  { intros node. unfold enc. rewrite elem_of_sparse_encoding. split.
    - intros (k & v & Hk & Hv & Hz & ->). unfold normalized in Hv.
      destruct (input !! k) as [x|] eqn:Ex; [|discriminate].
      destruct (m_input_sub self !! k) as [s|] eqn:Es; [|discriminate].
      destruct (m_input_div self !! k) as [d|] eqn:Ed; [|discriminate].
      simpl in Hv. injection Hv as <-. exists k, x, s, d.
      repeat split; try reflexivity; assumption.
    - intros (k & x & s & d & Hk & Ex & Es & Ed & Hz & ->).
      exists k, (ddiv (dsub x s) d). unfold normalized. rewrite Ex, Es, Ed.
      repeat split; try reflexivity; assumption. }
  split; [exact Henc|].
  unfold predictClass_, predictClassAndScores_, predictClassAndProbabilities_.
  rewrite Henc. repeat split; reflexivity.
Qed.

Lemma C6_sparse_encoding_witness :
  consistent machine_a /\ inputSize machine_a <= extent [half; d0; d2] /\
  exists stale tail cache,
    cache = sparse_encoding 3 [half; d0; d2] [d0; d0; d0] [d1; d1; d1]
              ++ mk_node (-1) stale :: tail /\
    encode machine_a [half; d0; d2] = Ok cache.
Proof.
  split; [exact consistent_machine_a|]. split; [vm_compute; discriminate|].
  destruct (C6_sparse_encoding solver_a machine_a [half; d0; d2]
              consistent_machine_a ltac:(vm_compute; discriminate))
    as (stale & tail & cache & Hcache & _ & _ & Henc & _).
  exists stale, tail, cache. split; assumption.
Defined.

Example encode_machine_a :
  encode machine_a [half; d0; d2]
  = Ok [mk_node 1 half; mk_node 3 d2; mk_node (-1) d0; fresh_node].
Proof. vm_compute. reflexivity. Qed.

(** Division by a zero of either sign never gives a finite double. *)
Lemma ddiv_zero_not_finite (y : double) (sg : bool) :
  is_finite (ddiv y (S754_zero sg)) = false /\
  is_zero (ddiv y (S754_zero sg)) = false.
Proof. destruct y; simpl; split; reflexivity. Qed.

(** C10. [setInputDivision] looks at the length of its argument only: any
    vector at least as long as the input size is stored as it is, zeros
    included; the encoding then divides by such a zero, and the pair it
    stores for that position holds an infinity or a NaN. *)
Theorem C10_division_unchecked (self : t) (v : list double) :
  is_array v ->
  inputSize self <= extent v ->
  setInputDivision self v
  = Ok (mk (m_model self) (m_input_size self) (m_input_cache self)
           (m_input_sub self) v) /\
  forall self' input k x s sg,
    setInputDivision self v = Ok self' ->
    consistent self ->
    inputSize self <= extent input ->
    Z.of_nat k < inputSize self ->
    v !! k = Some (S754_zero sg) ->
    input !! k = Some x ->
    m_input_sub self !! k = Some s ->
    let q := ddiv (dsub x s) (S754_zero sg) in
    is_finite q = false /\
    exists cache,
      encode self' input = Ok cache /\ mk_node (Z.of_nat k + 1) q ∈ cache.
Proof.
  intros Ha Hv.
  assert (Hset : setInputDivision self v
    = Ok (mk (m_model self) (m_input_size self) (m_input_cache self)
             (m_input_sub self) v)).
  { unfold setInputDivision. rewrite to_size_t_extent by exact Ha.
    destruct (inputSize self >? extent v) eqn:E; [|reflexivity].
    apply Z.gtb_lt in E. lia. }
  split; [exact Hset|].
  intros self' input k x s sg Hself' (Hn & Hc & Hs & Hd) Hi Hk Ev Ex Es q.
  rewrite Hset in Hself'. injection Hself' as <-.
  destruct (ddiv_zero_not_finite (dsub x s) sg) as [Hfin Hz]. fold q in Hfin, Hz.
  split; [exact Hfin|].
  unfold inputSize in *.
  destruct (encode_spec
              (mk (m_model self) (m_input_size self) (m_input_cache self)
                  (m_input_sub self) v) input) as (stale & _ & Henc).
  { repeat split; simpl; assumption || lia. }
  { exact Hi. }
  cbn [inputSize m_input_size m_input_sub m_input_div m_input_cache] in Henc.
  rewrite Henc. eexists. split; [reflexivity|].
  rewrite elem_of_app. left. apply elem_of_sparse_encoding.
  exists k, q. split; [lia|].
  assert (Ev' : @lookup nat double (list double) _ k v = Some (S754_zero sg))
    by exact Ev.
  unfold normalized. rewrite Ex, Es, Ev'. auto.
Qed.

Lemma C10_division_unchecked_witness :
  is_array [d0; d1; d0] /\ inputSize machine_a <= extent [d0; d1; d0] /\
  setInputDivision machine_a [d0; d1; d0]
  = Ok (mk model_a 3 (repeat fresh_node 4) [d0; d0; d0] [d0; d1; d0]).
Proof.
  split; [vm_compute; discriminate|]. split; [vm_compute; discriminate|].
  apply (C10_division_unchecked machine_a [d0; d1; d0]);
    vm_compute; discriminate.
Defined.

(** With that division vector the input [1, 1, 0] is encoded with an
    infinity at index 1 and a NaN at index 3. *)
Example encode_divided_by_zero :
  encode (mk model_a 3 (repeat fresh_node 4) [d0; d0; d0] [d0; d1; d0])
         [d1; d1; d0]
  = Ok [mk_node 1 (S754_infinity false); mk_node 2 d1; mk_node 3 S754_nan;
        mk_node (-1) d0].
Proof. vm_compute. reflexivity. Qed.

Lemma predictClassAndScores__returns (L : libsvm) (self : t) (input : list double) (scores : Array) :
  consistent self -> inputSize self <= extent input ->
  exists r, predictClassAndScores_ L self input scores = Ok r.
Proof.
  intros Hc Hi. destruct (encode_spec self input Hc Hi) as (stale & _ & Henc).
  unfold predictClassAndScores_. rewrite Henc. simpl.
  destruct (svm_predict_values L (m_model self) _ (elems scores)) as [r out].
  eexists. reflexivity.
Qed.

(** C4, as stated: whatever the scores buffer, a length other than the
    required one raises the dimension error.  A buffer that is not
    contiguous refutes it: the contiguity check comes first. *)
Lemma C4_counterexample :
  ~ (forall (L : libsvm) (self : t) (input : list double) (scores : Array),
       consistent self ->
       0 <= nr_class (m_model self) <= INT_MAX ->
       is_array input -> is_array (elems scores) ->
       inputSize self <= extent input ->
       extent (elems scores) <> required_scores (outputSize self) ->
       predictClassAndScores L self input scores = Throw DimensionError).
Proof.
  intros H.
  specialize (H solver_a machine_a [half; d0; d2] (mk_Array [d0; d0] false)
                consistent_machine_a).
  assert (E : predictClassAndScores solver_a machine_a [half; d0; d2]
                (mk_Array [d0; d0] false) = Throw ContiguityError)
    by (vm_compute; reflexivity).
  rewrite E in H.
  assert (C : @Throw (Z * Array * t) ContiguityError = Throw DimensionError).
  { apply H; vm_compute; try split; intros; discriminate. }
  discriminate C.
Qed.

(** C4, amended.  For an input of at least the input size and a contiguous
    scores buffer, [predictClassAndScores] raises the dimension error when
    the length of the buffer differs from 1 (output size below 2) or from
    [C*(C-1)/2] (output size [C] otherwise), and calls the solver when it
    is equal; two classes ask for length 1, three classes for length 3. *)
Theorem C4_scores_length (L : libsvm) (self : t) (input : list double)
  (scores : Array) :
  0 <= nr_class (m_model self) <= INT_MAX ->
  is_array input -> is_array (elems scores) ->
  inputSize self <= extent input ->
  isCContiguous scores = true ->
  let C := outputSize self in
  (extent (elems scores) <> required_scores C ->
     predictClassAndScores L self input scores = Throw DimensionError) /\
  (extent (elems scores) = required_scores C ->
     predictClassAndScores L self input scores
     = predictClassAndScores_ L self input scores /\
     (consistent self ->
      exists r, predictClassAndScores L self input scores = Ok r)) /\
  (nr_class (m_model self) = 2 -> C = 1 /\ required_scores C = 1) /\
  (nr_class (m_model self) = 3 -> C = 3 /\ required_scores C = 3).
Proof.
  intros Hnr Hin Hsc Hi Hcc C.
  assert (Hhead : predictClassAndScores L self input scores
    = if negb (extent (elems scores) =? required_scores C)
      then Throw DimensionError
      else predictClassAndScores_ L self input scores).
  { unfold predictClassAndScores.
    rewrite !to_size_t_extent by assumption.
    destruct (extent input <? inputSize self) eqn:E;
      [apply Z.ltb_lt in E; lia|].
    rewrite Hcc. cbn [negb].
    rewrite scores_size_required by (apply outputSize_range, Hnr).
    reflexivity. }
  split; [|split; [|split]].
  - intros Hne. rewrite Hhead.
    destruct (extent (elems scores) =? required_scores C) eqn:E;
      [apply Z.eqb_eq in E; contradiction | reflexivity].
  - intros Heq. rewrite Hhead, Heq, Z.eqb_refl. cbn [negb].
    split; [reflexivity|]. intros Hc.
    destruct (predictClassAndScores__returns L self input scores Hc Hi) as [r Hr]. exists r. exact Hr.
  - intros E. unfold C, outputSize, svm_get_nr_class. rewrite E.
    split; reflexivity.
  - intros E. unfold C, outputSize, svm_get_nr_class. rewrite E.
    split; reflexivity.
Qed.

Lemma C4_scores_length_witness :
  0 <= nr_class (m_model machine_a) <= INT_MAX /\
  is_array [half; d0; d2] /\ is_array [d0; d0] /\
  inputSize machine_a <= extent [half; d0; d2] /\
  predictClassAndScores solver_a machine_a [half; d0; d2]
    (mk_Array [d0; d0] true) = Throw DimensionError.
Proof.
  split; [vm_compute; split; discriminate|].
  split; [vm_compute; discriminate|]. split; [vm_compute; discriminate|].
  split; [vm_compute; discriminate|].
  apply (C4_scores_length solver_a machine_a [half; d0; d2]
           (mk_Array [d0; d0] true));
    try (vm_compute; discriminate); try reflexivity.
  vm_compute; split; discriminate.
Defined.

(** A scores buffer that is not contiguous raises the contiguity error,
    whatever its length. *)
Lemma predictClassAndScores_not_contiguous (L : libsvm) (self : t)
  (input : list double) (scores : Array) :
  is_array input ->
  inputSize self <= extent input ->
  isCContiguous scores = false ->
  predictClassAndScores L self input scores = Throw ContiguityError.
Proof.
  intros Hin Hi Hcc. unfold predictClassAndScores.
  rewrite to_size_t_extent by exact Hin.
  destruct (extent input <? inputSize self) eqn:E;
    [apply Z.ltb_lt in E; lia|].
  rewrite Hcc. reflexivity.
Qed.

(** With three scores the same call goes through. *)
Example scores_machine_a :
  predictClassAndScores solver_a machine_a [half; d0; d2]
    (mk_Array [d0; d0; d0] true)
  = Ok (1, mk_Array [d0; d0; d0] true,
        with_cache machine_a
          [mk_node 1 half; mk_node 3 d2; mk_node (-1) d0; fresh_node]).
Proof. vm_compute. reflexivity. Qed.

Example machine_a_adopted : SupportVector_model (Some model_a) = Ok machine_a.
Proof. vm_compute. reflexivity. Qed.

(** C3. Loading from a container runs the recompute step on the model
    read, which leaves zeros and ones, and only then reads the stored
    vectors into the machine: the machine loaded has the input size and
    the cache of the recompute step, and the subtraction and division
    vectors of the container. *)
Theorem C3_load_order (L : libsvm) (config : HDF5File) (version : Z)
  (buffer : list ascii) (m : svm_model) (sub div : list double) :
  attributes config !! "version"%string = Some version ->
  datasets config !! "svm_model"%string = Some (Bytes buffer) ->
  svm_load_model L buffer = Some m ->
  well_formed m ->
  datasets config !! "input_subtract"%string = Some (Doubles sub) ->
  datasets config !! "input_divide"%string = Some (Doubles div) ->
  extent sub = max_feature_index m ->
  extent div = max_feature_index m ->
  exists recomputed loaded warned,
    reset (blank m) = Ok recomputed /\
    m_input_sub recomputed = repeat d0 (Z.to_nat (max_feature_index m)) /\
    m_input_div recomputed = repeat d1 (Z.to_nat (max_feature_index m)) /\
    SupportVector_hdf5 L config = Ok (loaded, warned) /\
    loaded = mk m (m_input_size recomputed) (m_input_cache recomputed) sub div /\
    m_input_sub loaded = sub /\ m_input_div loaded = div.
Proof.
  intros Hver Hmodel Hload Hwf Hsub Hdiv Hes Hed.
  pose proof (max_feature_index_range m Hwf) as Hn.
  pose proof (reset_spec (blank m) Hwf) as Hreset. cbn [m_model blank] in Hreset.
  eexists. eexists. exists (LIBSVM_VERSION L / 100 >? version / 100).
  split; [exact Hreset|]. cbn [m_input_sub m_input_div].
  split; [reflexivity|]. split; [reflexivity|]. split; [|split; [reflexivity|]].
  - unfold SupportVector_hdf5, getAttribute, readArray_uint8, svm_unpickle,
      make_model.
    rewrite Hver. cbn [mbind Result_bind]. rewrite Hmodel.
    cbn [mbind Result_bind]. rewrite Hload. cbn [mbind Result_bind].
    rewrite Hreset. cbn [mbind Result_bind].
    unfold readArray. cbn [m_input_sub m_input_div m_model m_input_size
                           m_input_cache].
    rewrite Hsub, Hdiv.
    replace (extent sub =? extent (repeat d0 (Z.to_nat (max_feature_index m))))
      with true
      by (unfold extent in *; rewrite repeat_length; symmetry; apply Z.eqb_eq; lia).
    cbn [mbind Result_bind].
    replace (extent div =? extent (repeat d1 (Z.to_nat (max_feature_index m))))
      with true
      by (unfold extent in *; rewrite repeat_length; symmetry; apply Z.eqb_eq; lia).
    reflexivity.
  - split; reflexivity.
Qed.

(** Whenever the load from a container succeeds, the vectors of the
    machine are the vectors stored in the container. *)
Lemma SupportVector_hdf5_stored (L : libsvm) (config : HDF5File) (loaded : t)
  (warned : bool) :
  SupportVector_hdf5 L config = Ok (loaded, warned) ->
  datasets config !! "input_subtract"%string = Some (Doubles (m_input_sub loaded)) /\
  datasets config !! "input_divide"%string = Some (Doubles (m_input_div loaded)).
Proof.
  unfold SupportVector_hdf5.
  destruct (getAttribute config "version") as [version| |]; next_bind.
  destruct (readArray_uint8 config "svm_model") as [buffer| |]; next_bind.
  destruct (svm_unpickle L buffer) as [m'| |]; next_bind.
  destruct (reset (blank m')) as [self| |]; next_bind.
  unfold readArray.
  destruct (datasets config !! "input_subtract"%string) as [[b|sub]|]; next_bind.
  destruct (extent sub =? extent (m_input_sub self)); next_bind.
  destruct (datasets config !! "input_divide"%string) as [[b|div]|]; next_bind.
  destruct (extent div =? extent (m_input_div self)); next_bind.
  intros [= <- _]. split; reflexivity.
Qed.

Lemma C3_load_order_witness :
  exists loaded warned,
    SupportVector_hdf5 solver_a container_a = Ok (loaded, warned) /\
    m_input_sub loaded = [d1; d0; d2] /\ m_input_div loaded = [d2; d2; half].
Proof.
  destruct (C3_load_order solver_a container_a 317 (chars "svm") model_a
              [d1; d0; d2] [d2; d2; half]
              ltac:(vm_compute; reflexivity) ltac:(vm_compute; reflexivity)
              ltac:(reflexivity) well_formed_model_a
              ltac:(vm_compute; reflexivity) ltac:(vm_compute; reflexivity)
              ltac:(vm_compute; reflexivity) ltac:(vm_compute; reflexivity))
    as (recomputed & loaded & warned & _ & _ & _ & Hload & _ & Hs & Hd).
  exists loaded, warned. repeat split; assumption.
Defined.

End Engine.

(** * The record file *)

Section RecordFile.

Import SVMFile.

Lemma skip_while_nil p s : skip_while p s = [] <-> forallb p s = true.
Proof.
  induction s as [|c s IH]; simpl; [tauto|].
  destruct (p c); simpl; [exact IH|]. split; discriminate.
Qed.

Lemma skip_while_head p s c r : skip_while p s = c :: r -> p c = false.
Proof.
  induction s as [|a s IH]; simpl; [discriminate|].
  destruct (p a) eqn:E; [exact IH|]. intros [= <- _]. exact E.
Qed.

Lemma forallb_skip_while p s :
  forallb p (skip_while p s) = true <-> forallb p s = true.
Proof.
  induction s as [|c s IH]; simpl; [tauto|].
  destruct (p c) eqn:E; simpl; [exact IH|]. rewrite E. simpl. tauto.
Qed.

Lemma forallb_rev p (s : list ascii) : forallb p (rev s) = forallb p s.
Proof.
  induction s as [|c s IH]; simpl; [reflexivity|].
  rewrite forallb_app, IH. simpl. rewrite andb_true_r. apply andb_comm.
Qed.

(** A line is empty after trimming exactly when it is white space. *)
Lemma trim_nil s : trim s = [] <-> forallb isspace s = true.
Proof.
  unfold trim. rewrite <- forallb_skip_while, <- forallb_rev, <- skip_while_nil.
  split.
  - intros H. apply (f_equal (@rev ascii)) in H. rewrite rev_involutive in H.
    exact H.
  - intros ->. reflexivity.
Qed.

Lemma getline_scan_spaces buf :
  forallb isspace buf
  = forallb isspace (getline_scan buf).1
    && match (getline_scan buf).2 with
       | Some rest => forallb isspace rest
       | None => true
       end.
Proof.
  induction buf as [|c buf IH]; simpl; [reflexivity|].
  unfold is_char. destruct (code c =? code "010") eqn:E.
  - simpl. apply Z.eqb_eq in E. unfold isspace. rewrite E. reflexivity.
  - destruct (getline_scan buf) as [l r]. simpl in *. rewrite IH.
    apply andb_assoc.
Qed.

Lemma getline_scan_length buf rest :
  (getline_scan buf).2 = Some rest -> (length rest < length buf)%nat.
Proof.
  revert rest. induction buf as [|c buf IH]; simpl; intros rest; [discriminate|].
  destruct (is_char "010" c).
  - simpl. intros [= ->]. lia.
  - destruct (getline_scan buf) as [l r]. simpl in *. intros H.
    specialize (IH _ H). lia.
Qed.

(** The loop for the next line ends with an empty line exactly when
    nothing but white space was left. *)
Lemma next_line_empty fuel : forall f,
  good f = true ->
  (length (rdbuf f) < fuel)%nat ->
  (next_line fuel f []).2 = [] <-> forallb isspace (rdbuf f) = true.
Proof.
  induction fuel as [|fuel IH]; intros f Hg Hf; [lia|].
  cbn [next_line]. rewrite Hg. unfold getline. rewrite Hg.
  rewrite (getline_scan_spaces (rdbuf f)).
  pose proof (getline_scan_length (rdbuf f)) as Hlen.
  destruct (getline_scan (rdbuf f)) as [line [rest|]]; cbn [fst snd] in *.
  - destruct (trim line) as [|c t] eqn:Et.
    + apply trim_nil in Et. rewrite Et. cbn [andb].
      apply IH; [reflexivity|]. specialize (Hlen rest eq_refl). simpl. lia.
    + assert (forallb isspace line = false) as ->.
      { destruct (forallb isspace line) eqn:E; [|reflexivity].
        apply trim_nil in E. congruence. }
      destruct fuel; simpl; split; discriminate.
  - destruct (trim line) as [|c t] eqn:Et.
    + apply trim_nil in Et. rewrite Et.
      destruct fuel; simpl; tauto.
    + assert (forallb isspace line = false) as ->.
      { destruct (forallb isspace line) eqn:E; [|reflexivity].
        apply trim_nil in E. congruence. }
      destruct fuel; simpl; split; discriminate.
Qed.

Lemma get_line_empty f :
  good f = true ->
  (get_line f).2 = [] <-> forallb isspace (rdbuf f) = true.
Proof. intros Hg. apply next_line_empty; [exact Hg | lia]. Qed.

(** The loop for the next line is left because a line was found or the
    stream is no longer good, never for want of fuel; and a stream that is
    still good has lost at least one character. *)
Lemma next_line_exit fuel : forall f,
  good f = true ->
  (length (rdbuf f) < fuel)%nat ->
  ((next_line fuel f []).2 <> [] \/ good (next_line fuel f []).1 = false) /\
  (good (next_line fuel f []).1 = true ->
   (length (rdbuf (next_line fuel f []).1) < length (rdbuf f))%nat).
Proof.
  induction fuel as [|fuel IH]; intros f Hg Hf; [lia|].
  cbn [next_line]. rewrite Hg. unfold getline. rewrite Hg.
  pose proof (getline_scan_length (rdbuf f)) as Hlen.
  destruct (getline_scan (rdbuf f)) as [line [rest|]]; cbn [fst snd] in *.
  - specialize (Hlen rest eq_refl).
    destruct (trim line) as [|c t] eqn:Et.
    + destruct (IH (mk_istream rest false false) eq_refl) as [H1 H2];
        [simpl; lia|].
      split; [exact H1|]. intros Hgood. specialize (H2 Hgood). simpl in H2. lia.
    + destruct fuel; simpl; (split; [left; discriminate | intros _; lia]).
  - destruct (trim line) as [|c t] eqn:Et.
    + destruct fuel; simpl; (split; [right; reflexivity | discriminate]).
    + destruct fuel; simpl; (split; [left; discriminate | discriminate]).
Qed.

(** The scan of the constructor is left with a stream that is not good:
    the fuel given to it, the length of the file and one, is enough. *)
Lemma scan_exit fuel u : forall f shape n,
  (length (rdbuf f) < fuel)%nat ->
  good (scan fuel u f shape n).1.1 = false.
Proof.
  induction fuel as [|fuel IH]; intros f shape n Hf; [lia|].
  cbn [scan]. destruct (good f) eqn:Hg; [|exact Hg].
  destruct (next_line_exit (S (length (rdbuf f))) f Hg ltac:(lia)) as [_ Hless].
  unfold get_line. destruct (next_line (S (length (rdbuf f))) f []) as [f1 line].
  cbn [fst snd] in Hless.
  destruct (good f1) eqn:Hg1; [|exact Hg1].
  destruct (extract num_get_int (istringstream line) 0) as [iss lbl].
  apply IH. specialize (Hless eq_refl). lia.
Qed.

(** [read_] returns false exactly at the end of the stream. *)
Lemma read__ret u self lbl vals :
  ret (read_ u self lbl vals).1 = negb (end_of_stream (m_file self)).
Proof.
  unfold read_, end_of_stream.
  destruct (good (m_file self)) eqn:Hg; cbn [negb orb]; [|reflexivity].
  pose proof (get_line_empty (m_file self) Hg) as H.
  destruct (get_line (m_file self)) as [f1 line]. cbn [snd] in H.
  destruct line as [|c line].
  - simpl. destruct (forallb isspace (rdbuf (m_file self))); [reflexivity|].
    destruct H as [H _]. specialize (H eq_refl). discriminate.
  - destruct (forallb isspace (rdbuf (m_file self))).
    + destruct H as [_ H]. specialize (H eq_refl). discriminate.
    + destruct (extract num_get_int (istringstream (c :: line)) lbl).
      destruct (read_pairs _ _ _ _ _ _). reflexivity.
Qed.

(** C1, at the two files that hold the lines [1 1:0.5 3:2.0] and
    [-1 2:1.0], the last line with its newline or without.  With the
    newline everything is as claimed: shape 3 and 2 samples.  Without it
    the shape is 3 but the constructor counts 1 sample: the scan stops at
    the end of the file before counting the line it has just read.  In
    both files the first read gives label 1 and [0.5, 0, 2], the second
    label -1 and [0, 1, 0], the third returns false and leaves label and
    vector alone, and no write falls outside the vector, whatever the
    locals and the caller's label and vector held before each call. *)
Theorem C1_two_line_scenario (fs : filesystem) (name : string)
  (content : list ascii) (u0 u1 u2 u3 : indeterminate) (l1 l2 l3 : Z)
  (a1 b1 c1 a2 b2 c2 a3 b3 c3 : double) :
  fs !! name = Some content ->
  content = two_lines \/ content = two_lines_open ->
  exists f0 f1 f2 f3,
    SVMFile fs u0 name = Ok f0 /\
    m_shape f0 = 3 /\
    (content = two_lines -> m_n_samples f0 = 2) /\
    (content = two_lines_open -> m_n_samples f0 = 1) /\
    read u1 f0 l1 [a1; b1; c1]
      = Ok (mk_outcome true 1 [half; d0; d2] [], f1) /\
    read u2 f1 l2 [a2; b2; c2]
      = Ok (mk_outcome true (-1) [d0; d1; d0] [], f2) /\
    read u3 f2 l3 [a3; b3; c3]
      = Ok (mk_outcome false l3 [a3; b3; c3] [], f3).
Proof.
  intros Hfs [-> | ->]; unfold SVMFile, open; rewrite Hfs.
  - do 4 eexists.
    split; [vm_compute; reflexivity|].
    split; [reflexivity|].
    split; [intros _; reflexivity|].
    split; [intros E; vm_compute in E; discriminate E|].
    split; [vm_compute; reflexivity|].
    split; [vm_compute; reflexivity|].
    vm_compute. reflexivity.
  - do 4 eexists.
    split; [vm_compute; reflexivity|].
    split; [reflexivity|].
    split; [intros E; vm_compute in E; discriminate E|].
    split; [intros _; reflexivity|].
    split; [vm_compute; reflexivity|].
    split; [vm_compute; reflexivity|].
    vm_compute. reflexivity.
Qed.

Lemma C1_two_line_scenario_witness :
  exists f0, SVMFile (disk two_lines_open) u_a "data.svm" = Ok f0 /\
             m_shape f0 = 3 /\ m_n_samples f0 = 1.
Proof.
  destruct (C1_two_line_scenario (disk two_lines_open) "data.svm"
              two_lines_open u_a u_a u_a u_a
              0 0 0 d0 d0 d0 d0 d0 d0 d0 d0 d0 (lookup_singleton_eq _ _)
              (or_intror eq_refl))
    as (f0 & f1 & f2 & f3 & H0 & Hs & _ & Hn & _).
  exists f0. split; [exact H0|]. split; [exact Hs | exact (Hn eq_refl)].
Defined.

(** C2, at a file whose last line has no newline: the scan stops at the
    end of the file before counting the line it has just read, so that
    shape and sample count are those of the first line alone, although the
    largest index in the file is 2 and it has two lines that are not
    empty.  Reading returns both records; the second one writes at
    position 1 of a vector of extent 1. *)
Theorem C2_unterminated_last_line (fs : filesystem) (name : string)
  (u0 u1 u2 u3 : indeterminate) (l1 l2 l3 : Z) (a1 a2 a3 : double) :
  fs !! name = Some unterminated ->
  exists f0 f1 f2 f3,
    SVMFile fs u0 name = Ok f0 /\
    m_shape f0 = 1 /\ m_n_samples f0 = 1 /\
    read u1 f0 l1 [a1] = Ok (mk_outcome true 1 [half] [], f1) /\
    read u2 f1 l2 [a2] = Ok (mk_outcome true (-1) [d0] [(1, d1)], f2) /\
    read u3 f2 l3 [a3] = Ok (mk_outcome false l3 [a3] [], f3).
Proof.
  intros Hfs. unfold SVMFile, open. rewrite Hfs.
  do 4 eexists.
  split; [vm_compute; reflexivity|].
  split; [reflexivity|]. split; [reflexivity|].
  split; [vm_compute; reflexivity|].
  split; [vm_compute; reflexivity|].
  vm_compute. reflexivity.
Qed.

Lemma C2_unterminated_last_line_witness :
  exists f0, SVMFile (disk unterminated) u_a "data.svm" = Ok f0 /\
             m_shape f0 = 1 /\ m_n_samples f0 = 1.
Proof.
  destruct (C2_unterminated_last_line (disk unterminated) "data.svm"
              u_a u_a u_a u_a 0 0 0 d0 d0 d0 (lookup_singleton_eq _ _))
    as (f0 & f1 & f2 & f3 & H0 & Hs & Hn & _).
  exists f0. repeat split; assumption.
Defined.

End RecordFile.

(** * Reading well-formed text *)

Section Tokens.

Lemma span_app p ds rest :
  forallb p ds = true -> stops p rest -> span p (ds ++ rest) = (ds, rest).
Proof.
  intros Hds Hrest. induction ds as [|c ds IH]; simpl in *.
  - destruct rest as [|c r]; [reflexivity|]. simpl in *. rewrite Hrest.
    reflexivity.
  - apply andb_true_iff in Hds as [Hc Hds]. rewrite Hc, (IH Hds). reflexivity.
Qed.

Lemma digit_not_sign c :
  isdigit c = true -> is_char "-" c = false /\ is_char "+" c = false.
Proof.
  unfold isdigit, is_char. intros H. apply andb_true_iff in H as [H1 H2].
  apply Z.leb_le in H1. change (code "-") with 45. change (code "+") with 43.
  split; apply Z.eqb_neq; lia.
Qed.

Lemma digit_not_space c : isdigit c = true -> isspace c = false.
Proof.
  unfold isdigit, isspace. intros H. apply andb_true_iff in H as [H1 H2].
  apply Z.leb_le in H1.
  apply orb_false_iff. split; [apply Z.eqb_neq; lia|].
  apply andb_false_iff. right. apply Z.leb_gt. lia.
Qed.

Lemma digits_cons ds :
  digits ds = true ->
  exists c r, ds = c :: r /\ isdigit c = true /\ forallb isdigit r = true.
Proof.
  unfold digits. destruct ds as [|c r]; simpl; [discriminate|].
  intros H. apply andb_true_iff in H. exists c, r. tauto.
Qed.

Lemma digits_forall ds : digits ds = true -> forallb isdigit ds = true.
Proof. unfold digits. intros H. apply andb_true_iff in H. tauto. Qed.

Lemma digits_value_nonneg_from (ds : list ascii) (acc : Z) :
  0 <= acc -> forallb isdigit ds = true ->
  0 <= fold_left (fun (a : Z) (c : ascii) => 10 * a + digit c) ds acc.
Proof.
  revert acc. induction ds as [|c ds IH]; intros acc Hacc H; simpl in *; [lia|].
  apply andb_true_iff in H as [Hc H]. apply IH; [|exact H].
  unfold isdigit, digit in *. apply andb_true_iff in Hc as [H1 H2].
  apply Z.leb_le in H1. lia.
Qed.

Lemma digits_value_nonneg ds : forallb isdigit ds = true -> 0 <= digits_value ds.
Proof. apply digits_value_nonneg_from. lia. Qed.

Lemma sign_split (neg : bool) (c : ascii) (t : list ascii) :
  isdigit c = true ->
  match sign_text neg ++ c :: t with
  | c0 :: r0 => if is_char "-" c0 then (true, r0)
                else if is_char "+" c0 then (false, r0)
                else (false, sign_text neg ++ c :: t)
  | [] => (false, [])
  end = (neg, c :: t).
Proof.
  intros Hc. destruct neg; cbn [sign_text app].
  - reflexivity.
  - destruct (digit_not_sign c Hc) as [-> ->]. reflexivity.
Qed.

(** An integer in range, followed by something that is not a digit, is
    read in full. *)
Lemma num_get_integer_text (signed : bool) (lo hi : Z) (neg : bool)
  (ds rest : list ascii) :
  digits ds = true -> stops isdigit rest ->
  lo <= 0 <= hi ->
  (if neg then digits_value ds <= - lo else digits_value ds <= hi) ->
  (neg = true -> signed = true) ->
  num_get_integer signed lo hi (sign_text neg ++ ds ++ rest)
  = ((if neg then - digits_value ds else digits_value ds), false, rest).
Proof.
  intros Hds Hrest Hlohi Hrange Hsigned.
  destruct (digits_cons ds Hds) as (c & r & -> & Hc & Hr).
  assert (Hspan : span isdigit ((c :: r) ++ rest) = (c :: r, rest)).
  { apply span_app; [simpl; rewrite Hc; exact Hr | exact Hrest]. }
  unfold num_get_integer.
  change ((c :: r) ++ rest) with (c :: r ++ rest) in *.
  rewrite (sign_split neg c (r ++ rest) Hc), Hspan. cbv iota.
  destruct neg.
  - rewrite Hsigned by reflexivity.
    destruct (digits_value (c :: r) <=? - lo) eqn:E; [reflexivity|].
    apply Z.leb_gt in E. lia.
  - assert (E : (digits_value (c :: r) <=? hi) = true)
      by (apply Z.leb_le; exact Hrange).
    rewrite E. destruct signed; reflexivity.
Qed.

Lemma delimited_stops_digit rest : delimited rest -> stops isdigit rest.
Proof. destruct rest as [|c r]; simpl; [tauto|]. intros ->. reflexivity. Qed.

Lemma finite_convert (w : double) (rest : list ascii) :
  is_finite w = true ->
  match w with
  | S754_zero s => (S754_zero s, false, rest)
  | S754_infinity sg => (DBL_MAX sg, true, rest)
  | S754_nan => (S754_nan, false, rest)
  | S754_finite s m e => (S754_finite s m e, false, rest)
  end = (w, false, rest).
Proof. destruct w; try reflexivity. discriminate. Qed.

(** A decimal number with a finite value, followed by a space or by
    nothing, is read in full. *)
Lemma num_get_double_text (x : numeral) rest :
  numeral_ok x = true -> delimited rest ->
  num_get_double (numeral_text x ++ rest) = (numeral_value x, false, rest).
Proof.
  destruct x as [neg ip fp]. unfold numeral_ok, numeral_text, numeral_value.
  cbn [minus int_part frac_part]. intros Hok Hrest.
  apply andb_true_iff in Hok as [Hok Hfin].
  apply andb_true_iff in Hok as [Hip Hfp].
  destruct (digits_cons ip Hip) as (c & r & -> & Hc & Hr).
  set (v := double_of_decimal neg (digits_value ((c :: r) ++ fp))
              (0 - Z.of_nat (length fp))) in *.
  assert (Hstop : stops isdigit (frac_text fp ++ rest)).
  { destruct fp; simpl; [apply delimited_stops_digit, Hrest | reflexivity]. }
  assert (Hspan : span isdigit ((c :: r) ++ frac_text fp ++ rest)
                  = (c :: r, frac_text fp ++ rest)).
  { apply span_app; [simpl; rewrite Hc; exact Hr | exact Hstop]. }
  unfold num_get_double. rewrite <- !app_assoc.
  change ((c :: r) ++ frac_text fp ++ rest)
    with (c :: r ++ frac_text fp ++ rest) in *.
  rewrite (sign_split neg c (r ++ frac_text fp ++ rest) Hc), Hspan.
  cbv zeta iota beta.
  destruct fp as [|f fp].
  - cbn [frac_text app].
    destruct rest as [|c0 rest].
    + cbn [at_end app orb andb negb]. exact (finite_convert v [] Hfin).
    + simpl in Hrest. subst c0.
      change (is_char "." " ") with false.
      change (is_char "e" " ") with false. change (is_char "E" " ") with false.
      cbv iota. cbn [at_end app orb andb negb].
      exact (finite_convert v _ Hfin).
  - cbn [frac_text app]. change (is_char "." ".") with true. cbv iota.
    change (f :: fp ++ rest) with ((f :: fp) ++ rest).
    rewrite (span_app isdigit (f :: fp) rest Hfp (delimited_stops_digit _ Hrest)).
    cbv iota.
    destruct rest as [|c0 rest].
    + cbn [at_end app orb andb negb]. exact (finite_convert v [] Hfin).
    + simpl in Hrest. subst c0.
      change (is_char "e" " ") with false. change (is_char "E" " ") with false.
      cbn [at_end app orb andb negb]. exact (finite_convert v _ Hfin).
Qed.

(** * The stream of a record line *)

Lemma pairs_text_delimited ps : delimited (pairs_text ps).
Proof. destruct ps as [|[i v] ps]; simpl; reflexivity || exact I. Qed.

Lemma sentry_at (c : ascii) (r : list ascii) :
  isspace c = false ->
  sentry (mk_istream (c :: r) false false) = (true, mk_istream (c :: r) false false).
Proof. intros Hc. unfold sentry. simpl. rewrite Hc. reflexivity. Qed.

Lemma sentry_space (c : ascii) (r : list ascii) :
  isspace c = false ->
  sentry (mk_istream (" "%char :: c :: r) false false)
  = (true, mk_istream (c :: r) false false).
Proof. intros Hc. unfold sentry. simpl. rewrite Hc. reflexivity. Qed.

Lemma sentry_exhausted (b : bool) :
  sentry (mk_istream [] true b) = (false, mk_istream [] true true).
Proof. reflexivity. Qed.

Lemma numeral_text_head (x : numeral) :
  numeral_ok x = true ->
  exists c t, numeral_text x = c :: t /\ isspace c = false.
Proof.
  destruct x as [neg ip fp]. unfold numeral_ok, numeral_text.
  cbn [minus int_part frac_part]. intros H.
  apply andb_true_iff in H as [H _]. apply andb_true_iff in H as [H _].
  destruct (digits_cons ip H) as (c & r & -> & Hc & _).
  destruct neg; simpl; eexists; eexists; split; try reflexivity.
  apply digit_not_space, Hc.
Qed.

(** One round of extractions on a line that has a pair left. *)
Lemma extract_round (signed : bool) (lo hi : Z) (p : list ascii * numeral)
  (ps : list (list ascii * numeral)) (pos : Z) (sep : ascii) (val : double) :
  digits p.1 = true -> numeral_ok p.2 = true ->
  lo <= 0 <= hi -> digits_value p.1 <= hi ->
  exists iss1 iss2,
    extract (num_get_integer signed lo hi) (iss_at (p :: ps)) pos
      = (iss1, digits_value p.1) /\
    extract_char iss1 sep = (iss2, ":"%char) /\
    extract num_get_double iss2 val = (iss_at ps, numeral_value p.2).
Proof.
  destruct p as [i v]. cbn [fst snd]. intros Hi Hv Hlohi Hrange.
  destruct (digits_cons i Hi) as (c & r & -> & Hc & Hr).
  destruct (numeral_text_head v Hv) as (cv & tv & Etv & Hcv).
  exists (mk_istream (":"%char :: numeral_text v ++ pairs_text ps) false false),
         (mk_istream (numeral_text v ++ pairs_text ps) false false).
  split; [|split].
  - unfold extract, iss_at, pairs_text. cbn [flat_map pair_text fst snd app at_end].
    rewrite (sentry_space c _ (digit_not_space c Hc)). cbn [rdbuf].
    rewrite <- app_assoc. cbn [app].
    change (c :: r ++ ":"%char :: numeral_text v ++ flat_map pair_text ps)
      with (sign_text false ++ (c :: r) ++ ":"%char :: numeral_text v
              ++ flat_map pair_text ps).
    rewrite num_get_integer_text; try assumption; try reflexivity; try discriminate.
  - unfold extract_char. rewrite sentry_at by reflexivity. reflexivity.
  - unfold extract. rewrite Etv. cbn [app].
    rewrite (sentry_at cv _ Hcv). cbn [rdbuf].
    change (cv :: tv ++ pairs_text ps) with ((cv :: tv) ++ pairs_text ps).
    rewrite <- Etv.
    rewrite (num_get_double_text v _ Hv (pairs_text_delimited ps)).
    reflexivity.
Qed.

(** Once the line is exhausted, a round changes neither local. *)
Lemma extract_exhausted (signed : bool) (lo hi : Z) (b : bool) (pos : Z)
  (sep : ascii) (val : double) :
  extract (num_get_integer signed lo hi) (mk_istream [] true b) pos
    = (mk_istream [] true true, pos) /\
  extract_char (mk_istream [] true true) sep = (mk_istream [] true true, sep) /\
  extract num_get_double (mk_istream [] true true) val
    = (mk_istream [] true true, val).
Proof. repeat split. Qed.

End Tokens.

Section Lines.

Import SVMFile.

Lemma last_cons {A : Type} (a d : A) (l : list A) :
  List.last (a :: l) d = List.last l a.
Proof.
  revert a d. induction l as [|b l IH]; intros a d; [reflexivity|].
  change (List.last (a :: b :: l) d) with (List.last (b :: l) d).
  rewrite !IH. reflexivity.
Qed.

Lemma apply_writes_cons w ws vals log :
  apply_writes (w :: ws) vals log
  = apply_writes ws (blitz_write vals (w.1 - 1) w.2 log).1
                    (blitz_write vals (w.1 - 1) w.2 log).2.
Proof.
  unfold apply_writes. cbn [foldl fst snd].
  destruct (blitz_write vals (w.1 - 1) w.2 log). reflexivity.
Qed.

Lemma read_pairs_exhausted k : forall b pos val vals log,
  read_pairs k (mk_istream [] true b) pos val vals log
  = apply_writes (repeat (pos, val) k) vals log.
Proof.
  induction k as [|k IH]; intros b pos val vals log; [reflexivity|].
  cbn [read_pairs repeat]. rewrite apply_writes_cons. cbn [fst snd].
  destruct (extract_exhausted true INT_MIN INT_MAX b pos " "%char val)
    as (E1 & E2 & E3).
  unfold num_get_int. rewrite E1, E2, E3.
  destruct (blitz_write vals (pos - 1) val log) as [vals1 log1].
  apply IH.
Qed.

(** The loop of [read_] on a record line performs the writes of [written]. *)
Lemma read_pairs_written k : forall ps pos val vals log,
  forallb pair_ok ps = true ->
  read_pairs k (iss_at ps) pos val vals log
  = apply_writes (written k (pair_value <$> ps) (pos, val)) vals log.
Proof.
  induction k as [|k IH]; intros ps pos val vals log Hok; [reflexivity|].
  destruct ps as [|p ps].
  - unfold written. cbn [fmap list_fmap take length List.last app].
    rewrite Nat.sub_0_r. apply read_pairs_exhausted.
  - cbn [forallb] in Hok. apply andb_true_iff in Hok as [Hp Hok].
    unfold pair_ok in Hp. apply andb_true_iff in Hp as [Hp Hv].
    apply andb_true_iff in Hp as [Hi Hr]. apply Z.leb_le in Hr.
    destruct (extract_round true INT_MIN INT_MAX p ps pos " "%char val Hi Hv)
      as (iss1 & iss2 & E1 & E2 & E3);
      [unfold INT_MIN, INT_MAX; lia | exact Hr |].
    cbn [read_pairs]. unfold num_get_int. rewrite E1, E2, E3.
    unfold written. cbn [fmap list_fmap take length app].
    rewrite apply_writes_cons. cbn [pair_value fst snd].
    destruct (blitz_write vals (digits_value p.1 - 1) (numeral_value p.2) log)
      as [vals1 log1].
    rewrite (IH ps _ _ _ _ Hok). unfold written. cbn [fst snd].
    rewrite last_cons. reflexivity.
Qed.

Lemma written_length k ps u : length (written k ps u) = k.
Proof.
  unfold written. rewrite length_app, length_take, repeat_length. lia.
Qed.

(** ** The text of a record *)

Lemma digit_not_newline c : isdigit c = true -> negb (is_char "010" c) = true.
Proof.
  unfold isdigit, is_char. intros H. apply andb_true_iff in H as [H1 H2].
  apply Z.leb_le in H1. change (code "010") with 10.
  apply negb_true_iff, Z.eqb_neq. lia.
Qed.

Lemma digit_not_colon c : isdigit c = true -> is_colon c = false.
Proof.
  unfold isdigit, is_colon, is_char. intros H. apply andb_true_iff in H as [H1 H2].
  apply Z.leb_le in H2. change (code ":") with 58. apply Z.eqb_neq. lia.
Qed.

Lemma no_newline_digits ds : forallb isdigit ds = true -> no_newline ds = true.
Proof.
  unfold no_newline. induction ds as [|c ds IH]; simpl; [reflexivity|].
  intros H. apply andb_true_iff in H as [Hc H].
  rewrite (digit_not_newline c Hc), (IH H). reflexivity.
Qed.

Lemma no_newline_app a b :
  no_newline (a ++ b) = no_newline a && no_newline b.
Proof. apply forallb_app. Qed.

Lemma no_newline_numeral x : numeral_ok x = true -> no_newline (numeral_text x) = true.
Proof.
  destruct x as [neg ip fp]. unfold numeral_ok, numeral_text.
  cbn [minus int_part frac_part]. intros H.
  apply andb_true_iff in H as [H _]. apply andb_true_iff in H as [Hip Hfp].
  rewrite !no_newline_app, (no_newline_digits ip (digits_forall ip Hip)).
  replace (no_newline (sign_text neg)) with true by (destruct neg; reflexivity).
  destruct fp as [|f fp]; [reflexivity|]. cbn [frac_text].
  change (no_newline ("."%char :: f :: fp)) with (no_newline (f :: fp)).
  rewrite (no_newline_digits _ Hfp). reflexivity.
Qed.

Lemma no_newline_pair p : pair_ok p = true -> no_newline (pair_text p) = true.
Proof.
  destruct p as [i v]. unfold pair_ok, pair_text. cbn [fst snd]. intros Hp.
  apply andb_true_iff in Hp as [Hp Hv]. apply andb_true_iff in Hp as [Hi _].
  change (no_newline (" "%char :: i ++ ":"%char :: numeral_text v))
    with (no_newline (i ++ ":"%char :: numeral_text v)).
  rewrite no_newline_app, (no_newline_digits i (digits_forall i Hi)).
  change (no_newline (":"%char :: numeral_text v))
    with (no_newline (numeral_text v)).
  rewrite (no_newline_numeral v Hv). reflexivity.
Qed.

Lemma no_newline_pairs ps :
  forallb pair_ok ps = true -> no_newline (pairs_text ps) = true.
Proof.
  induction ps as [|p ps IH]; [reflexivity|]. cbn [forallb]. intros H.
  apply andb_true_iff in H as [Hp H].
  unfold pairs_text. cbn [flat_map].
  rewrite no_newline_app, (no_newline_pair p Hp). apply (IH H).
Qed.

Lemma sample_ok_parts s :
  sample_ok s = true ->
  digits (s_label s) = true /\ INT_MIN <= label_value s <= INT_MAX /\
  forallb pair_ok (s_pairs s) = true.
Proof.
  unfold sample_ok. intros H. apply andb_true_iff in H as [H Hps].
  apply andb_true_iff in H as [H Hhi]. apply andb_true_iff in H as [Hl Hlo].
  apply Z.leb_le in Hlo, Hhi. auto.
Qed.

Lemma no_newline_sample s : sample_ok s = true -> no_newline (sample_text s) = true.
Proof.
  intros H. destruct (sample_ok_parts s H) as (Hl & _ & Hps).
  unfold sample_text. rewrite !no_newline_app.
  rewrite (no_newline_digits _ (digits_forall _ Hl)), (no_newline_pairs _ Hps).
  destruct (s_minus s); reflexivity.
Qed.

Lemma getline_scan_line l rest :
  no_newline l = true ->
  getline_scan (l ++ "010"%char :: rest) = (l, Some rest).
Proof.
  unfold no_newline. induction l as [|c l IH]; simpl; [reflexivity|].
  intros H. apply andb_true_iff in H as [Hc H]. apply negb_true_iff in Hc.
  rewrite Hc, (IH H). reflexivity.
Qed.

Lemma ends_nonspace_app a b : ends_nonspace b -> ends_nonspace (a ++ b).
Proof.
  intros (s' & c & -> & Hc). exists (a ++ s'), c.
  split; [apply app_assoc | exact Hc].
Qed.

Lemma ends_nonspace_digits ds : digits ds = true -> ends_nonspace ds.
Proof.
  intros H. destruct (digits_cons ds H) as (c & r & -> & Hc & Hr).
  destruct (exists_last (l := c :: r)) as (s' & a & E); [discriminate|].
  exists s', a. split; [exact E|]. apply digit_not_space.
  assert (Hall : forallb isdigit (c :: r) = true) by (simpl; rewrite Hc; exact Hr).
  rewrite E, forallb_app in Hall. apply andb_true_iff in Hall as [_ Ha].
  simpl in Ha. rewrite andb_true_r in Ha. exact Ha.
Qed.

Lemma ends_nonspace_numeral x : numeral_ok x = true -> ends_nonspace (numeral_text x).
Proof.
  destruct x as [neg ip fp]. unfold numeral_ok, numeral_text.
  cbn [minus int_part frac_part]. intros H.
  apply andb_true_iff in H as [H _]. apply andb_true_iff in H as [Hip Hfp].
  apply ends_nonspace_app. destruct fp as [|f fp].
  - cbn [frac_text]. rewrite app_nil_r. apply ends_nonspace_digits, Hip.
  - apply ends_nonspace_app. cbn [frac_text].
    apply (ends_nonspace_app ["."%char]). apply ends_nonspace_digits.
    unfold digits. exact Hfp.
Qed.

Lemma ends_nonspace_pairs p ps :
  forallb pair_ok (p :: ps) = true -> ends_nonspace (pairs_text (p :: ps)).
Proof.
  revert p. induction ps as [|q ps IH]; intros [i v] H.
  - cbn [forallb] in H. rewrite andb_true_r in H. unfold pair_ok in H.
    apply andb_true_iff in H as [_ Hv]. cbn [snd] in Hv.
    unfold pairs_text. cbn [flat_map]. rewrite app_nil_r.
    replace (pair_text (i, v))
      with ((" "%char :: i ++ [":"%char]) ++ numeral_text v)
      by (unfold pair_text; cbn [fst snd app]; rewrite <- app_assoc; reflexivity).
    apply ends_nonspace_app, ends_nonspace_numeral, Hv.
  - cbn [forallb] in H. apply andb_true_iff in H as [_ H].
    unfold pairs_text. cbn [flat_map]. apply ends_nonspace_app. apply (IH q H).
Qed.

Lemma ends_nonspace_sample s : sample_ok s = true -> ends_nonspace (sample_text s).
Proof.
  intros H. destruct (sample_ok_parts s H) as (Hl & _ & Hps).
  unfold sample_text. apply ends_nonspace_app.
  destruct (s_pairs s) as [|p ps].
  - cbn [pairs_text flat_map]. rewrite app_nil_r. apply ends_nonspace_digits, Hl.
  - apply ends_nonspace_app, ends_nonspace_pairs, Hps.
Qed.

Lemma sample_text_head s :
  sample_ok s = true ->
  exists c t, sample_text s = c :: t /\ isspace c = false.
Proof.
  intros H. destruct (sample_ok_parts s H) as (Hl & _ & _).
  destruct (digits_cons _ Hl) as (c & r & E & Hc & _).
  unfold sample_text. rewrite E.
  destruct (s_minus s); simpl; eexists; eexists; split; try reflexivity.
  apply digit_not_space, Hc.
Qed.

Lemma trim_id s :
  (exists c t, s = c :: t /\ isspace c = false) -> ends_nonspace s -> trim s = s.
Proof.
  intros (c & t & E & Hc) (s' & a & E' & Ha). unfold trim.
  assert (H1 : skip_while isspace s = s) by (rewrite E; simpl; rewrite Hc; reflexivity).
  rewrite H1. rewrite E' at 1. rewrite rev_unit. simpl. rewrite Ha.
  change (a :: rev s') with ([a] ++ rev s'). rewrite rev_app_distr.
  rewrite rev_involutive. simpl. symmetry. exact E'.
Qed.

Lemma trim_sample s : sample_ok s = true -> trim (sample_text s) = sample_text s.
Proof.
  intros H. apply trim_id; [apply sample_text_head, H | apply ends_nonspace_sample, H].
Qed.

(** The label of a record line is read, and the stream stands before the
    pairs. *)
Lemma extract_label s lbl :
  sample_ok s = true ->
  extract num_get_int (istringstream (sample_text s)) lbl
  = (iss_at (s_pairs s), label_value s).
Proof.
  intros H. destruct (sample_ok_parts s H) as (Hl & Hrange & _).
  destruct (sample_text_head s H) as (c & t & E & Hc).
  unfold extract, istringstream. rewrite E, (sentry_at c t Hc). cbn [rdbuf].
  rewrite <- E. unfold sample_text, num_get_int.
  rewrite num_get_integer_text.
  - reflexivity.
  - exact Hl.
  - apply delimited_stops_digit, pairs_text_delimited.
  - unfold INT_MIN, INT_MAX. lia.
  - unfold label_value in Hrange. destruct (s_minus s); lia.
  - reflexivity.
Qed.

(** ** The lines of a file *)

Lemma blank_spaces ws :
  forallb blank ws = true -> no_newline ws = true /\ forallb isspace ws = true.
Proof.
  unfold no_newline. induction ws as [|c ws IH]; simpl; [auto|].
  intros H. apply andb_true_iff in H as [Hc H]. unfold blank in Hc.
  apply andb_true_iff in Hc as [Hs Hn]. destruct (IH H) as [-> ->].
  rewrite Hs, Hn. auto.
Qed.

Lemma file_text_cons ln lines :
  file_text (ln :: lines) = line_text ln ++ "010"%char :: file_text lines.
Proof. unfold file_text. cbn [flat_map]. rewrite <- app_assoc. reflexivity. Qed.

Lemma file_text_length lines : (length lines <= length (file_text lines))%nat.
Proof.
  induction lines as [|ln lines IH]; [reflexivity|].
  rewrite file_text_cons, length_app. simpl. lia.
Qed.

(** The loop for the next line skips the blank lines and stops after the
    first record; without a record it runs into the end of the file. *)
Lemma next_line_lines fuel : forall lines,
  forallb line_ok lines = true ->
  (length (file_text lines) < fuel)%nat ->
  next_line fuel (mk_istream (file_text lines) false false) []
  = match first_sample lines with
    | Some (s, rest) => (mk_istream (file_text rest) false false, sample_text s)
    | None => (mk_istream [] true true, [])
    end.
Proof.
  induction fuel as [|fuel IH]; intros lines Hok Hfuel; [lia|].
  destruct lines as [|ln lines].
  - destruct fuel; reflexivity.
  - cbn [forallb] in Hok. apply andb_true_iff in Hok as [Hln Hok].
    rewrite file_text_cons in *. rewrite length_app in Hfuel. cbn [length] in Hfuel.
    cbn [next_line good eofbit failbit negb andb]. unfold getline.
    cbn [good eofbit failbit negb andb rdbuf].
    destruct ln as [ws|s]; cbn [line_ok line_text first_sample] in *.
    + destruct (blank_spaces ws Hln) as [Hnn Hsp].
      rewrite (getline_scan_line ws _ Hnn).
      replace (trim ws) with (@nil ascii) by (symmetry; apply trim_nil, Hsp).
      apply IH; [exact Hok | lia].
    + rewrite (getline_scan_line _ _ (no_newline_sample s Hln)).
      rewrite (trim_sample s Hln).
      destruct (sample_text_head s Hln) as (c & t & -> & _).
      destruct fuel; reflexivity.
Qed.

Lemma get_line_lines lines :
  forallb line_ok lines = true ->
  get_line (mk_istream (file_text lines) false false)
  = match first_sample lines with
    | Some (s, rest) => (mk_istream (file_text rest) false false, sample_text s)
    | None => (mk_istream [] true true, [])
    end.
Proof. intros H. apply next_line_lines; [exact H | simpl; lia]. Qed.

(** [read_] before the lines of a file: the first record is returned, with
    the writes of [written] on a vector of zeros. *)
Lemma read__lines u self lbl vals lines :
  forallb line_ok lines = true ->
  m_file self = mk_istream (file_text lines) false false ->
  read_ u self lbl vals
  = match first_sample lines with
    | Some (s, rest) =>
        let w := apply_writes
                   (written (Z.to_nat (m_shape self)) (pair_value <$> s_pairs s)
                            (to_int (u_pos u), u_value u))
                   (blitz_fill vals d0) [] in
        (mk_outcome true (label_value s) w.1 w.2,
         mk (m_filename self) (mk_istream (file_text rest) false false)
            (m_shape self) (m_n_samples self))
    | None =>
        (mk_outcome false lbl vals [],
         mk (m_filename self) (mk_istream [] true true) (m_shape self)
            (m_n_samples self))
    end.
Proof.
  intros Hok Hf. unfold read_. rewrite Hf.
  cbn [good eofbit failbit negb andb]. rewrite (get_line_lines lines Hok).
  destruct (first_sample lines) as [[s rest]|] eqn:Efs; [|reflexivity].
  assert (Hs : sample_ok s = true).
  { clear -Hok Efs. induction lines as [|[ws|s0] lines IH]; [discriminate| |].
    - cbn [forallb first_sample] in *. apply andb_true_iff in Hok as [_ Hok].
      apply IH; assumption.
    - cbn [forallb first_sample line_ok] in *. injection Efs as -> ->.
      apply andb_true_iff in Hok as [Hok _]. exact Hok. }
  destruct (sample_text_head s Hs) as (c & t & E & _).
  rewrite E. rewrite <- E.
  rewrite (extract_label s lbl Hs).
  destruct (sample_ok_parts s Hs) as (_ & _ & Hps).
  rewrite (read_pairs_written _ _ _ _ _ _ Hps).
  destruct (apply_writes _ _ _) as [vals1 log1]. reflexivity.
Qed.

End Lines.

(** * The writes of [read_] *)

Section Writes.

Import SVMFile.

Lemma blitz_write_in vals i v log :
  0 <= i < extent vals ->
  blitz_write vals i v log = (<[Z.to_nat i := v]> vals, log).
Proof.
  intros H. unfold blitz_write, in_range.
  replace (0 <=? i) with true by (symmetry; apply Z.leb_le; lia).
  replace (i <? extent vals) with true by (symmetry; apply Z.ltb_lt; lia).
  reflexivity.
Qed.

Lemma blitz_write_out vals i v log :
  ~ (0 <= i < extent vals) ->
  blitz_write vals i v log = (vals, log ++ [(i, v)]).
Proof.
  intros H. unfold blitz_write, in_range.
  destruct (0 <=? i) eqn:E1; [|reflexivity].
  destruct (i <? extent vals) eqn:E2; [|reflexivity].
  apply Z.leb_le in E1. apply Z.ltb_lt in E2. lia.
Qed.

Lemma blitz_write_extent vals i v log :
  extent (blitz_write vals i v log).1 = extent vals.
Proof.
  unfold blitz_write. destruct (in_range vals i); [|reflexivity].
  unfold extent. simpl. rewrite length_insert. reflexivity.
Qed.

(** Writes at positions of the vector leave the log as it is. *)
Lemma apply_writes_in ws : forall vals log,
  Forall (fun w => 1 <= w.1 <= extent vals) ws ->
  (apply_writes ws vals log).2 = log.
Proof.
  induction ws as [|w ws IH]; intros vals log H; [reflexivity|].
  inversion H as [|? ? Hw Hws]; subst.
  rewrite apply_writes_cons. rewrite blitz_write_in by lia. cbn [fst snd].
  apply IH. unfold extent in *. rewrite length_insert. exact Hws.
Qed.

Lemma apply_writes_log ws : forall vals log,
  (length log <= length (apply_writes ws vals log).2)%nat.
Proof.
  induction ws as [|w ws IH]; intros vals log; [reflexivity|].
  rewrite apply_writes_cons. etransitivity; [|apply IH].
  unfold blitz_write. destruct (in_range vals (w.1 - 1)); simpl; [lia|].
  rewrite length_app. simpl. lia.
Qed.

Lemma last_in {A : Type} (l : list A) (d : A) : l <> [] -> List.last l d ∈ l.
Proof.
  intros H. destruct (exists_last H) as (l' & a & ->).
  rewrite last_last. apply elem_of_app. right. apply list_elem_of_singleton.
  reflexivity.
Qed.

Lemma written_in k (ps : list (Z * double)) u (P : Z * double -> Prop) :
  ps <> [] -> Forall P ps -> Forall P (written k ps u).
Proof.
  intros Hne H. unfold written. apply Forall_app. split.
  - apply Forall_take, H.
  - apply Forall_forall. intros x Hx. apply list_elem_of_In, repeat_spec in Hx.
    subst x. rewrite Forall_forall in H. apply H, last_in, Hne.
Qed.

Lemma getline_scan_open l : no_newline l = true -> getline_scan l = (l, None).
Proof.
  induction l as [|c l IH]; [reflexivity|]. cbn [no_newline forallb getline_scan].
  intros H. apply andb_true_iff in H as [Hc Hl].
  destruct (is_char "010" c); [discriminate|].
  unfold no_newline in IH. rewrite (IH Hl). reflexivity.
Qed.

Lemma next_line_found fuel f c t : next_line fuel f (c :: t) = (f, c :: t).
Proof. destruct fuel; reflexivity. Qed.

(** The line that [read_] gets when the stream stands before a record,
    or before blank lines and a record. *)
Lemma next_line_record (s : sample) (tail : list ascii) :
  sample_ok s = true -> line_end tail ->
  forall (blanks : list (list ascii)) (fuel : nat),
  forallb (forallb blank) blanks = true ->
  (length (file_text (Blank <$> blanks) ++ sample_text s ++ tail) < fuel)%nat ->
  next_line fuel
    (mk_istream (file_text (Blank <$> blanks) ++ sample_text s ++ tail)
       false false) []
  = (after_line tail, sample_text s).
Proof.
  intros Hs Ht blanks.
  induction blanks as [|ws blanks IH]; intros fuel Hb Hfuel.
  - destruct fuel as [|fuel]; [lia|].
    cbn [fmap list_fmap file_text flat_map app next_line rdbuf].
    unfold getline.
    change (good (mk_istream (sample_text s ++ tail) false false)) with true.
    cbn [rdbuf].
    destruct (sample_text_head s Hs) as (c & t & E & _).
    destruct tail as [|c0 rest].
    + rewrite app_nil_r.
      rewrite (getline_scan_open _ (no_newline_sample s Hs)).
      rewrite (trim_sample s Hs). rewrite E at 1. cbn [at_end].
      rewrite E. apply next_line_found.
    + cbn [line_end] in Ht. subst c0.
      rewrite (getline_scan_line _ rest (no_newline_sample s Hs)).
      rewrite (trim_sample s Hs). rewrite E. apply next_line_found.
  - cbn [forallb] in Hb. apply andb_true_iff in Hb as [Hws Hb].
    cbn [fmap list_fmap] in *. rewrite file_text_cons in *.
    cbn [line_text] in *. rewrite <- app_assoc in *.
    cbn [app] in *.
    destruct fuel as [|fuel]; [lia|].
    cbn [next_line]. unfold getline.
    match goal with
    | |- context [good ?f] => change (good f) with true
    end.
    cbn [rdbuf].
    destruct (blank_spaces ws Hws) as [Hnn Hsp].
    rewrite (getline_scan_line ws _ Hnn).
    replace (trim ws) with (@nil ascii) by (symmetry; apply trim_nil, Hsp).
    apply IH; [exact Hb|].
    rewrite length_app in Hfuel. cbn [length] in Hfuel. lia.
Qed.

Lemma get_line_record (s : sample) (tail : list ascii)
  (blanks : list (list ascii)) :
  sample_ok s = true -> line_end tail ->
  forallb (forallb blank) blanks = true ->
  get_line (istringstream (file_text (Blank <$> blanks) ++ sample_text s ++ tail))
  = (after_line tail, sample_text s).
Proof.
  intros Hs Ht Hb. unfold get_line, istringstream. cbn [rdbuf].
  apply next_line_record; [exact Hs | exact Ht | exact Hb | lia].
Qed.

(** A call of [read_] on a stream that stands before a record. *)
Lemma read__record u self lbl vals (s : sample) (tail : list ascii)
  (blanks : list (list ascii)) :
  sample_ok s = true -> line_end tail ->
  forallb (forallb blank) blanks = true ->
  m_file self
  = istringstream (file_text (Blank <$> blanks) ++ sample_text s ++ tail) ->
  read_ u self lbl vals
  = let w := apply_writes
               (written (Z.to_nat (m_shape self)) (pair_value <$> s_pairs s)
                        (to_int (u_pos u), u_value u))
               (blitz_fill vals d0) [] in
    (mk_outcome true (label_value s) w.1 w.2,
     mk (m_filename self) (after_line tail) (m_shape self) (m_n_samples self)).
Proof.
  intros Hs Ht Hb Hf. unfold read_. rewrite Hf.
  cbn [istringstream good eofbit failbit negb andb].
  change (mk_istream (file_text (Blank <$> blanks) ++ sample_text s ++ tail)
            false false)
    with (istringstream (file_text (Blank <$> blanks) ++ sample_text s ++ tail)).
  rewrite (get_line_record s tail blanks Hs Ht Hb).
  destruct (sample_text_head s Hs) as (c & t & E & _).
  rewrite E. rewrite <- E.
  rewrite (extract_label s lbl Hs).
  destruct (sample_ok_parts s Hs) as (_ & _ & Hps).
  rewrite (read_pairs_written _ _ _ _ _ _ Hps).
  destruct (apply_writes _ _ _) as [vals1 log1]. reflexivity.
Qed.

(** C9, as stated: a line with fewer pairs than the shape makes a write
    fall outside the vector.  The first line of [two_lines] has two pairs
    for a shape of three, and whatever the locals held, all the three
    writes of [read_] land inside the vector. *)
Lemma C9_counterexample :
  m_shape file_a = 3 /\
  (get_line (m_file file_a)).2 = chars "1 1:0.5 3:2.0" /\
  pairs_on (chars "1 1:0.5 3:2.0") = 2%nat /\
  forall (u : indeterminate) (lbl : Z) (a b c : double),
    (read_ u file_a lbl [a; b; c]).1 = mk_outcome true 1 [half; d0; d2] [].
Proof.
  split; [reflexivity|]. split; [vm_compute; reflexivity|].
  split; [reflexivity|]. intros u lbl a b c. vm_compute. reflexivity.
Qed.

(** C9, amended.  On a line that is a well-formed record (a label, then
    pairs: one space, an index in digits, a colon, a value in digits with
    an optional sign and fraction, and nothing after the last pair; the
    line ends with a newline or with the text, and blank lines may come
    before it) [read_] makes as many rounds of extraction and as many
    writes as the shape, whatever the number of pairs on the line: the
    pairs in turn, and once they have run out the last pair again, the
    locals being left as they were.  All
    the writes land inside the vector when the record has a pair and
    every index is between 1 and the extent (and there is no write when
    the shape is zero).  When the record has no pair and the shape is not
    zero, the write uses locals that were never set, and it falls outside
    the vector unless [pos] happens to hold an index. *)
Theorem C9_writes_of_a_record (u : indeterminate) (self : t) (lbl : Z)
  (vals : list double) (s : sample) (tail : list ascii)
  (blanks : list (list ascii)) :
  sample_ok s = true ->
  line_end tail ->
  forallb (forallb blank) blanks = true ->
  m_file self
  = istringstream (file_text (Blank <$> blanks) ++ sample_text s ++ tail) ->
  let k := Z.to_nat (m_shape self) in
  let ws := written k (pair_value <$> s_pairs s) (to_int (u_pos u), u_value u) in
  let o := (read_ u self lbl vals).1 in
  length ws = k /\
  ws = take k (pair_value <$> s_pairs s)
       ++ repeat (List.last (pair_value <$> s_pairs s)
                    (to_int (u_pos u), u_value u))
            (k - length (s_pairs s)) /\
  ret o = true /\ label o = label_value s /\
  (values o, stray o) = apply_writes ws (blitz_fill vals d0) [] /\
  (s_pairs s <> [] ->
   Forall (fun p => 1 <= digits_value p.1 <= extent vals) (s_pairs s) ->
   stray o = []) /\
  (m_shape self <= 0 -> stray o = []) /\
  (s_pairs s = [] -> 0 < m_shape self ->
   ~ (1 <= to_int (u_pos u) <= extent vals) ->
   stray o <> []).
Proof.
  intros Hs Ht Hb Hf k ws o.
  pose proof (read__record u self lbl vals s tail blanks Hs Ht Hb Hf) as Hread.
  cbv zeta in Hread. fold k in Hread. fold ws in Hread.
  assert (Ho : o = mk_outcome true (label_value s)
                     (apply_writes ws (blitz_fill vals d0) []).1
                     (apply_writes ws (blitz_fill vals d0) []).2).
  { unfold o. rewrite Hread. reflexivity. }
  assert (Hext : extent (blitz_fill vals d0) = extent vals).
  { unfold extent, blitz_fill. rewrite repeat_length. reflexivity. }
  split; [apply written_length|].
  split; [unfold ws, written; rewrite length_fmap; reflexivity|].
  rewrite Ho. cbn [ret label values stray].
  split; [reflexivity|]. split; [reflexivity|].
  split; [destruct (apply_writes ws _ _); reflexivity|]. split.
  - intros Hne Hin. apply apply_writes_in. rewrite Hext. apply written_in.
    + destruct (s_pairs s); [contradiction | discriminate].
    + apply Forall_fmap. exact Hin.
  - split.
    { intros Hz. replace ws with (@nil (Z * double)); [reflexivity|].
      unfold ws, written. replace k with 0%nat by (unfold k; lia).
      rewrite take_0. reflexivity. }
    intros Hnil Hshape Hout.
    assert (Hk : exists k', k = S k') by (exists (Nat.pred k); unfold k; lia).
    destruct Hk as [k' Hk]. unfold ws. rewrite Hk, Hnil.
    unfold written. cbn [fmap list_fmap take app length List.last].
    rewrite Nat.sub_0_r. cbn [repeat app].
    rewrite apply_writes_cons. cbn [fst snd].
    rewrite blitz_write_out by (rewrite Hext; lia). cbn [fst snd].
    intros Hnone.
    pose proof (apply_writes_log (repeat (to_int (u_pos u), u_value u) k')
                  (blitz_fill vals d0)
                  ([] ++ [(to_int (u_pos u) - 1, u_value u)])) as Hlen.
    rewrite Hnone in Hlen. simpl in Hlen. lia.
Qed.

Lemma C9_writes_of_a_record_witness :
  sample_ok sample_a = true /\
  m_file (before [Sample sample_a] 3 1)
    = istringstream (sample_text sample_a ++ chars newline) /\
  (read_ u_a (before [Sample sample_a] 3 1) 0 [d0; d0; d0]).1
  = mk_outcome true 1 [half; d0; d2] [].
Proof.
  split; [reflexivity|]. split; [reflexivity|].
  destruct (C9_writes_of_a_record u_a (before [Sample sample_a] 3 1) 0
              [d0; d0; d0] sample_a (chars newline) [] eq_refl eq_refl eq_refl
              eq_refl)
    as (_ & _ & Hret & Hlabel & Hw & _).
  destruct (read_ u_a (before [Sample sample_a] 3 1) 0 [d0; d0; d0]) as [o f].
  cbn [fst] in *. destruct o as [r l v st]. cbn [ret label values stray] in *.
  rewrite Hret, Hlabel. injection Hw as -> ->. vm_compute. reflexivity.
Defined.

(** A record without a pair: the vector returned holds what [value]
    held, at the position [pos] held. *)
Example read_label_only (v : double) :
  (read_ (mk_indeterminate 1 v) (before [Sample sample_b] 1 1) 0 [d0]).1
  = mk_outcome true 1 [v] [] /\
  (read_ (mk_indeterminate 0 v) (before [Sample sample_b] 1 1) 0 [d0]).1
  = mk_outcome true 1 [d0] [(-1, v)].
Proof. split; vm_compute; reflexivity. Qed.

End Writes.

(** * The scan of the constructor *)

Section Scan.

Import SVMFile.

Lemma count_if_app p a b :
  count_if p (a ++ b) = (count_if p a + count_if p b)%nat.
Proof.
  induction a as [|c a IH]; simpl; [reflexivity|].
  destruct (p c); rewrite IH; reflexivity.
Qed.

Lemma count_colon_digits ds :
  forallb isdigit ds = true -> count_if is_colon ds = 0%nat.
Proof.
  induction ds as [|c ds IH]; simpl; [reflexivity|]. intros H.
  apply andb_true_iff in H as [Hc H]. rewrite (digit_not_colon c Hc). apply IH, H.
Qed.

Lemma count_colon_numeral x :
  numeral_ok x = true -> count_if is_colon (numeral_text x) = 0%nat.
Proof.
  destruct x as [neg ip fp]. unfold numeral_ok, numeral_text.
  cbn [minus int_part frac_part]. intros H.
  apply andb_true_iff in H as [H _]. apply andb_true_iff in H as [Hip Hfp].
  rewrite !count_if_app, (count_colon_digits ip (digits_forall ip Hip)).
  replace (count_if is_colon (sign_text neg)) with 0%nat by (destruct neg; reflexivity).
  destruct fp as [|f fp]; [reflexivity|]. cbn [frac_text].
  change (count_if is_colon ("."%char :: f :: fp))
    with (count_if is_colon (f :: fp)).
  rewrite (count_colon_digits _ Hfp). reflexivity.
Qed.

Lemma count_colon_pairs ps :
  forallb pair_ok ps = true -> count_if is_colon (pairs_text ps) = length ps.
Proof.
  induction ps as [|[i v] ps IH]; [reflexivity|]. cbn [forallb]. intros H.
  apply andb_true_iff in H as [Hp H]. unfold pair_ok in Hp. cbn [fst snd] in Hp.
  apply andb_true_iff in Hp as [Hp Hv]. apply andb_true_iff in Hp as [Hi _].
  unfold pairs_text. cbn [flat_map]. rewrite count_if_app.
  fold (pairs_text ps). rewrite (IH H). unfold pair_text. cbn [fst snd].
  change (count_if is_colon (" "%char :: i ++ ":"%char :: numeral_text v))
    with (count_if is_colon (i ++ ":"%char :: numeral_text v)).
  rewrite count_if_app, (count_colon_digits i (digits_forall i Hi)).
  change (count_if is_colon (":"%char :: numeral_text v))
    with (S (count_if is_colon (numeral_text v))).
  rewrite (count_colon_numeral v Hv). reflexivity.
Qed.

(** The constructor counts as many pairs as the record has. *)
Lemma pairs_on_sample s :
  sample_ok s = true -> pairs_on (sample_text s) = length (s_pairs s).
Proof.
  intros H. destruct (sample_ok_parts s H) as (Hl & _ & Hps).
  unfold pairs_on, sample_text. rewrite !count_if_app.
  rewrite (count_colon_digits _ (digits_forall _ Hl)), (count_colon_pairs _ Hps).
  destruct (s_minus s); reflexivity.
Qed.

Lemma scan_pairs_spec ps : forall pos val shape,
  forallb pair_ok ps = true ->
  scan_pairs (length ps) (iss_at ps) pos val shape
  = foldr Z.max shape ((fun p => digits_value p.1) <$> ps).
Proof.
  induction ps as [|p ps IH]; intros pos val shape Hok; [reflexivity|].
  cbn [forallb] in Hok. apply andb_true_iff in Hok as [Hp Hok].
  unfold pair_ok in Hp. apply andb_true_iff in Hp as [Hp Hv].
  apply andb_true_iff in Hp as [Hi Hr]. apply Z.leb_le in Hr.
  destruct (extract_round false 0 SIZE_MAX p ps pos " "%char val Hi Hv)
    as (iss1 & iss2 & E1 & E2 & E3);
    [unfold SIZE_MAX; lia | unfold SIZE_MAX, INT_MAX in *; lia |].
  cbn [length scan_pairs]. unfold num_get_size_t. rewrite E1, E2, E3.
  rewrite (IH _ _ _ Hok). cbn [fmap list_fmap foldr].
  rewrite <- foldr_max_base. f_equal.
  destruct (shape <? digits_value p.1) eqn:E;
    [apply Z.ltb_lt in E | apply Z.ltb_ge in E]; lia.
Qed.

Lemma first_sample_some lines s rest :
  forallb line_ok lines = true ->
  first_sample lines = Some (s, rest) ->
  samples lines = s :: samples rest /\ (length rest < length lines)%nat /\
  sample_ok s = true /\ forallb line_ok rest = true.
Proof.
  induction lines as [|[ws|s0] lines IH]; cbn [first_sample forallb line_ok];
    intros Hok E; [discriminate| |].
  - apply andb_true_iff in Hok as [_ Hok].
    destruct (IH Hok E) as (H1 & H2 & H3 & H4).
    repeat split; try assumption. simpl. lia.
  - injection E as -> ->. apply andb_true_iff in Hok as [Hs Hok].
    repeat split; try assumption. simpl. lia.
Qed.

Lemma first_sample_none lines : first_sample lines = None -> samples lines = [].
Proof.
  induction lines as [|[ws|s0] lines IH]; cbn [first_sample];
    intros E; [reflexivity | apply IH, E | discriminate].
Qed.

(** The scan over a file whose lines all end with a newline reaches the
    end of the file, with the largest index seen and one more sample for
    each record. *)
Lemma scan_lines fuel u : forall lines shape n,
  forallb line_ok lines = true ->
  (length lines < fuel)%nat ->
  0 <= n -> n + Z.of_nat (length (samples lines)) <= SIZE_MAX ->
  scan fuel u (mk_istream (file_text lines) false false) shape n
  = (mk_istream [] true true,
     foldr Z.max shape (flat_map indices (samples lines)),
     n + Z.of_nat (length (samples lines))).
Proof.
  induction fuel as [|fuel IH]; intros lines shape n Hok Hfuel Hn Hmax; [lia|].
  cbn [scan good eofbit failbit negb andb]. rewrite (get_line_lines lines Hok).
  destruct (first_sample lines) as [[s rest]|] eqn:E.
  - destruct (first_sample_some lines s rest Hok E) as (Hsam & Hlen & Hs & Hrest).
    cbn [good eofbit failbit negb andb].
    fold (pairs_on (sample_text s)). rewrite (pairs_on_sample s Hs).
    rewrite (extract_label s 0 Hs).
    destruct (sample_ok_parts s Hs) as (_ & _ & Hps).
    rewrite (scan_pairs_spec _ _ _ _ Hps).
    rewrite Hsam in *. cbn [length] in Hmax.
    rewrite to_size_t_id by (unfold is_size_t; lia).
    rewrite (IH rest _ _ Hrest) by lia.
    cbn [flat_map length]. f_equal; [f_equal|lia].
    rewrite foldr_max_app. apply foldr_max_swap.
  - rewrite (first_sample_none lines E). simpl. rewrite Z.add_0_r. reflexivity.
Qed.

(** For a file of well-formed lines that all end with a newline, the
    constructor finds the largest index of the file as the shape and the
    number of records as the number of samples. *)
Lemma SVMFile_lines (fs : filesystem) (u : indeterminate) (name : string)
  (lines : list line) :
  forallb line_ok lines = true ->
  Z.of_nat (length lines) <= SIZE_MAX ->
  fs !! name = Some (file_text lines) ->
  SVMFile fs u name
  = Ok (mk name (istringstream (file_text lines)) (max_index lines)
           (Z.of_nat (length (samples lines)))).
Proof.
  intros Hok Hmax Hfs. unfold SVMFile, open. rewrite Hfs.
  cbn [fail failbit rdbuf].
  assert (Hlen : (length (samples lines) <= length lines)%nat).
  { clear. induction lines as [|[ws|s] lines IH]; simpl; lia. }
  rewrite (scan_lines _ u lines 0 0 Hok); try lia.
  - reflexivity.
  - pose proof (file_text_length lines). lia.
Qed.

End Scan.

(** * Reading again after [reset] *)

Section Reset.

Import SVMFile.

Lemma read_fields u self lbl vals o self' :
  read u self lbl vals = Ok (o, self') ->
  m_filename self' = m_filename self /\ m_shape self' = m_shape self /\
  m_n_samples self' = m_n_samples self.
Proof.
  unfold read, read_.
  destruct (negb (to_size_t (extent vals) =? m_shape self)); [discriminate|].
  destruct (negb (good (m_file self))); [intros [= <- <-]; auto|].
  destruct (get_line (m_file self)) as [f1 line].
  destruct line as [|c line]; [intros [= <- <-]; auto|].
  destruct (extract num_get_int _ lbl) as [iss lbl1].
  destruct (read_pairs _ _ _ _ _ _) as [vals1 log].
  intros [= <- <-]. auto.
Qed.

Lemma after_reads_fields k : forall u self lbl vals,
  m_filename (after_reads k u self lbl vals) = m_filename self /\
  m_shape (after_reads k u self lbl vals) = m_shape self /\
  m_n_samples (after_reads k u self lbl vals) = m_n_samples self.
Proof.
  induction k as [|k IH]; intros u self lbl vals; [auto|].
  cbn [after_reads].
  destruct (read (u 0%nat) self lbl vals) as [[o self']| |] eqn:E; [|auto|auto].
  destruct (read_fields _ _ _ _ _ _ E) as (H1 & H2 & H3).
  destruct (IH (fun i => u (S i)) self' (label o) (values o)) as (I1 & I2 & I3).
  rewrite I1, I2, I3. auto.
Qed.

(** After any number of reads, [reset] brings the reader back to the state
    the constructor left it in (the file on disk being the same). *)
Lemma reset_restores (fs : filesystem) (u0 : indeterminate) (name : string)
  (f : t) (k : nat) (u : nat -> indeterminate) (lbl : Z) (vals : list double) :
  SVMFile fs u0 name = Ok f ->
  reset fs (after_reads k u f lbl vals) = f.
Proof.
  unfold SVMFile, open, reset.
  destruct (fs !! name) as [content|] eqn:E; [|discriminate].
  cbn [fail failbit rdbuf].
  destruct (scan _ u0 _ 0 0) as [[f' shape] n]. intros [= <-].
  destruct (after_reads_fields k u
              (mk name (mk_istream content false false) shape n) lbl vals)
    as (H1 & H2 & H3).
  rewrite H1, H2, H3. cbn [m_filename m_shape m_n_samples].
  unfold open. rewrite E. reflexivity.
Qed.

(** With the same contents of the locals, the pass after [reset] returns
    what the first pass returned. *)
Lemma reset_same_locals (fs : filesystem) (u0 : indeterminate) (name : string)
  (f : t) (k fuel : nat) (u u' : nat -> indeterminate) (lbl lbl' : Z)
  (vals vals' : list double) :
  SVMFile fs u0 name = Ok f ->
  read_all fuel u 0 (reset fs (after_reads k u' f lbl' vals')) lbl vals
  = read_all fuel u 0 f lbl vals.
Proof. intros H. rewrite (reset_restores fs u0 name f k u' lbl' vals' H). reflexivity. Qed.

Lemma written_any k (ps : list (Z * double)) u u' :
  ps <> [] -> written k ps u = written k ps u'.
Proof.
  intros H. destruct (exists_last H) as (l & a & ->).
  unfold written. rewrite !last_last. reflexivity.
Qed.

Lemma apply_writes_extent ws : forall vals log,
  extent (apply_writes ws vals log).1 = extent vals.
Proof.
  induction ws as [|w ws IH]; intros vals log; [reflexivity|].
  rewrite apply_writes_cons, IH. apply blitz_write_extent.
Qed.

(** A pass over a file of well-formed lines whose records all have a pair
    returns, for each record, its label and its vector, whatever the
    locals held. *)
Lemma read_all_lines fuel : forall lines u i self lbl vals,
  forallb line_ok lines = true ->
  Forall (fun s => s_pairs s <> []) (samples lines) ->
  m_file self = istringstream (file_text lines) ->
  extent vals = m_shape self -> is_array vals ->
  (length lines < fuel)%nat ->
  read_all fuel u i self lbl vals
  = (fun s => (label_value s, dense (Z.to_nat (m_shape self)) s))
      <$> samples lines.
Proof.
  induction fuel as [|fuel IH]; intros lines u i self lbl vals Hok Hpairs Hf
    Hext Harr Hfuel; [lia|].
  cbn [read_all]. unfold read. rewrite to_size_t_extent by exact Harr.
  rewrite Hext, Z.eqb_refl. cbn [negb].
  rewrite (read__lines (u i) self lbl vals lines Hok Hf).
  destruct (first_sample lines) as [[s rest]|] eqn:E.
  - destruct (first_sample_some lines s rest Hok E) as (Hsam & Hlen & Hs & Hrest).
    rewrite Hsam in *. inversion Hpairs as [|? ? Hne Hpairs']; subst.
    cbv zeta. cbn [ret label values fmap list_fmap].
    assert (Hfill : blitz_fill vals d0 = repeat d0 (Z.to_nat (m_shape self))).
    { unfold blitz_fill. f_equal. unfold extent in Hext. lia. }
    rewrite Hfill.
    rewrite (written_any _ _ (to_int (u_pos (u i)), u_value (u i)) (0, d0))
      by (destruct (s_pairs s); [contradiction | discriminate]).
    fold (dense (Z.to_nat (m_shape self)) s). f_equal.
    rewrite (IH rest); try assumption; try reflexivity; try lia.
    + unfold dense. rewrite apply_writes_extent. unfold extent.
      rewrite repeat_length. unfold extent in Hext. cbn [m_shape]. lia.
    + unfold is_array, dense. rewrite apply_writes_extent. unfold extent.
      rewrite repeat_length. unfold is_array, extent in *. lia.
  - rewrite (first_sample_none lines E). reflexivity.
Qed.

(** For such a file the pass after [reset] returns the records of the
    first pass, whatever the locals held in either pass. *)
Lemma reread_lines (fs : filesystem) (u0 : indeterminate) (name : string)
  (lines : list line) :
  forallb line_ok lines = true ->
  Forall (fun s => s_pairs s <> []) (samples lines) ->
  Z.of_nat (length lines) <= SIZE_MAX ->
  max_index lines <= INT_MAX ->
  fs !! name = Some (file_text lines) ->
  exists f : t,
    SVMFile fs u0 name = Ok f /\
    forall (k : nat) (u u' : nat -> indeterminate) (lbl lbl' : Z)
           (vals vals' : list double),
      extent vals = m_shape f -> extent vals' = m_shape f ->
      read_all (S (length lines)) u' 0
        (reset fs (after_reads k u f lbl vals)) lbl' vals'
      = read_all (S (length lines)) u 0 f lbl vals.
Proof.
  intros Hok Hpairs Hlen Hmax Hfs. eexists. split.
  { apply (SVMFile_lines fs u0 name lines Hok Hlen Hfs). }
  intros k u u' lbl lbl' vals vals' Hext Hext'.
  rewrite (reset_restores fs u0 name _ k u lbl vals
             (SVMFile_lines fs u0 name lines Hok Hlen Hfs)).
  cbn [m_shape] in Hext, Hext'.
  rewrite !(read_all_lines _ lines); try assumption; try reflexivity; try lia;
    unfold is_array; lia.
Qed.

(** C8, at a file with a record that has a label and no pair: the shape
    is 1, and the only round of [read_] on that record fails to extract
    anything, so that the vector returned holds what the local [value]
    happened to hold, at the position the local [pos] happened to hold.
    With [pos] holding 1 and [value] holding [v] in the first pass and [w]
    in the pass after [reset], the first record is [(1, [v])] in one pass
    and [(1, [w])] in the other. *)
Theorem C8_label_only_record (u0 : indeterminate) (v w : double) :
  exists f : t,
    SVMFile (disk label_only) u0 "data.svm" = Ok f /\
    m_shape f = 1 /\ m_n_samples f = 2 /\
    read_all 3 (garbage (mk_indeterminate 1 v)) 0 f 0 [d0]
      = [(1, [v]); (2, [d5])] /\
    read_all 3 (garbage (mk_indeterminate 1 w)) 0
      (reset (disk label_only)
         (after_reads 3 (garbage (mk_indeterminate 1 v)) f 0 [d0])) 0 [d0]
      = [(1, [w]); (2, [d5])].
Proof.
  eexists. split; [vm_compute; reflexivity|].
  split; [reflexivity|]. split; [reflexivity|].
  split; vm_compute; reflexivity.
Qed.

End Reset.

(** ** The contract of [read] *)

Section Contract.
Import SVMFile.

Lemma read_pairs_extent k : forall iss pos val vals log,
  extent (read_pairs k iss pos val vals log).1 = extent vals.
Proof.
  induction k as [|k IH]; intros iss pos val vals log; [reflexivity|].
  cbn [read_pairs].
  destruct (extract num_get_int iss pos) as [iss1 pos1].
  destruct (extract_char iss1 " ") as [iss2 sep].
  destruct (extract num_get_double iss2 val) as [iss3 value1].
  pose proof (blitz_write_extent vals (pos1 - 1) value1 log) as Hw.
  destruct (blitz_write vals (pos1 - 1) value1 log) as [vals1 log1].
  rewrite IH. exact Hw.
Qed.

Lemma blitz_fill_extent vals v : extent (blitz_fill vals v) = extent vals.
Proof. unfold blitz_fill, extent. rewrite repeat_length. reflexivity. Qed.

(** A call of [read_] on a good stream, by the line it gets. *)
Lemma read__good u self lbl vals :
  good (m_file self) = true ->
  let self1 := mk (m_filename self) (get_line (m_file self)).1 (m_shape self)
                  (m_n_samples self) in
  ((get_line (m_file self)).2 = [] ->
   read_ u self lbl vals = (mk_outcome false lbl vals [], self1)) /\
  ((get_line (m_file self)).2 <> [] ->
   exists lbl1 vals1 log,
     read_ u self lbl vals = (mk_outcome true lbl1 vals1 log, self1) /\
     extent vals1 = extent vals).
Proof.
  intros Hg self1. unfold read_. rewrite Hg. cbn [negb]. subst self1.
  destruct (get_line (m_file self)) as [f1 line]. cbn [fst snd].
  destruct line as [|c line]; (split; [intros H | intros H]);
    try congruence.
  destruct (extract num_get_int (istringstream (c :: line)) lbl) as [iss lbl1].
  pose proof (read_pairs_extent (Z.to_nat (m_shape self)) iss
                (to_int (u_pos u)) (u_value u) (blitz_fill vals d0) []) as He.
  destruct (read_pairs _ _ _ _ _ _) as [vals1 log]. cbn [fst] in He.
  exists lbl1, vals1, log. split; [reflexivity|].
  rewrite He. apply blitz_fill_extent.
Qed.

Lemma read__not_good u self lbl vals :
  good (m_file self) = false ->
  read_ u self lbl vals = (mk_outcome false lbl vals [], self).
Proof. intros Hg. unfold read_. rewrite Hg. reflexivity. Qed.

(** C7.  [read] raises the shape error when the length of the vector
    differs from the shape.  When it is equal no exception is raised: at
    the end of the stream the call returns false and touches neither the
    label nor the vector; before the end it returns true, as long as its
    writes stay inside the vector.  They do not on the file of the lines
    [1] and [2 1:5], read with a vector of extent 1, the shape: on the
    first record, which has no pair, the only write goes where the local
    [pos], never set, points, outside the vector unless it holds 1. *)
Theorem C7_read_contract (u : indeterminate) (self : t) (lbl : Z)
  (vals : list double) :
  is_array vals ->
  (extent vals <> m_shape self -> read u self lbl vals = Throw ShapeError) /\
  (extent vals = m_shape self ->
     exists o self', read u self lbl vals = Ok (o, self') /\
       (end_of_stream (m_file self) = true ->
        o = mk_outcome false lbl vals []) /\
       (end_of_stream (m_file self) = false -> stray o = [] -> ret o = true)) /\
  (to_int (u_pos u) <> 1 ->
     exists f0 self',
       SVMFile (disk label_only) u "data.svm" = Ok f0 /\
       m_shape f0 = 1 /\ end_of_stream (m_file f0) = false /\
       read u f0 lbl [d0]
       = Ok (mk_outcome true 1 [d0] [(to_int (u_pos u) - 1, u_value u)],
             self')).
Proof.
  intros Ha. split; [|split].
  - unfold read. rewrite to_size_t_extent by exact Ha.
    intros Hne. destruct (extent vals =? m_shape self) eqn:E;
      [apply Z.eqb_eq in E; contradiction | reflexivity].
  - unfold read. rewrite to_size_t_extent by exact Ha.
    intros ->. rewrite Z.eqb_refl. cbn [negb].
    pose proof (read__ret u self lbl vals) as Hr.
    destruct (good (m_file self)) eqn:Hg.
    + destruct (read__good u self lbl vals Hg) as [Hempty _].
      pose proof (get_line_empty (m_file self) Hg) as Hiff.
      destruct (read_ u self lbl vals) as [o self'] eqn:E.
      exists o, self'. split; [reflexivity|]. cbn [fst] in Hr. split.
      * intros He. unfold end_of_stream in He. rewrite Hg in He.
        cbn [negb orb] in He. apply Hiff in He.
        specialize (Hempty He). injection Hempty as <- _. reflexivity.
      * intros He _. rewrite Hr, He. reflexivity.
    + rewrite (read__not_good u self lbl vals Hg).
      exists (mk_outcome false lbl vals []), self. split; [reflexivity|].
      split; [reflexivity|]. intros He. unfold end_of_stream in He.
      rewrite Hg in He. discriminate He.
  - intros Hpos.
    set (lines := [Sample sample_b;
                   Sample (mk_sample false (chars "2")
                             [(chars "1", mk_numeral false (chars "5") [])])]).
    assert (Hok : forallb line_ok lines = true) by (vm_compute; reflexivity).
    pose proof (SVMFile_lines (disk label_only) u "data.svm" lines Hok
                  ltac:(vm_compute; discriminate) (lookup_singleton_eq _ _))
      as Hopen.
    set (f0 := mk "data.svm" (istringstream (file_text lines))
                 (max_index lines) (Z.of_nat (length (samples lines)))) in *.
    exists f0. eexists. split; [exact Hopen|].
    split; [vm_compute; reflexivity|]. split; [vm_compute; reflexivity|].
    unfold read.
    change (negb (to_size_t (extent [d0]) =? m_shape f0)) with false. cbv iota.
    rewrite (read__lines u f0 lbl [d0] lines Hok eq_refl).
    cbn [lines first_sample]. cbv zeta.
    change (written (Z.to_nat (m_shape f0)) (pair_value <$> s_pairs sample_b)
              (to_int (u_pos u), u_value u))
      with [(to_int (u_pos u), u_value u)].
    rewrite apply_writes_cons. cbn [fst snd].
    rewrite blitz_write_out
      by (change (extent (blitz_fill [d0] d0)) with 1; lia).
    reflexivity.
Qed.

Lemma C7_read_contract_witness :
  is_array [d0] /\
  exists f0 self',
    SVMFile (disk label_only) u_a "data.svm" = Ok f0 /\
    m_shape f0 = 1 /\ end_of_stream (m_file f0) = false /\
    read u_a f0 0 [d0] = Ok (mk_outcome true 1 [d0] [(76, S754_nan)], self').
Proof.
  assert (Ha : is_array [d0]) by (vm_compute; discriminate).
  split; [exact Ha|].
  apply (C7_read_contract u_a file_a 0 [d0] Ha).
  vm_compute. discriminate.
Defined.

End Contract.

(** * More on the machine *)

Section MachineExtras.

Import SupportVector.

(** ** Construction *)

Lemma scan_nodes_no_throw nodes : forall s e, scan_nodes nodes s <> Throw e.
Proof.
  induction nodes as [|n nodes IH]; intros s e; simpl; [discriminate|].
  destruct (index n =? -1); [discriminate | apply IH].
Qed.

Lemma scan_SV_no_throw todo : forall k sv s e, scan_SV todo k sv s <> Throw e.
Proof.
  induction todo as [|todo IH]; intros k sv s e; simpl; [discriminate|].
  destruct (sv !! k) as [nodes|]; [|discriminate].
  destruct (scan_nodes nodes s) as [s'| e' |] eqn:E; cbn [mbind Result_bind].
  - apply IH.
  - exfalso. exact (scan_nodes_no_throw _ _ _ E).
  - discriminate.
Qed.

Lemma reset_no_throw (self : t) e : reset self <> Throw e.
Proof.
  unfold reset.
  destruct (scan_SV _ 0 (SV (m_model self)) 0) as [n| e' |] eqn:E;
    cbn [mbind Result_bind]; try discriminate.
  exfalso. exact (scan_SV_no_throw _ _ _ _ _ E).
Qed.

(** X1. The constructors from a model and from a model file raise an
    exception in one case only, a null model (no model given, no file of
    that name, a file the solver does not read as a model), and the
    exception then is the one of an invalid model: the recompute step
    itself never raises. *)
Theorem X1_constructors_throw (L : libsvm) (model : option svm_model)
  (fs : filesystem) (file : string) (e : exception) :
  (SupportVector_model model = Throw e <->
   model = None /\ e = InvalidModelError) /\
  (SupportVector_file L fs file = Throw e <->
   make_model L (fs !! file) = None /\ e = InvalidModelError).
Proof.
  split.
  - unfold SupportVector_model. destruct model as [m|].
    + split; [intros H; exfalso; exact (reset_no_throw _ _ H)|].
      intros [H _]. discriminate.
    + split; [intros [= <-]; auto | intros [_ ->]; reflexivity].
  - unfold SupportVector_file. destruct (make_model L (fs !! file)) as [m|].
    + split; [intros H; exfalso; exact (reset_no_throw _ _ H)|].
      intros [H _]. discriminate.
    + split; [intros [= <-]; auto | intros [_ ->]; reflexivity].
Qed.

Lemma X1_constructors_throw_witness :
  SupportVector_model None = Throw InvalidModelError.
Proof.
  apply (proj1 (X1_constructors_throw solver_a None ∅ "" InvalidModelError)).
  split; reflexivity.
Defined.

(** ** Accessors *)

(** X2. [classLabel] raises the index error for every class number from
    the number of classes on, and returns the entry of the label table
    for a smaller one. *)
Theorem X2_classLabel_bounds (self : t) (i : Z) :
  0 <= nr_class (m_model self) <= INT_MAX ->
  Z.of_nat (length (label (m_model self))) = nr_class (m_model self) ->
  0 <= i ->
  (numberOfClasses self <= i -> classLabel self i = Throw IndexError) /\
  (i < numberOfClasses self ->
   exists c, classLabel self i = Ok c /\
             label (m_model self) !! Z.to_nat i = Some c).
Proof.
  intros Hnr Hlen Hi. unfold classLabel, numberOfClasses, svm_get_nr_class.
  rewrite to_size_t_int by exact Hnr. split.
  - intros H. destruct (i >=? nr_class (m_model self)) eqn:E; [reflexivity|].
    rewrite Z.geb_leb in E. apply Z.leb_gt in E. lia.
  - intros H. destruct (i >=? nr_class (m_model self)) eqn:E.
    { rewrite Z.geb_leb in E. apply Z.leb_le in E. lia. }
    destruct (lookup_lt_is_Some_2 (label (m_model self)) (Z.to_nat i)
                ltac:(lia)) as [c Ec].
    rewrite Ec. exists c. auto.
Qed.

Lemma X2_classLabel_bounds_witness :
  classLabel machine_a 3 = Throw IndexError /\ classLabel machine_a 2 = Ok 3.
Proof.
  destruct (X2_classLabel_bounds machine_a 3) as [H3 _];
    [vm_compute; split; discriminate | reflexivity | lia |].
  destruct (X2_classLabel_bounds machine_a 2) as [_ H2];
    [vm_compute; split; discriminate | reflexivity | lia |].
  split.
  - apply H3. vm_compute. discriminate.
  - destruct H2 as (c & Hc & Hl); [vm_compute; reflexivity|].
    rewrite Hc. f_equal. vm_compute in Hl. congruence.
Defined.

(** ** Normalization vectors *)

(** X3. Each of the two setters raises the dimension error when its
    vector is shorter than the input size; otherwise it puts the vector in
    place and leaves the rest of the machine alone, keeps the machine
    consistent, and the two setters commute. *)
Theorem X3_setters (self : t) (a b : list double) :
  is_array a -> is_array b ->
  (extent a < inputSize self ->
   setInputSubtraction self a = Throw DimensionError /\
   setInputDivision self a = Throw DimensionError) /\
  (inputSize self <= extent a -> inputSize self <= extent b ->
   setInputSubtraction self a = Ok (with_vectors self a (m_input_div self)) /\
   setInputDivision self b = Ok (with_vectors self (m_input_sub self) b) /\
   (setInputSubtraction self a ≫= fun s => setInputDivision s b)
     = Ok (with_vectors self a b) /\
   (setInputDivision self b ≫= fun s => setInputSubtraction s a)
     = Ok (with_vectors self a b) /\
   (consistent self -> consistent (with_vectors self a b))).
Proof.
  intros Ha Hb. unfold setInputSubtraction, setInputDivision, inputSize.
  rewrite !to_size_t_extent by assumption. split.
  - intros H. replace (m_input_size self >? extent a) with true; [auto|].
    symmetry. apply Z.gtb_lt. lia.
  - intros H1 H2.
    assert (E1 : (m_input_size self >? extent a) = false)
      by (rewrite Z.gtb_ltb; apply Z.ltb_ge; lia).
    assert (E2 : (m_input_size self >? extent b) = false)
      by (rewrite Z.gtb_ltb; apply Z.ltb_ge; lia).
    rewrite E1, E2. cbn [mbind Result_bind m_input_size].
    rewrite E1, E2.
    split; [reflexivity|]. split; [reflexivity|]. split; [reflexivity|].
    split; [reflexivity|].
    intros (Hn & Hc & _ & _). unfold consistent, with_vectors.
    cbn [m_input_size m_input_cache m_input_sub m_input_div].
    split; [exact Hn|]. split; [exact Hc|]. split; assumption.
Qed.

Lemma X3_setters_witness :
  setInputSubtraction machine_a [d1; d1] = Throw DimensionError /\
  setInputSubtraction machine_a [d1; d0; d2; d5]
  = Ok (with_vectors machine_a [d1; d0; d2; d5] [d1; d1; d1]).
Proof.
  split.
  - apply (X3_setters machine_a [d1; d1] [d1; d1]); vm_compute;
      discriminate || reflexivity.
  - apply (X3_setters machine_a [d1; d0; d2; d5] [d1; d0; d2; d5]); vm_compute;
      discriminate.
Defined.

(** ** The encoding *)

Lemma normalized_take (n k : nat) (input sub div : list double) :
  (k < n)%nat ->
  normalized (take n input) (take n sub) (take n div) k
  = normalized input sub div k.
Proof.
  intros Hk. unfold normalized. rewrite !lookup_take_lt by exact Hk. reflexivity.
Qed.

Lemma sparse_encoding_take (n : nat) (input sub div : list double) :
  sparse_encoding n (take n input) (take n sub) (take n div)
  = sparse_encoding n input sub div.
Proof.
  unfold sparse_encoding. rewrite !flat_map_concat_map. f_equal.
  apply map_ext_in. intros k Hk. apply in_seq in Hk. unfold emit.
  rewrite normalized_take by lia. reflexivity.
Qed.

(** X4. Of the input and of the two normalization vectors, the encoding
    uses the entries below the input size only: inputs and machines that
    agree on those are encoded alike. *)
Theorem X4_encoding_uses_prefix (self self' : t) (input input' : list double) :
  consistent self -> consistent self' ->
  m_input_size self' = m_input_size self ->
  m_input_cache self' = m_input_cache self ->
  inputSize self <= extent input -> inputSize self <= extent input' ->
  let n := Z.to_nat (inputSize self) in
  take n input' = take n input ->
  take n (m_input_sub self') = take n (m_input_sub self) ->
  take n (m_input_div self') = take n (m_input_div self) ->
  encode self' input' = encode self input.
Proof.
  intros Hc Hc' Hsize Hcache Hi Hi' n Ein Esub Ediv.
  assert (Hi2 : inputSize self' <= extent input') by (unfold inputSize in *; lia).
  destruct (encode_spec self input Hc Hi) as (stale & Hst & ->).
  destruct (encode_spec self' input' Hc' Hi2) as (stale' & Hst' & ->).
  unfold inputSize in *. rewrite Hsize, Hcache in *. fold n in Hst, Hst' |- *.
  assert (E : sparse_encoding n input' (m_input_sub self') (m_input_div self')
              = sparse_encoding n input (m_input_sub self) (m_input_div self)).
  { rewrite <- (sparse_encoding_take n input'), Ein, Esub, Ediv.
    apply sparse_encoding_take. }
  rewrite E in *. rewrite Hst in Hst'. injection Hst' as <-. reflexivity.
Qed.

Lemma X4_encoding_uses_prefix_witness :
  encode (with_vectors machine_a [d0; d0; d0; d5] [d1; d1; d1; d0])
         [half; d0; d2; d5]
  = encode machine_a [half; d0; d2].
Proof.
  apply (X4_encoding_uses_prefix machine_a
           (with_vectors machine_a [d0; d0; d0; d5] [d1; d1; d1; d0])
           [half; d0; d2] [half; d0; d2; d5]);
    try reflexivity; try (vm_compute; discriminate).
  - exact consistent_machine_a.
  - unfold consistent, extent, INT_MAX. simpl. repeat split; lia.
Defined.

Lemma features_app enc stale tail :
  Forall (fun nd => index nd <> -1) enc ->
  features (enc ++ mk_node (-1) stale :: tail) = enc.
Proof.
  induction 1 as [|nd enc Hnd _ IH]; simpl; [reflexivity|].
  destruct (index nd =? -1) eqn:E; [apply Z.eqb_eq in E; contradiction|].
  rewrite IH. reflexivity.
Qed.

Lemma emit_range input sub div k :
  Forall (fun nd => index nd = Z.of_nat k + 1) (emit input sub div k).
Proof.
  unfold emit. destruct (normalized input sub div k) as [v|]; [|constructor].
  destruct (is_zero v); repeat constructor.
Qed.

Lemma encoding_range input sub div n : forall k,
  Forall (fun nd => Z.of_nat k < index nd <= Z.of_nat (k + n))
         (flat_map (emit input sub div) (seq k n)).
Proof.
  induction n as [|n IH]; intros k; simpl; [constructor|].
  apply Forall_app. split.
  - eapply Forall_impl; [apply emit_range|]. simpl. intros nd ->. lia.
  - eapply Forall_impl; [apply (IH (S k))|]. simpl. intros nd H. lia.
Qed.

Lemma encoding_increasing input sub div n : forall k i j a b,
  flat_map (emit input sub div) (seq k n) !! i = Some a ->
  flat_map (emit input sub div) (seq k n) !! j = Some b ->
  (i < j)%nat -> index a < index b.
Proof.
  induction n as [|n IH]; intros k i j a b Ha Hb Hij; simpl in *;
    [rewrite lookup_nil in Ha; discriminate|].
  pose proof (emit_range input sub div k) as Hk.
  pose proof (encoding_range input sub div n (S k)) as Hrest.
  unfold emit in *. destruct (normalized input sub div k) as [v|];
    [destruct (is_zero v)|]; simpl in *; try (eapply IH; eassumption).
  destruct i as [|i]; destruct j as [|j]; simpl in *; try lia.
  - injection Ha as <-. simpl.
    rewrite Forall_forall in Hrest.
    specialize (Hrest b (list_elem_of_lookup_2 _ _ _ Hb)). simpl in Hrest. lia.
  - eapply (IH (S k) i j); eauto. lia.
Qed.

(** The cache of an encoding, walked up to the end marker. *)
Lemma features_encode (self : t) (input : list double) :
  consistent self ->
  inputSize self <= extent input ->
  exists cache,
    encode self input = Ok cache /\
    features cache = sparse_encoding (Z.to_nat (inputSize self)) input
                       (m_input_sub self) (m_input_div self).
Proof.
  intros Hc Hi.
  destruct (encode_spec self input Hc Hi) as (stale & _ & Henc).
  eexists. split; [exact Henc|].
  apply features_app.
  pose proof (encoding_range input (m_input_sub self) (m_input_div self)
                (Z.to_nat (inputSize self)) 0) as Hrange.
  eapply Forall_impl; [exact Hrange|]. simpl. lia.
Qed.

(** X5. What the solver finds when it walks the cache up to the end
    marker is exactly the encoding; the indices of its pairs lie between 1
    and the input size and increase strictly. *)
Theorem X5_solver_reads_the_encoding (self : t) (input : list double) :
  consistent self ->
  inputSize self <= extent input ->
  let enc := sparse_encoding (Z.to_nat (inputSize self)) input
               (m_input_sub self) (m_input_div self) in
  exists cache,
    encode self input = Ok cache /\
    features cache = enc /\
    Forall (fun nd => 1 <= index nd <= inputSize self) enc /\
    (forall i j a b, enc !! i = Some a -> enc !! j = Some b ->
                     (i < j)%nat -> index a < index b).
Proof.
  intros Hc Hi enc.
  destruct (encode_spec self input Hc Hi) as (stale & _ & Henc). fold enc in Henc.
  pose proof (encoding_range input (m_input_sub self) (m_input_div self)
                (Z.to_nat (inputSize self)) 0) as Hrange.
  change (flat_map _ _) with enc in Hrange.
  destruct Hc as (Hn & _). unfold inputSize in *.
  eexists. split; [exact Henc|]. split; [|split].
  - apply features_app. eapply Forall_impl; [exact Hrange|]. simpl. lia.
  - eapply Forall_impl; [exact Hrange|]. simpl. lia.
  - intros i j a b. apply encoding_increasing.
Qed.

Lemma X5_solver_reads_the_encoding_witness :
  exists cache,
    encode machine_a [half; d0; d2] = Ok cache /\
    features cache = [mk_node 1 half; mk_node 3 d2].
Proof.
  destruct (X5_solver_reads_the_encoding machine_a [half; d0; d2]
              consistent_machine_a ltac:(vm_compute; discriminate))
    as (cache & Henc & Hf & _).
  exists cache. split; [exact Henc|]. rewrite Hf. vm_compute. reflexivity.
Defined.

Lemma dsub_diag (x : double) : is_finite x = true -> dsub x x = S754_zero false.
Proof.
  destruct x as [s|s| |s m e]; try discriminate; intros _.
  - destruct s; reflexivity.
  - unfold dsub, SFsub. rewrite Z.sub_diag. reflexivity.
Qed.

Lemma ddiv_zero_l (s : bool) (d : double) :
  divides d = true -> is_zero (ddiv (S754_zero s) d) = true.
Proof. destruct d; try discriminate; reflexivity. Qed.

(** X6. A feature whose value equals the entry of the subtraction vector
    (and is finite) is left out of the encoding, whenever the entry of the
    division vector is neither a zero nor a NaN: no pair of the encoding
    has its index. *)
Theorem X6_equal_feature_left_out (self : t) (input : list double) (k : nat)
  (x d : double) :
  consistent self ->
  inputSize self <= extent input ->
  input !! k = Some x -> m_input_sub self !! k = Some x ->
  m_input_div self !! k = Some d ->
  is_finite x = true -> divides d = true ->
  exists cache,
    encode self input = Ok cache /\
    Forall (fun nd => index nd <> Z.of_nat k + 1) (features cache).
Proof.
  intros Hc Hi Ex Es Ed Hx Hd.
  destruct (features_encode self input Hc Hi) as (cache & Henc & Hf).
  exists cache. split; [exact Henc|]. rewrite Hf.
  apply Forall_forall. intros nd Hnd.
  apply elem_of_sparse_encoding in Hnd as (k' & v & Hk' & Hv & Hz & ->).
  simpl. intros E. assert (k' = k) by lia. subst k'.
  unfold normalized in Hv. rewrite Ex, Es, Ed in Hv. simpl in Hv.
  injection Hv as <-. rewrite (dsub_diag x Hx), (ddiv_zero_l _ d Hd) in Hz.
  discriminate.
Qed.

Lemma X6_equal_feature_left_out_witness :
  exists cache,
    encode (with_vectors machine_a [half; d0; d0] [d2; d1; d1]) [half; d0; d2]
      = Ok cache /\
    Forall (fun nd => index nd <> 1) (features cache).
Proof.
  apply (X6_equal_feature_left_out
           (with_vectors machine_a [half; d0; d0] [d2; d1; d1])
           [half; d0; d2] 0 half d2);
    try reflexivity; try (vm_compute; discriminate).
  unfold consistent, extent, INT_MAX. simpl. repeat split; lia.
Defined.

(** ** Predictions *)

(** X7. [predictClass] raises the dimension error for an input shorter
    than the input size, before the solver is called.  For any other
    input the solver is called on the encoding of the input; when the
    value it returns is representable (finite, and an [int] once
    rounded), [predictClass] returns that value rounded, an [int], and
    changes nothing of the machine but the cache, which keeps its size.
    (For a value that is not representable the conversion to [int] is
    undefined in the source, and nothing is stated.) *)
Theorem X7_predictClass (L : libsvm) (self : t) (input : list double) :
  is_array input ->
  (extent input < inputSize self ->
   predictClass L self input = Throw DimensionError) /\
  (consistent self -> inputSize self <= extent input ->
   exists cache,
     encode self input = Ok cache /\
     length cache = length (m_input_cache self) /\
     consistent (with_cache self cache) /\
     (representable (svm_predict L (m_model self) cache) ->
      predictClass L self input
      = Ok (round (svm_predict L (m_model self) cache), with_cache self cache) /\
      is_int (round (svm_predict L (m_model self) cache)))).
Proof.
  intros Ha. unfold predictClass. rewrite to_size_t_extent by exact Ha. split.
  - intros H. replace (extent input <? inputSize self) with true; [reflexivity|].
    symmetry. apply Z.ltb_lt. exact H.
  - intros Hc Hi.
    replace (extent input <? inputSize self) with false
      by (symmetry; apply Z.ltb_ge; exact Hi).
    destruct (encode_spec self input Hc Hi) as (stale & Hst & Henc).
    eexists. split; [exact Henc|]. unfold predictClass_. rewrite Henc.
    pose proof (encode_consistent self input _ Hc Hi Henc) as Hc'.
    split; [|split; [exact Hc'|]].
    + destruct Hc as (_ & Hlen & _). destruct Hc' as (_ & Hlen' & _).
      cbn [with_cache m_input_cache m_input_size] in Hlen'. congruence.
    + intros [_ Hr]. split; [reflexivity | exact Hr].
Qed.

Lemma X7_predictClass_witness :
  predictClass solver_a machine_a [half; d0] = Throw DimensionError /\
  exists cache,
    predictClass solver_a machine_a [half; d0; d2]
    = Ok (1, with_cache machine_a cache).
Proof.
  destruct (X7_predictClass solver_a machine_a [half; d0]) as [H1 _];
    [vm_compute; discriminate|].
  destruct (X7_predictClass solver_a machine_a [half; d0; d2]) as [_ H2];
    [vm_compute; discriminate|].
  split; [apply H1; vm_compute; reflexivity|].
  destruct (H2 consistent_machine_a ltac:(vm_compute; discriminate))
    as (cache & _ & _ & _ & Hp).
  exists cache. apply Hp.
  split; [reflexivity | vm_compute; split; discriminate].
Defined.



(** ** Storage *)

(** X9. Whatever is stored about the machine is read back: saving a
    machine to a container and loading a machine from that container
    gives the model and the normalization vectors of the machine saved,
    with a fresh cache and without warning, for every solver that reads
    back what it writes for the model.  (The vectors saved have the input
    size as their length, which is what the recompute step leaves.) *)
Theorem X9_container_round_trip (L : libsvm) (self : t) (config : HDF5File) :
  reloads L (m_model self) ->
  well_formed (m_model self) ->
  m_input_size self = max_feature_index (m_model self) ->
  extent (m_input_sub self) = m_input_size self ->
  extent (m_input_div self) = m_input_size self ->
  exists config',
    save L self config = Ok config' /\
    SupportVector_hdf5 L config'
    = Ok (with_vectors (recomputed (m_model self))
            (m_input_sub self) (m_input_div self), false).
Proof.
  intros (text & Hsave & Hload) Hwf Hsize Hsub Hdiv.
  unfold save, svm_pickle. rewrite Hsave. cbn [mbind Result_bind].
  eexists. split; [reflexivity|].
  set (ds := <["input_divide"%string := Doubles (m_input_div self)]>
               (<["input_subtract"%string := Doubles (m_input_sub self)]>
                  (<["svm_model"%string := Bytes text]> (datasets config)))).
  assert (E1 : ds !! "svm_model"%string = Some (Bytes text)).
  { unfold ds. rewrite lookup_insert_ne by (intros E; discriminate E).
    rewrite lookup_insert_ne by (intros E; discriminate E).
    apply lookup_insert_eq. }
  assert (E2 : ds !! "input_subtract"%string = Some (Doubles (m_input_sub self))).
  { unfold ds. rewrite lookup_insert_ne by (intros E; discriminate E).
    apply lookup_insert_eq. }
  assert (E3 : ds !! "input_divide"%string = Some (Doubles (m_input_div self))).
  { unfold ds. apply lookup_insert_eq. }
  unfold SupportVector_hdf5, getAttribute, readArray_uint8, readArray,
    setAttribute, setArray, svm_unpickle, make_model.
  cbn [attributes datasets]. fold ds.
  rewrite lookup_insert_eq, E1, E2, E3. cbn [mbind Result_bind].
  rewrite Hload. cbn [mbind Result_bind].
  rewrite (reset_spec (blank (m_model self)) Hwf). cbn [mbind Result_bind blank
    m_model m_input_sub m_input_div m_input_size m_input_cache].
  pose proof (max_feature_index_range _ Hwf) as Hn.
  replace (extent (m_input_sub self)
           =? extent (repeat d0 (Z.to_nat (max_feature_index (m_model self)))))
    with true
    by (unfold extent in *; rewrite repeat_length; symmetry; apply Z.eqb_eq; lia).
  cbn [mbind Result_bind].
  replace (extent (m_input_div self)
           =? extent (repeat d1 (Z.to_nat (max_feature_index (m_model self)))))
    with true
    by (unfold extent in *; rewrite repeat_length; symmetry; apply Z.eqb_eq; lia).
  cbn [mbind Result_bind]. unfold with_vectors, recomputed.
  cbn [m_model m_input_size m_input_cache].
  rewrite Z.gtb_ltb, Z.ltb_irrefl. reflexivity.
Qed.

Lemma X9_container_round_trip_witness :
  exists config',
    save solver_a (with_vectors machine_a [d1; d0; d2] [d2; d2; half])
         (mk_HDF5File ∅ ∅) = Ok config' /\
    SupportVector_hdf5 solver_a config'
    = Ok (with_vectors machine_a [d1; d0; d2] [d2; d2; half], false).
Proof.
  destruct (X9_container_round_trip solver_a
              (with_vectors machine_a [d1; d0; d2] [d2; d2; half])
              (mk_HDF5File ∅ ∅)) as (config' & Hs & Hl);
    try reflexivity.
  - exists text_a. split; reflexivity.
  - exact well_formed_model_a.
  - exists config'. split; [exact Hs|]. rewrite Hl. reflexivity.
Defined.

(** X10. Saving to a model file keeps the model and nothing else: a
    machine loaded from the file written by [save] has the model of the
    machine saved and, whatever normalization that machine had, zeros to
    subtract and ones to divide by. *)
Theorem X10_model_file_round_trip (L : libsvm) (self : t) (fs : filesystem)
  (filename : string) :
  reloads L (m_model self) ->
  well_formed (m_model self) ->
  exists fs',
    save_file L self fs filename = Ok fs' /\
    SupportVector_file L fs' filename = Ok (recomputed (m_model self)) /\
    (forall other, other <> filename -> fs' !! other = fs !! other).
Proof.
  intros (text & Hsave & Hload) Hwf. unfold save_file. rewrite Hsave.
  eexists. split; [reflexivity|]. split.
  - unfold SupportVector_file, make_model. rewrite lookup_insert_eq, Hload.
    apply (reset_spec (blank (m_model self)) Hwf).
  - intros other Hne. apply lookup_insert_ne. congruence.
Qed.

Lemma X10_model_file_round_trip_witness :
  exists fs',
    save_file solver_a (with_vectors machine_a [d1; d0; d2] [d2; d2; half])
      ∅ "model.svm" = Ok fs' /\
    SupportVector_file solver_a fs' "model.svm" = Ok machine_a.
Proof.
  destruct (X10_model_file_round_trip solver_a
              (with_vectors machine_a [d1; d0; d2] [d2; d2; half])
              ∅ "model.svm") as (fs' & Hs & Hl & _).
  - exists text_a. split; reflexivity.
  - exact well_formed_model_a.
  - exists fs'. split; [exact Hs|]. rewrite Hl. reflexivity.
Defined.

(** X11. The version stored in a container decides about the warning
    and about nothing else: with any version the load gives what it gives
    with the version of the solver, the warning being issued exactly when
    the hundreds of the stored version are below those of the solver; a
    container without the attribute is refused. *)
Theorem X11_version_only_warns (L : libsvm) (config : HDF5File) (v : Z) :
  is_size_t v ->
  SupportVector_hdf5 L (setAttribute config "version" v)
  = (SupportVector_hdf5 L (setAttribute config "version" (LIBSVM_VERSION L))
       ≫= fun r => Ok (r.1, LIBSVM_VERSION L / 100 >? v / 100)) /\
  (attributes config !! "version"%string = None ->
   SupportVector_hdf5 L config = Throw IOError).
Proof.
  intros _. split.
  - unfold SupportVector_hdf5, getAttribute, setAttribute.
    cbn [attributes datasets]. rewrite !lookup_insert_eq.
    cbn [mbind Result_bind].
    destruct (readArray_uint8 _ "svm_model") as [buffer| |];
      cbn [mbind Result_bind]; try reflexivity.
    destruct (svm_unpickle L buffer) as [m| |];
      cbn [mbind Result_bind]; try reflexivity.
    destruct (reset (blank m)) as [self| |];
      cbn [mbind Result_bind]; try reflexivity.
    unfold readArray. cbn [datasets].
    destruct (datasets config !! "input_subtract"%string) as [[b|sub]|];
      cbn [mbind Result_bind]; try reflexivity.
    destruct (extent sub =? extent (m_input_sub self));
      cbn [mbind Result_bind]; try reflexivity.
    destruct (datasets config !! "input_divide"%string) as [[b|div]|];
      cbn [mbind Result_bind]; try reflexivity.
    destruct (extent div =? extent (m_input_div self));
      cbn [mbind Result_bind]; reflexivity.
  - intros H. unfold SupportVector_hdf5, getAttribute. rewrite H. reflexivity.
Qed.

Lemma X11_version_only_warns_witness :
  SupportVector_hdf5 solver_a (mk_HDF5File ∅ ∅) = Throw IOError.
Proof.
  apply (proj2 (X11_version_only_warns solver_a (mk_HDF5File ∅ ∅) 0
                  ltac:(unfold is_size_t, SIZE_MAX; lia))).
  apply lookup_empty.
Defined.

Lemma reset_model (self self' : t) :
  reset self = Ok self' -> m_model self' = m_model self.
Proof.
  unfold reset. destruct (scan_SV _ _ _ _); cbn [mbind Result_bind];
    try discriminate.
  intros [= <-]. reflexivity.
Qed.

(** X12. Every machine that a constructor returns (from a model, from a
    model file, from a container) with a model as libsvm builds them is
    consistent: its input size is the largest feature index of its model,
    its cache has one slot more, and both normalization vectors have
    exactly the input size. *)
Theorem X12_constructed_machine (L : libsvm) (model : option svm_model)
  (fs : filesystem) (file : string) (config : HDF5File) (warned : bool)
  (self : t) :
  well_formed (m_model self) ->
  SupportVector_model model = Ok self \/
  SupportVector_file L fs file = Ok self \/
  SupportVector_hdf5 L config = Ok (self, warned) ->
  consistent self /\
  inputSize self = max_feature_index (m_model self) /\
  Z.of_nat (length (m_input_cache self)) = inputSize self + 1 /\
  extent (m_input_sub self) = inputSize self /\
  extent (m_input_div self) = inputSize self.
Proof.
  intros Hwf H.
  pose proof (max_feature_index_range _ Hwf) as Hn.
  assert (Hfresh : forall m, reset (blank m) = Ok self ->
            self = recomputed (m_model self)).
  { intros m Hr. pose proof (reset_model _ _ Hr) as Hm. cbn [blank m_model] in Hm.
    subst m. rewrite (reset_spec (blank (m_model self)) Hwf) in Hr.
    injection Hr as <-. reflexivity. }
  assert (Hgoal : forall sub div,
            extent sub = max_feature_index (m_model self) ->
            extent div = max_feature_index (m_model self) ->
            self = with_vectors (recomputed (m_model self)) sub div ->
            consistent self /\
            inputSize self = max_feature_index (m_model self) /\
            Z.of_nat (length (m_input_cache self)) = inputSize self + 1 /\
            extent (m_input_sub self) = inputSize self /\
            extent (m_input_div self) = inputSize self).
  { intros sub div Hs Hd E. rewrite E. unfold consistent, inputSize.
    cbn [with_vectors recomputed m_model m_input_size m_input_cache
         m_input_sub m_input_div].
    rewrite repeat_length. repeat split; lia. }
  assert (Hrec : forall m, reset (blank m) = Ok self ->
            consistent self /\
            inputSize self = max_feature_index (m_model self) /\
            Z.of_nat (length (m_input_cache self)) = inputSize self + 1 /\
            extent (m_input_sub self) = inputSize self /\
            extent (m_input_div self) = inputSize self).
  { intros m Hr. apply (Hgoal (repeat d0 (Z.to_nat (max_feature_index (m_model self))))
                              (repeat d1 (Z.to_nat (max_feature_index (m_model self)))));
      try (unfold extent; rewrite repeat_length; lia).
    apply (Hfresh m Hr). }
  destruct H as [H | [H | H]].
  - unfold SupportVector_model in H. destruct model as [m|]; [|discriminate].
    apply (Hrec m H).
  - unfold SupportVector_file in H.
    destruct (make_model L (fs !! file)) as [m|]; [|discriminate].
    apply (Hrec m H).
  - unfold SupportVector_hdf5 in H.
    destruct (getAttribute config "version") as [version| |];
      cbn [mbind Result_bind] in H; try discriminate.
    destruct (readArray_uint8 config "svm_model") as [buffer| |];
      cbn [mbind Result_bind] in H; try discriminate.
    destruct (svm_unpickle L buffer) as [m| |];
      cbn [mbind Result_bind] in H; try discriminate.
    destruct (reset (blank m)) as [self0| |] eqn:Er;
      cbn [mbind Result_bind] in H; try discriminate.
    unfold readArray in H.
    destruct (datasets config !! "input_subtract"%string) as [[b|sub]|];
      cbn [mbind Result_bind] in H; try discriminate.
    destruct (extent sub =? extent (m_input_sub self0)) eqn:Es;
      cbn [mbind Result_bind] in H; try discriminate.
    destruct (datasets config !! "input_divide"%string) as [[b|div]|];
      cbn [mbind Result_bind] in H; try discriminate.
    destruct (extent div =? extent (m_input_div self0)) eqn:Ed;
      cbn [mbind Result_bind] in H; try discriminate.
    injection H as <- _. cbn [m_model] in *.
    pose proof (reset_model _ _ Er) as Hm. cbn [blank m_model] in Hm. subst m.
    rewrite (reset_spec (blank (m_model self0)) Hwf) in Er.
    cbn [blank m_model] in Er. destruct self0 as [m0 n0 c0 s0 v0].
    cbn [m_model m_input_sub m_input_div m_input_size m_input_cache] in *.
    unfold recomputed in Er. injection Er as E1 E2 E3 E4. subst n0 c0 s0 v0.
    apply Z.eqb_eq in Es, Ed. unfold extent in Es, Ed.
    rewrite ?repeat_length, ?length_replicate in Es, Ed.
    unfold consistent, inputSize, extent.
    cbn [m_model m_input_size m_input_cache m_input_sub m_input_div].
    rewrite ?repeat_length, ?length_replicate. repeat split; lia.
Qed.

Lemma X12_constructed_machine_witness :
  consistent machine_a /\ inputSize machine_a = max_feature_index model_a.
Proof.
  destruct (X12_constructed_machine solver_a (Some model_a) ∅ "" container_a
              false machine_a well_formed_model_a) as (Hc & Hn & _).
  - left. vm_compute. reflexivity.
  - split; [exact Hc | exact Hn].
Defined.

End MachineExtras.

(** * Further properties of the record file *)

Section FileExtras.
Import SVMFile.

Lemma getline_scan_split buf :
  match getline_scan buf with
  | (l, Some rest) =>
      split_lines buf = (l :: (split_lines rest).1, (split_lines rest).2)
  | (l, None) => split_lines buf = ([], l)
  end.
Proof.
  induction buf as [|c buf IH]; [reflexivity|].
  cbn [getline_scan split_lines].
  destruct (is_char "010" c).
  - destruct (split_lines buf) as [ls tail]. reflexivity.
  - destruct (getline_scan buf) as [l [rest|]]; rewrite IH; reflexivity.
Qed.

Lemma split_lines_length buf :
  (length (split_lines buf).1 + length (split_lines buf).2 <= length buf)%nat.
Proof.
  induction buf as [|c buf IH]; [simpl; lia|].
  cbn [split_lines]. destruct (split_lines buf) as [ls tail].
  destruct (is_char "010" c); [simpl in *; lia|].
  destruct ls; simpl in *; lia.
Qed.

Lemma filter_length_le {A : Type} (p : A -> bool) (l : list A) :
  (length (List.filter p l) <= length l)%nat.
Proof.
  induction l as [|a l IH]; [reflexivity|]. simpl.
  destruct (p a); simpl; lia.
Qed.

Lemma closed_records_length buf :
  (length (closed_records buf) <= length buf)%nat.
Proof.
  unfold closed_records.
  pose proof (filter_length_le nonblank (split_lines buf).1).
  pose proof (split_lines_length buf). lia.
Qed.

Lemma nonblank_trim l : nonblank l = true <-> trim l <> [].
Proof.
  unfold nonblank. rewrite trim_nil.
  destruct (forallb isspace l); simpl; split; congruence.
Qed.

(** What the loop for the next line finds on any text: the first line with
    a newline that is not blank, or else the last line. *)
Lemma next_line_split fuel : forall f,
  good f = true ->
  (length (rdbuf f) < fuel)%nat ->
  match closed_records (rdbuf f) with
  | l :: ls =>
      exists rest,
        next_line fuel f [] = (mk_istream rest false false, trim l) /\
        closed_records rest = ls /\
        (split_lines rest).2 = (split_lines (rdbuf f)).2 /\
        (length rest < length (rdbuf f))%nat
  | [] =>
      next_line fuel f []
      = (mk_istream [] true (at_end (split_lines (rdbuf f)).2),
         trim (split_lines (rdbuf f)).2)
  end.
Proof.
  induction fuel as [|fuel IH]; intros f Hg Hf; [lia|].
  cbn [next_line]. rewrite Hg. unfold getline. rewrite Hg.
  pose proof (getline_scan_split (rdbuf f)) as Hs.
  pose proof (getline_scan_length (rdbuf f)) as Hlen.
  unfold closed_records in *.
  destruct (getline_scan (rdbuf f)) as [line [rest|]]; cbn [fst snd] in *.
  - specialize (Hlen rest eq_refl). rewrite Hs. cbn [fst snd List.filter].
    destruct (nonblank line) eqn:Hn.
    + exists rest. apply nonblank_trim in Hn.
      destruct (trim line) as [|c t] eqn:Et; [congruence|].
      destruct fuel; cbn [next_line]; auto.
    + assert (Et : trim line = []).
      { destruct (trim line) eqn:E; [reflexivity|].
        assert (nonblank line = true) by (apply nonblank_trim; congruence).
        congruence. }
      rewrite Et.
      specialize (IH (mk_istream rest false false) eq_refl ltac:(simpl; lia)).
      cbn [rdbuf] in IH.
      destruct (List.filter nonblank (split_lines rest).1) as [|l ls].
      * exact IH.
      * destruct IH as (rest' & H1 & H2 & H3 & H4).
        exists rest'. repeat split; try assumption. lia.
  - rewrite Hs. cbn [fst snd List.filter].
    destruct (trim line) as [|c t] eqn:Et.
    + destruct fuel; cbn [next_line good eofbit negb andb]; reflexivity.
    + destruct line as [|c0 line0]; [discriminate|].
      destruct fuel; cbn [next_line at_end]; reflexivity.
Qed.

(** The count of the constructor on any text. *)
Lemma scan_count fuel u : forall f shape n,
  good f = true ->
  (length (rdbuf f) < fuel)%nat ->
  0 <= n -> n + Z.of_nat (length (rdbuf f)) <= SIZE_MAX ->
  (scan fuel u f shape n).2 = n + Z.of_nat (length (closed_records (rdbuf f))).
Proof.
  induction fuel as [|fuel IH]; intros f shape n Hg Hf Hn Hmax; [lia|].
  cbn [scan]. rewrite Hg. unfold get_line.
  pose proof (next_line_split (S (length (rdbuf f))) f Hg ltac:(lia)) as Hs.
  destruct (closed_records (rdbuf f)) as [|l ls] eqn:Ec.
  - rewrite Hs. cbn [good eofbit negb andb snd]. simpl. lia.
  - destruct Hs as (rest & -> & H2 & _ & H4).
    cbn [good eofbit failbit negb andb].
    destruct (extract num_get_int (istringstream (trim l)) 0) as [iss lbl].
    assert (E : to_size_t (n + 1) = n + 1).
    { apply to_size_t_id. unfold is_size_t. lia. }
    rewrite E.
    rewrite IH; cbn [rdbuf]; try reflexivity; try lia.
    rewrite H2. cbn [length]. lia.
Qed.

Lemma foldr_max_elem (s x : Z) (xs : list Z) :
  In x xs -> x <= foldr Z.max s xs.
Proof.
  induction xs as [|y xs IH]; simpl; [tauto|].
  intros [-> | H]; [lia | specialize (IH H); lia].
Qed.

Lemma foldr_max_attained (s : Z) (xs : list Z) :
  foldr Z.max s xs = s \/ In (foldr Z.max s xs) xs.
Proof.
  induction xs as [|y xs IH]; simpl; [auto|].
  destruct (Z.max_spec y (foldr Z.max s xs)) as [[_ ->] | [_ ->]]; tauto.
Qed.

Lemma filter_head {A : Type} (p : A -> bool) (xs : list A) (x : A) (r : list A) :
  List.filter p xs = x :: r -> p x = true.
Proof.
  intros H. assert (Hin : In x (List.filter p xs)) by (rewrite H; left; reflexivity).
  apply filter_In in Hin. tauto.
Qed.

(** The line that [read_] gets on a good stream, and the stream after it. *)
Lemma get_line_split f :
  good f = true ->
  match closed_records (rdbuf f) with
  | l :: ls =>
      exists rest,
        get_line f = (mk_istream rest false false, trim l) /\ trim l <> [] /\
        closed_records rest = ls /\
        (split_lines rest).2 = (split_lines (rdbuf f)).2 /\
        (length rest < length (rdbuf f))%nat
  | [] =>
      get_line f
      = (mk_istream [] true (at_end (split_lines (rdbuf f)).2),
         trim (split_lines (rdbuf f)).2)
  end.
Proof.
  intros Hg. unfold get_line.
  pose proof (next_line_split (S (length (rdbuf f))) f Hg ltac:(lia)) as Hs.
  destruct (closed_records (rdbuf f)) as [|l ls] eqn:Ec; [exact Hs|].
  destruct Hs as (rest & H1 & H2 & H3 & H4).
  exists rest. repeat split; try assumption.
  apply nonblank_trim. apply (filter_head _ _ _ _ Ec).
Qed.

(** The number of records a pass returns on any text. *)
Lemma read_all_count fuel : forall u i self lbl vals,
  good (m_file self) = true ->
  to_size_t (extent vals) = m_shape self ->
  (length (closed_records (rdbuf (m_file self))) + 1 < fuel)%nat ->
  length (read_all fuel u i self lbl vals)
  = (length (closed_records (rdbuf (m_file self)))
     + length (open_record (rdbuf (m_file self))))%nat.
Proof.
  induction fuel as [|fuel IH]; intros u i self lbl vals Hg Hx Hf; [lia|].
  cbn [read_all]. unfold read. rewrite Hx, Z.eqb_refl. cbn [negb].
  destruct (read__good (u i) self lbl vals Hg) as [Hempty Hline].
  pose proof (get_line_split (m_file self) Hg) as Hs.
  destruct (closed_records (rdbuf (m_file self))) as [|l ls] eqn:Ec.
  - rewrite Hs in Hempty, Hline. cbn [fst snd] in *.
    unfold open_record. cbn [List.filter length Nat.add].
    destruct (nonblank (split_lines (rdbuf (m_file self))).2) eqn:Hn.
    + apply nonblank_trim in Hn.
      destruct (Hline Hn) as (lbl1 & vals1 & log & -> & He).
      cbn [ret label values length]. f_equal.
      destruct fuel as [|fuel]; [lia|]. cbn [read_all]. unfold read.
      cbn [m_shape]. rewrite He, Hx, Z.eqb_refl. cbn [negb].
      rewrite read__not_good by reflexivity. reflexivity.
    + assert (Et : trim (split_lines (rdbuf (m_file self))).2 = []).
      { destruct (trim _) eqn:E; [reflexivity|].
        assert (nonblank (split_lines (rdbuf (m_file self))).2 = true)
          by (apply nonblank_trim; congruence).
        congruence. }
      rewrite (Hempty Et). reflexivity.
  - destruct Hs as (rest & Hgl & Hne & H2 & H3 & H4).
    rewrite Hgl in Hline. cbn [fst snd] in Hline.
    destruct (Hline Hne) as (lbl1 & vals1 & log & -> & He).
    cbn [ret label values length]. rewrite IH.
    + cbn [m_file rdbuf]. rewrite H2. unfold open_record. rewrite H3.
      reflexivity.
    + reflexivity.
    + cbn [m_shape]. rewrite He. exact Hx.
    + cbn [m_file rdbuf]. rewrite H2. cbn [length] in Hf. lia.
Qed.

(** X13. On a file of well-formed lines, each with its newline, the
    constructor counts the records, blank lines left out, and takes as
    shape the largest index found in any record: no index of the file
    exceeds the shape, and the shape is an index of some record unless it
    is 0.  What the locals held is of no account, and the reader is left
    at the start of the file. *)
Theorem X13_shape_and_count (fs : filesystem) (u : indeterminate)
  (name : string) (lines : list line) :
  forallb line_ok lines = true ->
  Z.of_nat (length lines) <= SIZE_MAX ->
  fs !! name = Some (file_text lines) ->
  exists f : t,
    SVMFile fs u name = Ok f /\
    m_file f = istringstream (file_text lines) /\
    m_n_samples f = Z.of_nat (length (samples lines)) /\
    (forall s i, In s (samples lines) -> In i (indices s) -> i <= m_shape f) /\
    (m_shape f = 0 \/ exists s, In s (samples lines) /\ In (m_shape f) (indices s)).
Proof.
  intros Hok Hl Hf. eexists. split; [apply (SVMFile_lines fs u name lines Hok Hl Hf)|].
  cbn [m_file m_n_samples m_shape]. split; [reflexivity|]. split; [reflexivity|].
  unfold max_index. split.
  - intros s i Hs Hi. apply foldr_max_elem. apply in_flat_map. eauto.
  - destruct (foldr_max_attained 0 (flat_map indices (samples lines))) as [H|H];
      [left; exact H | right].
    apply in_flat_map in H. exact H.
Qed.

Lemma X13_shape_and_count_witness :
  exists f : t,
    SVMFile (disk (file_text lines_a)) u_a "data.svm" = Ok f /\
    m_file f = istringstream (file_text lines_a) /\
    m_n_samples f = 1 /\ 3 <= m_shape f.
Proof.
  destruct (X13_shape_and_count (disk (file_text lines_a)) u_a "data.svm" lines_a)
    as (f & H1 & H2 & H3 & H4 & _).
  - vm_compute. reflexivity.
  - vm_compute. discriminate.
  - apply lookup_singleton_eq.
  - exists f. split; [exact H1|]. split; [exact H2|]. split; [exact H3|].
    apply (H4 sample_a 3); [left; reflexivity | right; left; reflexivity].
Defined.

(** The constructor on any text. *)
Lemma SVMFile_count (fs : filesystem) (u : indeterminate) (name : string)
  (content : list ascii) :
  fs !! name = Some content ->
  Z.of_nat (length content) <= SIZE_MAX ->
  exists shape,
    SVMFile fs u name
    = Ok (mk name (istringstream content) shape
            (Z.of_nat (length (closed_records content)))).
Proof.
  intros Hf Hl. unfold SVMFile, open. rewrite Hf. cbn [fail failbit rdbuf].
  pose proof (scan_count (S (length content)) u
                (mk_istream content false false) 0 0 eq_refl
                ltac:(simpl; lia) ltac:(lia) ltac:(simpl; lia)) as Hc.
  destruct (scan _ u _ 0 0) as [[f' shape] n]. cbn [snd rdbuf] in Hc.
  exists shape. rewrite Hc. reflexivity.
Qed.

(** X14. On any text at all the constructor succeeds, and it counts the
    lines that end with a newline and hold a character other than white
    space: a last line without its newline is not counted.  The reader
    is left at the start of the text.  Only a file that cannot be opened
    makes it throw. *)
Theorem X14_count_on_any_text (fs : filesystem) (u : indeterminate)
  (name : string) (content : list ascii) :
  fs !! name = Some content ->
  Z.of_nat (length content) <= SIZE_MAX ->
  SVMFile (delete name fs) u name = Throw IOError /\
  exists f : t,
    SVMFile fs u name = Ok f /\
    m_filename f = name /\
    m_file f = istringstream content /\
    m_n_samples f = Z.of_nat (length (closed_records content)).
Proof.
  intros Hf Hl. split.
  - unfold SVMFile, open. rewrite lookup_delete_eq. reflexivity.
  - destruct (SVMFile_count fs u name content Hf Hl) as [shape E].
    eexists. split; [exact E|]. cbn [m_filename m_file m_n_samples].
    repeat split.
Qed.

Lemma X14_count_on_any_text_witness :
  exists f : t,
    SVMFile (disk unterminated) u_a "data.svm" = Ok f /\
    m_n_samples f = 1.
Proof.
  destruct (X14_count_on_any_text (disk unterminated) u_a "data.svm" unterminated)
    as (_ & f & H1 & _ & _ & H2).
  - apply lookup_singleton_eq.
  - vm_compute. discriminate.
  - exists f. split; [exact H1 | exact H2].
Defined.

(** X15. The end of the records is final: a call of [read_] that returns
    false has changed neither the label nor the values and has written
    nothing, and every later call returns false as well, whatever it is
    given. *)
Theorem X15_end_is_final (u : indeterminate) (self : t) (lbl : Z)
  (vals : list double) :
  ret (read_ u self lbl vals).1 = false ->
  (read_ u self lbl vals).1 = mk_outcome false lbl vals [] /\
  forall (u' : indeterminate) (lbl' : Z) (vals' : list double),
    read_ u' (read_ u self lbl vals).2 lbl' vals'
    = (mk_outcome false lbl' vals' [], (read_ u self lbl vals).2).
Proof.
  intros Hr. destruct (good (m_file self)) eqn:Hg.
  - destruct (read__good u self lbl vals Hg) as [Hempty Hline].
    destruct (get_line (m_file self)) as [f1 line] eqn:Egl. cbn [fst snd] in *.
    destruct line as [|c line].
    + rewrite (Hempty eq_refl). cbn [fst snd]. split; [reflexivity|].
      intros u' lbl' vals'. apply read__not_good. cbn [m_file].
      unfold get_line in Egl.
      destruct (next_line_exit (S (length (rdbuf (m_file self)))) (m_file self)
                  Hg ltac:(lia)) as [[H|H] _];
        rewrite Egl in H; cbn [fst snd] in H; [congruence | exact H].
    + destruct (Hline ltac:(discriminate)) as (lbl1 & vals1 & log & E & _).
      rewrite E in Hr. discriminate Hr.
  - rewrite (read__not_good u self lbl vals Hg). cbn [fst snd].
    split; [reflexivity|]. intros u' lbl' vals'. apply read__not_good. exact Hg.
Qed.

Lemma X15_end_is_final_witness :
  (read_ u_a (before [] 3 0) 7 [d1; d1; d1]).1 = mk_outcome false 7 [d1; d1; d1] [].
Proof.
  apply (X15_end_is_final u_a (before [] 3 0) 7 [d1; d1; d1]).
  vm_compute. reflexivity.
Defined.

(** X16. A call of [read] that does not throw and makes no write
    outside the vector leaves the extent of the values, the name of the
    file, the shape and the count as they were, and never gives
    characters back to the stream; when it returns a record it has
    consumed at least one character, so that a loop of such reads comes
    to its end.  (Of a call that writes outside the vector, undefined in
    the source, nothing is stated.) *)
Theorem X16_read_keeps_and_advances (u : indeterminate) (self self' : t)
  (lbl : Z) (vals : list double) (o : outcome) :
  read u self lbl vals = Ok (o, self') ->
  stray o = [] ->
  extent (values o) = extent vals /\
  m_filename self' = m_filename self /\
  m_shape self' = m_shape self /\
  m_n_samples self' = m_n_samples self /\
  (length (rdbuf (m_file self')) <= length (rdbuf (m_file self)))%nat /\
  (ret o = true ->
   (length (rdbuf (m_file self')) < length (rdbuf (m_file self)))%nat).
Proof.
  intros H _. destruct (read_fields _ _ _ _ _ _ H) as (F1 & F2 & F3).
  unfold read in H.
  destruct (negb (to_size_t (extent vals) =? m_shape self)); [discriminate|].
  injection H as H.
  destruct (good (m_file self)) eqn:Hg.
  - destruct (read__good u self lbl vals Hg) as [Hempty Hline].
    pose proof (get_line_split (m_file self) Hg) as Hs.
    pose proof (split_lines_length (rdbuf (m_file self))) as Hlen.
    destruct (closed_records (rdbuf (m_file self))) as [|l ls].
    + rewrite Hs in Hempty, Hline. cbn [fst snd] in *.
      destruct (trim (split_lines (rdbuf (m_file self))).2) as [|c t] eqn:Et.
      * rewrite (Hempty eq_refl) in H. injection H as <- <-.
        cbn [values m_file rdbuf length ret].
        repeat split; try assumption; try lia; try discriminate.
      * destruct (Hline ltac:(discriminate)) as (lbl1 & vals1 & log & E & He).
        rewrite E in H. injection H as <- <-.
        cbn [values m_file rdbuf length ret].
        assert ((split_lines (rdbuf (m_file self))).2 <> []).
        { intros E0. rewrite E0 in Et. discriminate Et. }
        destruct ((split_lines (rdbuf (m_file self))).2); [congruence|].
        cbn [length] in Hlen.
        repeat split; try assumption; try lia.
    + destruct Hs as (rest & Hgl & Hne & _ & _ & H4).
      rewrite Hgl in Hline. cbn [fst snd] in Hline.
      destruct (Hline Hne) as (lbl1 & vals1 & log & E & He).
      rewrite E in H. injection H as <- <-.
      cbn [values m_file rdbuf ret].
      repeat split; try assumption; try lia.
  - rewrite (read__not_good u self lbl vals Hg) in H. injection H as <- <-.
    cbn [values ret]. repeat split; try assumption; try lia; try discriminate.
Qed.

Lemma X16_read_keeps_and_advances_witness :
  stray (read_ u_a file_a 0 [d0; d0; d0]).1 = [] /\
  extent (values (read_ u_a file_a 0 [d0; d0; d0]).1) = 3 /\
  m_shape (read_ u_a file_a 0 [d0; d0; d0]).2 = 3.
Proof.
  assert (C : negb (to_size_t (extent [d0; d0; d0]) =? m_shape file_a) = false)
    by (vm_compute; reflexivity).
  assert (Hs : stray (read_ u_a file_a 0 [d0; d0; d0]).1 = [])
    by (vm_compute; reflexivity).
  split; [exact Hs|].
  destruct (X16_read_keeps_and_advances u_a file_a
              (read_ u_a file_a 0 [d0; d0; d0]).2 0 [d0; d0; d0]
              (read_ u_a file_a 0 [d0; d0; d0]).1)
    as (H1 & _ & H3 & _).
  - unfold read. rewrite C.
    destruct (read_ u_a file_a 0 [d0; d0; d0]) as [o s']. reflexivity.
  - exact Hs.
  - split; [exact H1 | exact H3].
Defined.



Lemma indices_pairs s : indices s = fst <$> (pair_value <$> s_pairs s).
Proof.
  unfold indices. rewrite <- list_fmap_compose. reflexivity.
Qed.

(** The pass over a file of well-formed lines whose records all have a
    pair, with indices between 1 and the shape, makes no write outside
    the vector. *)
Lemma pass_stray_lines fuel : forall lines u i self lbl vals,
  forallb line_ok lines = true ->
  Forall (fun s => s_pairs s <> []) (samples lines) ->
  Forall (fun s => Forall (fun i => 1 <= i <= m_shape self) (indices s))
    (samples lines) ->
  m_file self = istringstream (file_text lines) ->
  extent vals = m_shape self -> is_array vals ->
  pass_stray fuel u i self lbl vals = [].
Proof.
  induction fuel as [|fuel IH]; intros lines u i self lbl vals Hok Hpairs Hidx
    Hf Hext Harr; [reflexivity|].
  cbn [pass_stray]. unfold read. rewrite to_size_t_extent by exact Harr.
  rewrite Hext, Z.eqb_refl. cbn [negb].
  rewrite (read__lines (u i) self lbl vals lines Hok Hf).
  destruct (first_sample lines) as [[s rest]|] eqn:E; [|reflexivity].
  destruct (first_sample_some lines s rest Hok E) as (Hsam & Hlen & Hs & Hrest).
  rewrite Hsam in *.
  inversion Hpairs as [|? ? Hne Hpairs']; subst.
  inversion Hidx as [|? ? Hin Hidx']; subst.
  cbv zeta. cbn [ret label values stray].
  assert (Hfill : extent (blitz_fill vals d0) = m_shape self)
    by (rewrite blitz_fill_extent; exact Hext).
  rewrite apply_writes_in.
  - cbn [app]. apply (IH rest); try assumption; try reflexivity.
    + rewrite apply_writes_extent. exact Hfill.
    + unfold is_array in *. rewrite apply_writes_extent, Hfill, <- Hext.
      exact Harr.
  - rewrite Hfill. apply written_in.
    + destruct (s_pairs s); [contradiction | discriminate].
    + rewrite indices_pairs in Hin. apply Forall_fmap in Hin. exact Hin.
Qed.

(** X18. A pass over a file of well-formed lines in which every record
    has a pair and no index is 0 returns the records of the file in their
    order, blank lines left out: the label of each, and the vector that
    the writes of its pairs make of a vector of zeros.  No write of the
    pass falls outside the vector.  The number of the records is the
    count of the constructor, and the pass after a [reset] returns them
    again, whatever the locals and the arguments hold. *)
Theorem X18_pass_returns_the_records (fs : filesystem) (u0 : indeterminate)
  (name : string) (lines : list line) :
  forallb line_ok lines = true ->
  Forall (fun s => s_pairs s <> []) (samples lines) ->
  Forall (fun s => Forall (fun i => 1 <= i) (indices s)) (samples lines) ->
  Z.of_nat (length lines) <= SIZE_MAX ->
  max_index lines <= INT_MAX ->
  fs !! name = Some (file_text lines) ->
  exists f : t,
    SVMFile fs u0 name = Ok f /\
    forall (u u' : nat -> indeterminate) (lbl lbl' : Z)
           (vals vals' : list double) (k : nat),
      extent vals = m_shape f -> extent vals' = m_shape f ->
      let records :=
        (fun s => (label_value s, dense (Z.to_nat (m_shape f)) s))
          <$> samples lines in
      read_all (S (length lines)) u 0 f lbl vals = records /\
      pass_stray (S (length lines)) u 0 f lbl vals = [] /\
      Z.of_nat (length records) = m_n_samples f /\
      read_all (S (length lines)) u' 0
        (reset fs (after_reads k u f lbl vals)) lbl' vals' = records /\
      pass_stray (S (length lines)) u' 0
        (reset fs (after_reads k u f lbl vals)) lbl' vals' = [].
Proof.
  intros Hok Hp Hone Hl Hmax Hf.
  pose proof (SVMFile_lines fs u0 name lines Hok Hl Hf) as E.
  eexists. split; [exact E|].
  intros u u' lbl lbl' vals vals' k Hv Hv' records. subst records.
  cbn [m_shape m_n_samples] in *.
  assert (Hpass : forall (w : nat -> indeterminate) (l0 : Z) (v0 : list double),
            extent v0 = max_index lines ->
            read_all (S (length lines)) w 0
              (mk name (istringstream (file_text lines)) (max_index lines)
                 (Z.of_nat (length (samples lines)))) l0 v0
            = (fun s => (label_value s, dense (Z.to_nat (max_index lines)) s))
                <$> samples lines).
  { intros w l0 v0 H0.
    apply (read_all_lines (S (length lines)) lines w 0%nat
             (mk name (istringstream (file_text lines)) (max_index lines)
                (Z.of_nat (length (samples lines)))) l0 v0 Hok Hp);
      [reflexivity | exact H0 | unfold is_array; lia | lia]. }
  assert (Hin : Forall (fun s => Forall (fun i => 1 <= i <= max_index lines)
                                  (indices s)) (samples lines)).
  { rewrite Forall_forall in Hone. apply Forall_forall. intros s Hs.
    specialize (Hone s Hs). rewrite Forall_forall in Hone.
    apply Forall_forall. intros i Hi. split; [apply Hone; exact Hi|].
    unfold max_index. apply foldr_max_elem. apply in_flat_map.
    exists s. split; apply list_elem_of_In; assumption. }
  assert (Hquiet : forall (w : nat -> indeterminate) (l0 : Z) (v0 : list double),
            extent v0 = max_index lines ->
            pass_stray (S (length lines)) w 0
              (mk name (istringstream (file_text lines)) (max_index lines)
                 (Z.of_nat (length (samples lines)))) l0 v0 = []).
  { intros w l0 v0 H0.
    apply (pass_stray_lines (S (length lines)) lines w 0%nat
             (mk name (istringstream (file_text lines)) (max_index lines)
                (Z.of_nat (length (samples lines)))) l0 v0 Hok Hp Hin);
      [reflexivity | exact H0 | unfold is_array; lia]. }
  split; [apply Hpass; exact Hv|].
  split; [apply Hquiet; exact Hv|]. split.
  - rewrite length_fmap. reflexivity.
  - rewrite (reset_restores fs u0 name _ k u lbl vals E).
    split; [apply Hpass; exact Hv' | apply Hquiet; exact Hv'].
Qed.

Lemma X18_pass_returns_the_records_witness :
  exists f : t,
    SVMFile (disk (file_text lines_a)) u_a "data.svm" = Ok f /\
    read_all 4 (garbage u_a) 0 f 0 [d1; d1; d1] = [(1, [half; d0; d2])].
Proof.
  destruct (X18_pass_returns_the_records (disk (file_text lines_a)) u_a
              "data.svm" lines_a) as (f & H1 & H2).
  - vm_compute. reflexivity.
  - repeat constructor; discriminate.
  - repeat constructor; vm_compute; discriminate.
  - vm_compute. discriminate.
  - vm_compute. discriminate.
  - apply lookup_singleton_eq.
  - exists f. split; [exact H1|].
    assert (Hs : m_shape f = 3).
    { rewrite (SVMFile_lines (disk (file_text lines_a)) u_a "data.svm" lines_a
                 eq_refl ltac:(vm_compute; discriminate)
                 (lookup_singleton_eq _ _)) in H1.
      injection H1 as <-. vm_compute. reflexivity. }
    destruct (H2 (garbage u_a) (garbage u_a) 0 0 [d1; d1; d1] [d1; d1; d1] 0%nat)
      as (H3 & _); [rewrite Hs; reflexivity | rewrite Hs; reflexivity |].
    change (S (length lines_a)) with 4%nat in H3. rewrite H3, Hs.
    vm_compute. reflexivity.
Defined.

Lemma repeat_lookup {A : Type} (x : A) (n i : nat) :
  (i < n)%nat -> repeat x n !! i = Some x.
Proof.
  revert i. induction n as [|n IH]; intros i Hi; [lia|].
  destruct i as [|i]; [reflexivity|]. simpl. apply IH. lia.
Qed.

(** Writes within the array leave the elements that none of them names. *)
Lemma apply_writes_lookup_other ws : forall vals log (j : Z),
  Forall (fun w : Z * double => 1 <= w.1 <= extent vals) ws ->
  0 <= j ->
  (forall w, In w ws -> w.1 <> j + 1) ->
  (apply_writes ws vals log).1 !! Z.to_nat j = vals !! Z.to_nat j.
Proof.
  induction ws as [|w ws IH]; intros vals log j Hin Hj Hne; [reflexivity|].
  rewrite apply_writes_cons.
  apply Forall_cons in Hin as [Hw Hin].
  rewrite blitz_write_in by lia. cbn [fst snd].
  rewrite IH.
  - apply list_lookup_insert_ne.
    specialize (Hne w ltac:(left; reflexivity)). lia.
  - eapply Forall_impl; [exact Hin|]. intros w' H'. cbn beta in *.
    unfold extent in *. rewrite length_insert. exact H'.
  - exact Hj.
  - intros w' H'. apply Hne. right. exact H'.
Qed.

(** Writes within the array that agree on the element [i] leave there
    what they wrote. *)
Lemma apply_writes_lookup_hit ws : forall vals log (i : Z) (x : double),
  Forall (fun w : Z * double => 1 <= w.1 <= extent vals) ws ->
  In (i, x) ws ->
  (forall y, In (i, y) ws -> y = x) ->
  (apply_writes ws vals log).1 !! Z.to_nat (i - 1) = Some x.
Proof.
  induction ws as [|w ws IH]; intros vals log i x Hin Hi Hsame; [destruct Hi|].
  rewrite apply_writes_cons.
  apply Forall_cons in Hin as [Hw Hin].
  rewrite blitz_write_in by lia. cbn [fst snd].
  assert (Hin' : Forall (fun w0 : Z * double =>
                   1 <= w0.1 <= extent (<[Z.to_nat (w.1 - 1) := w.2]> vals)) ws).
  { eapply Forall_impl; [exact Hin|]. intros w' H'. cbn beta in *.
    unfold extent in *. rewrite length_insert. exact H'. }
  destruct (in_dec Z.eq_dec i (fst <$> ws)) as [Hd | Hd].
  - apply list_elem_of_In in Hd. apply list_elem_of_fmap in Hd as ([i' y] & E & Hy).
    cbn [fst] in E. subst i'. apply list_elem_of_In in Hy.
    assert (y = x) as -> by (apply Hsame; right; exact Hy).
    apply IH; [exact Hin' | exact Hy |].
    intros y' H'. apply Hsame. right. exact H'.
  - assert (Hw' : w = (i, x)).
    { destruct Hi as [E | Hi]; [exact E|]. exfalso. apply Hd.
      apply list_elem_of_In. apply list_elem_of_fmap. exists (i, x).
      split; [reflexivity | apply list_elem_of_In; exact Hi]. }
    subst w. cbn [fst snd] in *.
    assert (Hnot : forall w', In w' ws -> w'.1 <> i - 1 + 1).
    { intros w' H' E. apply Hd. apply list_elem_of_In. apply list_elem_of_fmap.
      exists w'. split; [lia | apply list_elem_of_In; exact H']. }
    rewrite (apply_writes_lookup_other ws _ log (i - 1) Hin' ltac:(lia) Hnot).
    apply list_lookup_insert_eq. unfold extent in Hw. lia.
Qed.

Lemma NoDup_fst_agree {A B : Type} (l : list (A * B)) (x : A) (y1 y2 : B) :
  NoDup (fst <$> l) -> (x, y1) ∈ l -> (x, y2) ∈ l -> y1 = y2.
Proof.
  induction l as [|[a b] l IH]; intros Hnd H1 H2.
  - apply elem_of_nil in H1. destruct H1.
  - cbn [fmap list_fmap fst] in Hnd. apply NoDup_cons in Hnd as [Hna Hnd].
    apply elem_of_cons in H1 as [E1 | H1]; apply elem_of_cons in H2 as [E2 | H2].
    + congruence.
    + injection E1 as -> ->. exfalso. apply Hna.
      apply list_elem_of_fmap. exists (a, y2). split; [reflexivity | exact H2].
    + injection E2 as -> ->. exfalso. apply Hna.
      apply list_elem_of_fmap. exists (a, y1). split; [reflexivity | exact H1].
    + apply IH; assumption.
Qed.

(** X19. The vector of a record whose indices are distinct and lie
    between 1 and the shape: [read_] returns true with the label of the
    record, writes nothing outside the array, and leaves the value of
    each pair at the position of its index less one and zero at every
    position that no index names.  What the array and the locals held
    before is of no account. *)
Theorem X19_vector_of_a_record (u : indeterminate) (self : t) (lbl : Z)
  (vals : list double) (s : sample) (rest : list line) :
  sample_ok s = true ->
  forallb line_ok rest = true ->
  m_file self = istringstream (file_text (Sample s :: rest)) ->
  extent vals = m_shape self ->
  s_pairs s <> [] ->
  NoDup (indices s) ->
  Forall (fun i => 1 <= i <= m_shape self) (indices s) ->
  let o := (read_ u self lbl vals).1 in
  ret o = true /\ label o = label_value s /\ stray o = [] /\
  extent (values o) = m_shape self /\
  (forall p, In p (s_pairs s) ->
     values o !! Z.to_nat (digits_value p.1 - 1) = Some (numeral_value p.2)) /\
  (forall j : Z, 0 <= j < m_shape self -> ~ In (j + 1) (indices s) ->
     values o !! Z.to_nat j = Some d0).
Proof.
  intros Hs Hrest Hfile Hext Hne Hnd Hrange o. subst o.
  rewrite (read__lines u self lbl vals (Sample s :: rest));
    [| cbn [forallb line_ok]; rewrite Hs, Hrest; reflexivity | exact Hfile].
  cbn [first_sample fst snd ret label values stray].
  set (ps := pair_value <$> s_pairs s).
  set (k := Z.to_nat (m_shape self)).
  set (ws := written k ps (to_int (u_pos u), u_value u)).
  assert (Hps : ps <> []).
  { subst ps. destruct (s_pairs s); [congruence | discriminate]. }
  assert (Hfill : extent (blitz_fill vals d0) = m_shape self)
    by (rewrite blitz_fill_extent; exact Hext).
  assert (Hpr : Forall (fun w : Z * double =>
                  1 <= w.1 <= extent (blitz_fill vals d0)) ps).
  { rewrite Hfill. rewrite indices_pairs in Hrange. fold ps in Hrange.
    apply Forall_fmap in Hrange. exact Hrange. }
  assert (Hwr : Forall (fun w : Z * double =>
                  1 <= w.1 <= extent (blitz_fill vals d0)) ws)
    by (apply written_in; assumption).
  assert (Hlen : (length ps <= k)%nat).
  { assert (Hsub : fst <$> ps ⊆+ seqZ 1 (m_shape self)).
    { apply NoDup_submseteq.
      - rewrite indices_pairs in Hnd. exact Hnd.
      - intros x Hx. apply elem_of_seqZ.
        rewrite indices_pairs in Hrange. fold ps in Hrange.
        rewrite Forall_forall in Hrange. specialize (Hrange x Hx). lia. }
    apply submseteq_length in Hsub.
    rewrite length_fmap, length_seqZ in Hsub. exact Hsub. }
  assert (Hin_ws : forall w, In w ws -> In w ps).
  { intros w Hw. apply list_elem_of_In.
    assert (Hall : Forall (fun w => w ∈ ps) ws).
    { apply written_in; [exact Hps|]. apply Forall_forall. auto. }
    rewrite Forall_forall in Hall. apply Hall. apply list_elem_of_In. exact Hw. }
  assert (Hin_ps : forall w, In w ps -> In w ws).
  { intros w Hw. subst ws. unfold written. rewrite take_ge by lia.
    apply in_or_app. left. exact Hw. }
  split; [reflexivity|]. split; [reflexivity|].
  split; [apply apply_writes_in; exact Hwr|].
  split; [rewrite apply_writes_extent; exact Hfill|].
  split.
  - intros p Hp.
    apply (apply_writes_lookup_hit ws (blitz_fill vals d0) []
             (digits_value p.1) (numeral_value p.2) Hwr).
    + apply Hin_ps. subst ps. apply list_elem_of_In. apply list_elem_of_fmap.
      exists p. split; [reflexivity | apply list_elem_of_In; exact Hp].
    + intros y Hy. apply Hin_ws in Hy.
      assert (Hx : In (digits_value p.1, numeral_value p.2) ps).
      { subst ps. apply list_elem_of_In. apply list_elem_of_fmap.
        exists p. split; [reflexivity | apply list_elem_of_In; exact Hp]. }
      rewrite indices_pairs in Hnd. fold ps in Hnd.
      apply list_elem_of_In in Hy, Hx.
      apply (NoDup_fst_agree ps (digits_value p.1) y (numeral_value p.2) Hnd Hy Hx).
  - intros j Hj Hnot.
    rewrite (apply_writes_lookup_other ws (blitz_fill vals d0) [] j Hwr);
      [| lia |].
    + unfold blitz_fill. apply repeat_lookup.
      unfold extent in Hext. lia.
    + intros w Hw E. apply Hnot. rewrite indices_pairs. fold ps.
      apply list_elem_of_In. apply list_elem_of_fmap. exists w.
      split; [lia | apply list_elem_of_In; apply Hin_ws; exact Hw].
Qed.

Lemma X19_vector_of_a_record_witness :
  values (read_ u_a (before [Sample sample_a] 3 1) 0 [d1; d1; d1]).1 !! 2%nat
  = Some d2.
Proof.
  destruct (X19_vector_of_a_record u_a (before [Sample sample_a] 3 1) 0
              [d1; d1; d1] sample_a []) as (_ & _ & _ & _ & H & _).
  - vm_compute. reflexivity.
  - reflexivity.
  - reflexivity.
  - reflexivity.
  - discriminate.
  - vm_compute. repeat constructor; rewrite list_elem_of_In; simpl; intuition lia.
  - vm_compute. repeat constructor; discriminate.
  - apply (H (chars "3", mk_numeral false (chars "2") (chars "0"))).
    right. left. reflexivity.
Defined.

(** X20. On any text, a pass of [read] that makes no write outside the
    vector returns one record for each line that holds a character other
    than white space, the last line included when it has no newline: so
    it returns one record more than the constructor has counted exactly
    when the text ends with such a line.  (Of a pass with a write outside
    the vector, undefined in the source, nothing is stated.) *)
Theorem X20_records_returned (fs : filesystem) (u0 : indeterminate)
  (name : string) (content : list ascii) (f : t) (fuel : nat)
  (u : nat -> indeterminate) (lbl : Z) (vals : list double) :
  fs !! name = Some content ->
  Z.of_nat (length content) <= SIZE_MAX ->
  SVMFile fs u0 name = Ok f ->
  extent vals = m_shape f -> is_array vals ->
  (length content + 1 < fuel)%nat ->
  pass_stray fuel u 0 f lbl vals = [] ->
  length (read_all fuel u 0 f lbl vals)
  = (length (closed_records content) + length (open_record content))%nat /\
  Z.of_nat (length (read_all fuel u 0 f lbl vals))
  = m_n_samples f + Z.of_nat (length (open_record content)).
Proof.
  intros Hf Hl E Hext Harr Hfuel _.
  destruct (SVMFile_count fs u0 name content Hf Hl) as [shape E'].
  rewrite E' in E. injection E as <-. cbn [m_shape m_n_samples] in *.
  pose proof (closed_records_length content) as Hc.
  assert (Hcount : length (read_all fuel u 0
                     (mk name (istringstream content) shape
                        (Z.of_nat (length (closed_records content)))) lbl vals)
                   = (length (closed_records content)
                      + length (open_record content))%nat).
  { apply (read_all_count fuel u 0%nat
             (mk name (istringstream content) shape
                (Z.of_nat (length (closed_records content)))) lbl vals).
    - reflexivity.
    - cbn [m_shape]. rewrite <- Hext. apply to_size_t_int.
      unfold is_array in Harr. unfold extent in *. lia.
    - cbn [m_file rdbuf istringstream]. lia. }
  split; [exact Hcount|]. rewrite Hcount. lia.
Qed.

Lemma X20_records_returned_witness :
  pass_stray 20 (garbage u_a) 0
    (mk "data.svm" (istringstream open_pair) 1 1) 0 [d0] = [] /\
  length (read_all 20 (garbage u_a) 0
            (mk "data.svm" (istringstream open_pair) 1 1) 0 [d0]) = 2%nat.
Proof.
  assert (Hq : pass_stray 20 (garbage u_a) 0
                 (mk "data.svm" (istringstream open_pair) 1 1) 0 [d0] = [])
    by (vm_compute; reflexivity).
  split; [exact Hq|].
  destruct (X20_records_returned (disk open_pair) u_a "data.svm" open_pair
              (mk "data.svm" (istringstream open_pair) 1 1) 20
              (garbage u_a) 0 [d0]) as [H _].
  - apply lookup_singleton_eq.
  - vm_compute. discriminate.
  - vm_compute. reflexivity.
  - reflexivity.
  - vm_compute. discriminate.
  - vm_compute. lia.
  - exact Hq.
  - rewrite H. vm_compute. reflexivity.
Defined.

End FileExtras.
